(** * Borehole cone mesh (draft/cones.ipynb): a shallow embedding

    The notebook defines two dataclasses, [Point] and [Cone].  [Cone] validates
    its attributes in [__post_init__] and derives, through read-only
    properties, the polar points, the Cartesian points, the enumerated
    indices and the triangular faces of the mesh.

    Python values are dynamically typed, so constructor arguments are
    modelled by [pyval]; exceptions are modelled by [result]; the text
    written by [print] is the list of lines that accompanies a result.

    Python's [float] is kept behind the interface [FloatOps], with two
    implementations: [Exact] (the real numbers, for statements of exact
    arithmetic) and [Binary64] (IEEE 754 double precision, what CPython
    computes with).  [math.cos], [math.sin] and the [pow] behind [**] come
    from the platform's C library and form the separate interface [Libm].
    The exceptions of the arithmetic are modelled: [OverflowError] where an
    int beyond the range of float is converted or [**] overflows,
    [ZeroDivisionError], and ValueError('math domain error') of the [math]
    functions.  The universe of Python objects is restricted to int, bool,
    float, str, None and Point; memory is unbounded. *)

From Stdlib Require Import ZArith List String Bool Lia Floats Reals Lra.
From Stdlib Require Import Ascii DecimalString Permutation.
Import ListNotations.
Local Open Scope Z_scope.

(** ** Exceptions and results *)

Inductive exn : Type :=
| ValueError (msg : string)
| TypeError
| IndexError
| ZeroDivisionError
| OverflowError.

Inductive result (A : Type) : Type :=
| Ok (a : A)
| Raise (e : exn).

Arguments Ok {A} a.
Arguments Raise {A} e.

Definition bind {A B : Type} (r : result A) (k : A -> result B) : result B :=
  match r with
  | Ok a => k a
  | Raise e => Raise e
  end.

Declare Scope result_scope.
Delimit Scope result_scope with result.
Notation "x <- e ;; k" := (bind e (fun x => k))
  (at level 100, e at next level, right associativity) : result_scope.
Notation "' p <- e ;; k" := (bind e (fun p => k))
  (at level 100, p pattern, e at next level, right associativity) : result_scope.
Local Open Scope result_scope.

(** [for x in xs: body], the loop state threaded through the iterations; an
    exception raised by the body leaves the loop. *)
Fixpoint for_ {A S : Type} (xs : list A) (body : A -> S -> result S) (s : S)
  : result S :=
  match xs with
  | [] => Ok s
  | x :: xs' => s' <- body x s ;; for_ xs' body s'
  end.

(** [[f(x) for x in xs]]: the first exception raised by [f] leaves the
    comprehension. *)
Fixpoint comprehension {A B : Type} (f : A -> result B) (xs : list A)
  : result (list B) :=
  match xs with
  | [] => Ok []
  | x :: xs' => y <- f x ;; ys <- comprehension f xs' ;; Ok (y :: ys)
  end.

(** [range(n)] *)
Definition range (n : Z) : list Z := map Z.of_nat (seq 0 (Z.to_nat n)).

(** [enumerate(xs)] *)
Fixpoint enumerate_from {A : Type} (k : Z) (xs : list A) : list (Z * A) :=
  match xs with
  | [] => []
  | x :: xs' => (k, x) :: enumerate_from (k + 1) xs'
  end.

Definition enumerate {A : Type} (xs : list A) : list (Z * A) :=
  enumerate_from 0 xs.

(** [zip] of two and of three lists; as in Python the shortest list decides. *)
Fixpoint zip {A B : Type} (xs : list A) (ys : list B) : list (A * B) :=
  match xs, ys with
  | x :: xs', y :: ys' => (x, y) :: zip xs' ys'
  | _, _ => []
  end.

Fixpoint zip3 {A B C : Type} (xs : list A) (ys : list B) (zs : list C)
  : list (A * B * C) :=
  match xs, ys, zs with
  | x :: xs', y :: ys', z :: zs' => (x, y, z) :: zip3 xs' ys' zs'
  | _, _, _ => []
  end.

(** [xs[k]]: a negative index counts from the end; IndexError outside. *)
Definition item {A : Type} (xs : list A) (k : Z) : result A :=
  let n := Z.of_nat (List.length xs) in
  let k' := if k <? 0 then k + n else k in
  if (k' <? 0) || (n <=? k') then Raise IndexError
  else match nth_error xs (Z.to_nat k') with
       | Some a => Ok a
       | None => Raise IndexError
       end.

(** ** Python floats *)

Class FloatOps (F : Type) : Type := {
  f_of_int : Z -> F;          (* float(n), where n is in range *)
  f_converts : Z -> bool;     (* n is in the range of float *)
  f_is_nan : F -> bool;       (* math.isnan(x) *)
  f_is_inf : F -> bool;       (* math.isinf(x) *)
  f_add : F -> F -> F;
  f_sub : F -> F -> F;
  f_mul : F -> F -> F;
  f_div : F -> F -> F;
  f_neg : F -> F;
  f_ltb : F -> F -> bool;     (* x < y *)
  f_leb : F -> F -> bool;     (* x <= y *)
  f_sqrt : F -> F;            (* square root where it is defined *)
  f_pi : F                    (* math.pi *)
}.

(** The C library behind [math.cos], [math.sin] and [**].
    [math_cos] and [math_sin] are C's [cos] and [sin]; the one law on them
    is the guarantee of C's Annex F that the cosine of zero is 1.
    [x ** 2] on a float is CPython's [float_pow]: it answers for NaN, the
    infinities, zero and one itself, calls C's [pow(x, 2.0)] otherwise, and
    raises OverflowError when [pow] reports a range error or returns an
    infinity.  [pow2_overflows x] tells whether [x ** 2] raises,
    [math_pow2 x] is its value otherwise; how [pow] rounds is left to the
    library, and no law is assumed of it. *)
Class Libm (F : Type) `{FloatOps F} : Type := {
  math_cos : F -> F;
  math_sin : F -> F;
  math_pow2 : F -> F;
  pow2_overflows : F -> bool;
  math_cos_0 : math_cos (f_of_int 0) = f_of_int 1
}.

Section Numbers.
Context {F : Type} `{FloatOps F}.

(** [math.sqrt]: CPython raises ValueError('math domain error') when the
    result is NaN and the argument is not, that is for a negative
    argument. *)
Definition math_sqrt (x : F) : result F :=
  if f_ltb x (f_of_int 0) then Raise (ValueError "math domain error")
  else Ok (f_sqrt x).

(** The test of CPython's [math_1] on the result of a C function [f] at
    [x]: a NaN from an argument that is none, or an infinity from a finite
    argument.  (A library that sets errno and returns a finite value,
    which C does not allow for cos and sin, is not considered.) *)
Definition domain_error (f : F -> F) (x : F) : bool :=
  (f_is_nan (f x) && negb (f_is_nan x))
  || (f_is_inf (f x) && negb (f_is_nan x || f_is_inf x)).

(** [math.cos(x)] and [math.sin(x)] on a float, through [math_1]. *)
Definition math_1 (f : F -> F) (x : F) : result F :=
  if domain_error f x then Raise (ValueError "math domain error")
  else Ok (f x).

(** [math.radians]: CPython multiplies by the constant pi / 180. *)
Definition math_radians (x : F) : F :=
  f_mul x (f_div f_pi (f_of_int 180)).

(** A Python number: an int (a bool counts as the int 0 or 1) or a float. *)
Inductive number : Type :=
| PyInt (n : Z)
| PyFloat (x : F).

(** The float value of a number.  An int beyond the range of float has
    none; where the code converts one, [as_float] raises. *)
Definition to_float (a : number) : F :=
  match a with
  | PyInt n => f_of_int n
  | PyFloat x => x
  end.

(** Whether [a] converts to a float. *)
Definition converts (a : number) : bool :=
  match a with
  | PyInt n => f_converts n
  | PyFloat _ => true
  end.

(** The conversion of an operand to a C double:
    OverflowError('int too large to convert to float'). *)
Definition as_float (a : number) : result F :=
  match a with
  | PyInt n => if f_converts n then Ok (f_of_int n) else Raise OverflowError
  | PyFloat x => Ok x
  end.

(** A binary operation of float: both operands are converted, the left
    one first, and the operation itself does not raise. *)
Definition float_op (op : F -> F -> F) (a b : number) : result F :=
  x <- as_float a ;;
  y <- as_float b ;;
  Ok (op x y).

(** [a * b] and [a + b]: exact on two ints, otherwise in floats. *)
Definition py_mul (a b : number) : result number :=
  match a, b with
  | PyInt m, PyInt n => Ok (PyInt (m * n))
  | _, _ => x <- float_op f_mul a b ;; Ok (PyFloat x)
  end.

Definition py_add (a b : number) : result number :=
  match a, b with
  | PyInt m, PyInt n => Ok (PyInt (m + n))
  | _, _ => x <- float_op f_add a b ;; Ok (PyFloat x)
  end.

(** [x / k] for a float [x] and an int [k], the only division of the
    notebook: [k] is converted, then a zero divisor is refused. *)
Definition py_truediv (x : F) (k : Z) : result number :=
  y <- as_float (PyInt k) ;;
  if k =? 0 then Raise ZeroDivisionError
  else Ok (PyFloat (f_div x y)).

(** The values of [a * b] and [a + b] where no conversion overflows. *)
Definition num_mul (a b : number) : number :=
  match a, b with
  | PyInt m, PyInt n => PyInt (m * n)
  | _, _ => PyFloat (f_mul (to_float a) (to_float b))
  end.

Definition num_add (a b : number) : number :=
  match a, b with
  | PyInt m, PyInt n => PyInt (m + n)
  | _, _ => PyFloat (f_add (to_float a) (to_float b))
  end.

(** Comparison of a number with an int constant. *)
Definition num_lt (a : number) (k : Z) : bool :=
  match a with
  | PyInt n => n <? k
  | PyFloat x => f_ltb x (f_of_int k)
  end.

Definition num_le (a : number) (k : Z) : bool :=
  match a with
  | PyInt n => n <=? k
  | PyFloat x => f_leb x (f_of_int k)
  end.

Definition num_gt (a : number) (k : Z) : bool :=
  match a with
  | PyInt n => k <? n
  | PyFloat x => f_ltb (f_of_int k) x
  end.

Definition num_ge (a : number) (k : Z) : bool :=
  match a with
  | PyInt n => k <=? n
  | PyFloat x => f_leb (f_of_int k) x
  end.
End Numbers.

Arguments number F : clear implicits.

Section Powers.
Context {F : Type} `{FloatOps F} `{!Libm F}.

(** [a ** 2]: exact on an int; on a float OverflowError where [pow]
    overflows. *)
Definition py_pow2 (a : number F) : result (number F) :=
  match a with
  | PyInt n => Ok (PyInt (n * n))
  | PyFloat x =>
    if pow2_overflows x then Raise OverflowError
    else Ok (PyFloat (math_pow2 x))
  end.

(** The value of [a ** 2] where it does not overflow. *)
Definition num_pow2 (a : number F) : number F :=
  match a with
  | PyInt n => PyInt (n * n)
  | PyFloat x => PyFloat (math_pow2 x)
  end.

(** [math.cos(a)] and [math.sin(a)]: the argument is converted first. *)
Definition py_cos (a : number F) : result F :=
  x <- as_float a ;; math_1 math_cos x.

Definition py_sin (a : number F) : result F :=
  x <- as_float a ;; math_1 math_sin x.
End Powers.

(** ** Python objects handed to the constructors *)

Section Values.
Context {F : Type} `{FloatOps F}.

(** The objects of the model: int, bool, float, str, None and instances of
    [Point] with their three attributes. *)
Inductive pyval : Type :=
| VInt (n : Z)
| VBool (b : bool)
| VFloat (x : F)
| VStr (s : string)
| VNone
| VPoint (x y z : number F).

(** [isinstance(v, int)]: bool is a subclass of int. *)
Definition as_int (v : pyval) : option Z :=
  match v with
  | VInt n => Some n
  | VBool b => Some (Z.b2z b)
  | _ => None
  end.

(** [isinstance(v, float) or isinstance(v, int)] *)
Definition as_number (v : pyval) : option (number F) :=
  match v with
  | VInt n => Some (PyInt n)
  | VBool b => Some (PyInt (Z.b2z b))
  | VFloat x => Some (PyFloat x)
  | _ => None
  end.

(** The operand of an ordering comparison with an int: a str, None or a
    Point does not order with an int and the comparison raises
    TypeError. *)
Definition ordered (v : pyval) : result (number F) :=
  match as_number v with
  | Some a => Ok a
  | None => Raise TypeError
  end.
End Values.

Arguments pyval F : clear implicits.

(** ** Results that come with printed lines *)

Definition io (A : Type) : Type := (list string * result A)%type.

Definition io_ret {A : Type} (a : A) : io A := ([], Ok a).

Definition io_bind {A B : Type} (m : io A) (k : A -> io B) : io B :=
  match m with
  | (out, Ok a) => let (out', r) := k a in (out ++ out', r)
  | (out, Raise e) => (out, Raise e)
  end.

Definition print (line : string) : io unit := ([line], Ok tt).

Definition raise {A : Type} (e : exn) : io A := ([], Raise e).

Definition lift {A : Type} (r : result A) : io A := ([], r).

Declare Scope io_scope.
Delimit Scope io_scope with io.
Notation "x <- e ;; k" := (io_bind e (fun x => k))
  (at level 100, e at next level, right associativity) : io_scope.
Notation "e ;; k" := (io_bind e (fun _ => k))
  (at level 100, right associativity) : io_scope.

(** ** Text and the file system, for create_obj *)

(** [str(n)] for an int. *)
Definition str_int (n : Z) : string := NilZero.string_of_int (Z.to_int n).

(** The newline character. *)
Definition newline : string := String (ascii_of_nat 10) EmptyString.

(** [round(x, 3)] and [str(x)] for a float: CPython's decimal rounding and
    shortest representation, kept behind an interface. *)
Class Repr (F : Type) : Type := {
  py_round3 : F -> F;
  float_str : F -> string
}.

(** What create_obj asks of the operating system: [os.path.isdir(path)],
    and whether [open(path, 'w')] succeeds. *)
Record world : Type := {
  isdir : string -> bool;
  can_open : string -> bool
}.

(** [path.endswith('/')] *)
Fixpoint ends_with_sep (path : string) : bool :=
  match path with
  | EmptyString => false
  | String c EmptyString => Ascii.eqb c "/"
  | String _ rest => ends_with_sep rest
  end.

(** [os.path.join(a, b)] of posixpath: an absolute [b] replaces [a]; an
    empty [a], or one that ends with the separator, is extended by [b];
    otherwise the separator comes between. *)
Definition os_path_join (a b : string) : string :=
  if String.prefix "/" b then b
  else if (a =? "")%string || ends_with_sep a then (a ++ b)%string
  else (a ++ "/" ++ b)%string.

(** How a call of create_obj ends: the file was written (its path and the
    strings written, in order), an exception of the notebook's kinds was
    raised before the file was opened, or [open] failed with an OSError. *)
Inductive outcome : Type :=
| Written (path : string) (writes : list string)
| Raised (e : exn)
| OpenFailed (path : string).

Section NumberText.
Context {F : Type} `{Repr F}.

(** [round(a, 3)]: an int is returned as it is. *)
Definition num_round3 (a : number F) : number F :=
  match a with
  | PyInt n => PyInt n
  | PyFloat x => PyFloat (py_round3 x)
  end.

(** [str(a)], as an f-string formats it. *)
Definition num_str (a : number F) : string :=
  match a with
  | PyInt n => str_int n
  | PyFloat x => float_str x
  end.
End NumberText.

(** ** class Point *)

Module Point.
Section Def.
Context {F : Type} `{FloatOps F}.

Record t : Type := mk { x : number F; y : number F; z : number F }.

(** [Point(x, y, z)]: the generated [__init__] stores the three
    attributes and [__post_init__] checks each of them in turn. *)
Definition __post_init__ (x y z : pyval F) : result t :=
  match as_number x, as_number y, as_number z with
  | Some a, Some b, Some c => Ok (mk a b c)
  | _, _, _ => Raise (ValueError "x, y, z must be numbers (int, float)")
  end.

(** [isinstance(v, Point)] *)
Definition isinstance (v : pyval F) : option t :=
  match v with
  | VPoint a b c => Some (mk a b c)
  | _ => None
  end.

End Def.
Arguments t F : clear implicits.
End Point.

(** ** class Cone *)

Module Cone.
Section Def.
Context {F : Type} `{FloatOps F} `{!Libm F}.

Record t : Type := mk {
  point : Point.t F;   (* point on surface where drilling starts *)
  length : number F;   (* borehole length *)
  sides : Z;           (* number of sides of base polygon *)
  rings : Z;           (* number of rings *)
  dip : F              (* dip of borehole, in radians once constructed *)
}.

Definition SIDES_MIN : Z := 3.
Definition RINGS_MIN : Z := 1.
Definition DIP_MIN : Z := 0.
Definition DIP_MAX : Z := 90.

(** [Cone(point, length, sides, rings, dip)]: the generated [__init__]
    stores the five attributes and [__post_init__] validates them,
    clamps [sides] and [rings] and converts [dip] to radians. *)
Definition __post_init__ (point length sides rings dip : pyval F) : io t :=
  (p <- match Point.isinstance point with
        | Some p => io_ret p
        | None => raise (ValueError "point must be an instance of Point")
        end ;;
   len <- lift (ordered length) ;;
   (if negb (num_gt len 0)
    then raise (ValueError "length must be a positive float")
    else io_ret tt) ;;
   s <- match as_int sides with
        | Some s => io_ret s
        | None => raise (ValueError "sides and rings must be an integers")
        end ;;
   r <- match as_int rings with
        | Some r => io_ret r
        | None => raise (ValueError "sides and rings must be an integers")
        end ;;
   s <- (if s <? SIDES_MIN
         then (print "Number of sides set to 3" ;; io_ret SIDES_MIN)
         else io_ret s) ;;
   r <- (if r <? RINGS_MIN
         then (print "Number of rings set to 1" ;; io_ret RINGS_MIN)
         else io_ret r) ;;
   d <- lift (ordered dip) ;;
   (if num_le d DIP_MIN || num_ge d DIP_MAX
    then raise (ValueError
           "dip must be larger than (0 and smaller than 90]")
    else io_ret tt) ;;
   io_ret (mk p len s r (math_radians (to_float d))))%io.

(** *** points_polar *)

(** A polar point [(ring, radius, angle, height)]. *)
Definition polar : Type := (Z * number F * number F * number F)%type.

(** [i * self.length * math.cos(self.dip) / self.rings] *)
Definition radius (self : t) (i : Z) : result (number F) :=
  n <- py_mul (PyInt i) (length self) ;;
  c <- math_1 math_cos (dip self) ;;
  x <- float_op f_mul n (PyFloat c) ;;
  py_truediv x (rings self).

(** [height = - math.sqrt(self.length**2
               - (i * self.length * math.cos(self.dip) / self.rings)**2)] *)
Definition height (self : t) (i : Z) : result (number F) :=
  sq <- py_pow2 (length self) ;;
  r <- radius self i ;;
  r2 <- py_pow2 r ;;
  d <- float_op f_sub sq r2 ;;
  root <- math_sqrt d ;;
  Ok (PyFloat (f_neg root)).

(** [angle = j * 2 * math.pi / self.sides] *)
Definition angle (self : t) (j : Z) : result (number F) :=
  n <- py_mul (PyInt j) (PyInt 2) ;;
  x <- float_op f_mul n (PyFloat f_pi) ;;
  py_truediv x (sides self).

Definition points_polar (self : t) : result (list polar) :=
  pts <- for_ (range (rings self + 1)) (fun i pts =>
           radius <- radius self i ;;
           height <- height self i ;;
           for_ (range (sides self)) (fun j pts =>
             angle <- angle self j ;;
             if (i =? 0) && (0 <? j)
             then Ok pts (* avoid duplicate points on ring 0 *)
             else Ok (pts ++ [(i, radius, angle, height)])) pts) [] ;;
  (* add point on surface w/ index -1 *)
  Ok (pts ++ [(-1, PyInt 0, PyInt 0, PyInt 0)]).

(** *** points_cartesian *)

(** A Cartesian point [[ring, x, y, z]]. *)
Definition cartesian : Type := (Z * number F * number F * number F)%type.

(** The element of the comprehension for the polar point [p]. *)
Definition cartesian_of (self : t) (p : polar) : result cartesian :=
  let '(p0, p1, p2, p3) := p in
  c <- py_cos p2 ;;
  a <- float_op f_mul p1 (PyFloat c) ;;
  x <- float_op f_add (Point.x (point self)) (PyFloat a) ;;
  s <- py_sin p2 ;;
  b <- float_op f_mul p1 (PyFloat s) ;;
  y <- float_op f_add (Point.y (point self)) (PyFloat b) ;;
  z <- py_add (Point.z (point self)) p3 ;;
  Ok (p0, PyFloat x, PyFloat y, z).

Definition points_cartesian (self : t) : result (list cartesian) :=
  pts <- points_polar self ;;
  comprehension (cartesian_of self) pts.

(** *** _shift *)

Definition _shift {A : Type} (seq : list A) (n : Z) : result (list A) :=
  if Z.of_nat (List.length seq) =? 0 then Raise ZeroDivisionError
  else
    let n := n mod Z.of_nat (List.length seq) in
    Ok (skipn (Z.to_nat n) seq ++ firstn (Z.to_nat n) seq).

(** *** indices *)

(** The dict [{'ring': r, 'idx': k}]. *)
Record indexed : Type := mk_indexed { ring : Z; idx : Z }.

Definition indices (self : t) : result (list indexed) :=
  pts <- points_cartesian self ;;
  Ok (map (fun '(idx, i) =>
             let '(i0, _, _, _) := (i : cartesian) in
             {| ring := i0; idx := idx + 1 |}) (enumerate pts)).

(** *** faces *)

Definition face : Type := (Z * Z * Z)%type.

Definition faces (self : t) : result (list face) :=
  pts_idx <- indices self ;;
  for_ (range (rings self)) (fun i faces =>
    let ring_current := filter (fun pt => ring pt =? i) pts_idx in
    let ring_next := filter (fun pt => ring pt =? i + 1) pts_idx in
    if i =? 0 then
      (* add triangles *)
      pt <- item ring_current 0 ;;
      let idx1 := idx pt in
      let idx2 := map idx ring_next in
      idx3 <- _shift idx2 1 ;;
      Ok (faces ++ map (fun '(i2, i3) => (idx1, i2, i3)) (zip idx2 idx3))
    else if 0 <? i then
      (* add quadrilaterals: 1 quadrilateral = 2 triangles *)
      let idx1 := map idx ring_current in
      idx2 <- _shift idx1 1 ;;
      let idx3 := map idx ring_next in
      idx4 <- _shift idx3 1 ;;
      let faces :=
        faces ++ map (fun '(i1, i2, i3) => (i1, i2, i3))
                     (zip3 idx1 idx2 idx3) in
      let faces :=
        faces ++ map (fun '(i2, i3, i4) => (i2, i3, i4))
                     (zip3 idx2 idx3 idx4) in
      (* add triangles between outer ring vertices and point on surface *)
      if i =? rings self - 1 then
        pt <- item pts_idx (-1) ;;
        let idx1 := idx pt in (* point on surface *)
        Ok (faces ++ map (fun '(i3, i4) => (idx1, i3, i4)) (zip idx3 idx4))
      else Ok faces
    else Ok faces) [].

(** *** create_obj *)

Context `{!Repr F}.

(** [create_obj(self, name, directory='')] in a world [w]: the printed
    lines and how the call ends. *)
Definition create_obj (w : world) (self : t) (name directory : string)
  : list string * outcome :=
  if negb (directory =? "")%string && negb (isdir w directory)
  then ([], Raised (ValueError "directory does not exist"))
  else
    match points_cartesian self with
    | Raise e => ([], Raised e)
    | Ok cart =>
      let points :=
        map (fun p : cartesian =>
               let '(_, p1, p2, p3) := p in
               (num_round3 p1, num_round3 p2, num_round3 p3)) cart in
      match faces self with
      | Raise e => ([], Raised e)
      | Ok faces =>
        let full_path := os_path_join directory (name ++ ".obj")%string in
        if can_open w full_path then
          let vs :=
            map (fun '(p0, p1, p2) =>
                   ("v " ++ num_str p0 ++ " " ++ num_str p1 ++ " "
                    ++ num_str p2 ++ newline)%string) points in
          let fs :=
            map (fun f : face =>
                   let '(a, b, c) := f in
                   let f_as_strings := [str_int a; str_int b; str_int c] in
                   let string := String.concat " " f_as_strings in
                   ("f " ++ string ++ newline)%string) faces in
          (["obj file created"%string], Written full_path (vs ++ fs))
        else ([], OpenFailed full_path)
      end
    end.
End Def.
Arguments t F : clear implicits.
Arguments polar F : clear implicits.
Arguments cartesian F : clear implicits.
End Cone.

(** ** The two implementations of Python's float *)

(** *** Exact real arithmetic *)

Definition Rltb (a b : R) : bool := if Rlt_dec a b then true else false.
Definition Rleb (a b : R) : bool := if Rle_dec a b then true else false.

#[export] Instance Exact : FloatOps R := {|
  f_of_int := IZR;
  f_converts := fun _ => true;
  f_is_nan := fun _ => false;
  f_is_inf := fun _ => false;
  f_add := Rplus;
  f_sub := Rminus;
  f_mul := Rmult;
  f_div := Rdiv;
  f_neg := Ropp;
  f_ltb := Rltb;
  f_leb := Rleb;
  f_sqrt := sqrt;
  f_pi := PI
|}.

#[export] Instance ExactLibm : Libm R := {|
  math_cos := cos;
  math_sin := sin;
  math_pow2 := fun x => (x * x)%R;
  pow2_overflows := fun _ => false;
  math_cos_0 := cos_0
|}.

(** *** IEEE 754 binary64, as CPython computes *)

(** [float(n)]: the integer rounded to the nearest double, ties to even.
    CPython raises OverflowError where this rounding leaves the range of
    the doubles, which is where it gives an infinity. *)
Definition b64_of_int (n : Z) : float :=
  SF2Prim (binary_normalize prec emax n 0 false).

Definition b64_converts (n : Z) : bool :=
  negb (PrimFloat.is_infinity (b64_of_int n)).

#[export] Instance Binary64 : FloatOps float := {|
  f_of_int := b64_of_int;
  f_converts := b64_converts;
  f_is_nan := PrimFloat.is_nan;
  f_is_inf := PrimFloat.is_infinity;
  f_add := PrimFloat.add;
  f_sub := PrimFloat.sub;
  f_mul := PrimFloat.mul;
  f_div := PrimFloat.div;
  f_neg := PrimFloat.opp;
  f_ltb := PrimFloat.ltb;
  f_leb := PrimFloat.leb;
  f_sqrt := PrimFloat.sqrt;
  f_pi := 0x1.921fb54442d18p+1%float
|}.

(** ** The vocabulary of the statements *)

Section Shapes.
Context {F : Type} `{FloatOps F} `{!Libm F}.
Implicit Types (self : Cone.t F).

(** A valid descriptor, after clamping: sides >= 3, rings >= 1, length > 0
    and a dip that is the radian value of an angle of more than 0 and less
    than 90 degrees. *)
Definition valid self : Prop :=
  3 <= Cone.sides self /\ 1 <= Cone.rings self /\
  num_gt (Cone.length self) 0 = true /\
  exists deg : number F,
    num_gt deg 0 = true /\ num_lt deg 90 = true /\
    Cone.dip self = math_radians (to_float deg).

(** radius(i) = i * length * cos(dip) / rings *)
Definition radius_value self (i : Z) : F :=
  f_div (f_mul (to_float (num_mul (PyInt i) (Cone.length self)))
               (math_cos (Cone.dip self)))
        (f_of_int (Cone.rings self)).

(** The argument of the square root: length ** 2 - radius(i) ** 2. *)
Definition radicand self (i : Z) : F :=
  f_sub (to_float (num_pow2 (Cone.length self)))
        (math_pow2 (radius_value self i)).

(** height(i) = - sqrt(length^2 - radius(i)^2) *)
Definition height_value self (i : Z) : F :=
  f_neg (f_sqrt (radicand self i)).

(** angle(j) = j * 2 * pi / sides *)
Definition angle_value self (j : Z) : F :=
  f_div (f_mul (f_of_int (j * 2)) f_pi) (f_of_int (Cone.sides self)).

(** [math.sqrt] accepts the radicand of every ring 0..rings. *)
Definition heights_defined self : Prop :=
  forall i, 0 <= i <= Cone.rings self ->
    f_ltb (radicand self i) (f_of_int 0) = false.

(** Iteration [i] of points_polar up to the square root, and the angle
    of side [j], meet no OverflowError and no domain error of math.cos:
    every int that is converted is in the range of float ([i] or
    [i * length], [rings], [length ** 2] where the length is an int,
    [j * 2], [sides]), math.cos accepts the dip, and neither
    [length ** 2] (where the length is a float) nor [radius(i) ** 2]
    overflows. *)
Definition radius_runs self (i : Z) : bool :=
  match Cone.length self with
  | PyInt _ => true
  | PyFloat _ => f_converts i
  end
  && negb (domain_error math_cos (Cone.dip self))
  && converts (num_mul (PyInt i) (Cone.length self))
  && f_converts (Cone.rings self).

Definition height_runs self (i : Z) : bool :=
  match Cone.length self with
  | PyInt _ => true
  | PyFloat l => negb (pow2_overflows l)
  end
  && radius_runs self i
  && negb (pow2_overflows (radius_value self i))
  && converts (num_pow2 (Cone.length self)).

Definition angle_runs self (j : Z) : bool :=
  f_converts (j * 2) && f_converts (Cone.sides self).

(** Iteration [i] of points_polar returns. *)
Definition ring_returns self (i : Z) : bool :=
  height_runs self i
  && negb (f_ltb (radicand self i) (f_of_int 0))
  && forallb (angle_runs self) (range (Cone.sides self)).

Definition polar_runs self : Prop :=
  (forall i, 0 <= i <= Cone.rings self -> height_runs self i = true) /\
  (forall j, 0 <= j < Cone.sides self -> angle_runs self j = true).

(** The value of the Cartesian point made from the polar point [p], where
    nothing raises. *)
Definition cartesian_value self (p : Cone.polar F) : Cone.cartesian F :=
  let '(p0, p1, p2, p3) := p in
  (p0,
   PyFloat (f_add (to_float (Point.x (Cone.point self)))
                  (f_mul (to_float p1) (math_cos (to_float p2)))),
   PyFloat (f_add (to_float (Point.y (Cone.point self)))
                  (f_mul (to_float p1) (math_sin (to_float p2)))),
   num_add (Point.z (Cone.point self)) p3).

(** The polar point of ring [i] and side [j]. *)
Definition polar_at self (i j : Z) : Cone.polar F :=
  (i, PyFloat (radius_value self i), PyFloat (angle_value self j),
   PyFloat (height_value self i)).

(** The synthetic point on the surface. *)
Definition surface_point : Cone.polar F := (-1, PyInt 0, PyInt 0, PyInt 0).

(** The points of ring [i]: one for ring 0, one per side otherwise. *)
Definition ring_points self (i : Z) : list (Cone.polar F) :=
  if i =? 0 then [polar_at self 0 0]
  else map (polar_at self i) (range (Cone.sides self)).

(** Position (0-based) of the point of ring [i] and side [j]. *)
Definition position self (i j : Z) : nat :=
  if i =? 0 then 0%nat else Z.to_nat (1 + (i - 1) * Cone.sides self + j).

(** The ring tag of a point. *)
Definition tag (p : Z * number F * number F * number F) : Z :=
  let '(r, _, _, _) := p in r.

(** 1-based index of the vertex of ring [i >= 1] and side [k]. *)
Definition vertex self (i k : Z) : Z := 2 + (i - 1) * Cone.sides self + k.

(** 1-based index of the point on the surface, the last vertex. *)
Definition apex self : Z := Cone.rings self * Cone.sides self + 2.

Definition ring_vertices self (i : Z) : list Z :=
  map (vertex self i) (range (Cone.sides self)).

Definition ring_block self (i : Z) : list Cone.indexed :=
  map (fun k => Cone.mk_indexed i (vertex self i k)) (range (Cone.sides self)).
End Shapes.

(** The rings [a], [a+1], ..., [a+m-1]. *)
Definition rings_from (a m : nat) : list Z := map Z.of_nat (seq a m).

(** Numbering of ring tags from [k] on. *)
Fixpoint number_from (k : Z) (tags : list Z) : list Cone.indexed :=
  match tags with
  | [] => []
  | r :: tags' => Cone.mk_indexed r k :: number_from (k + 1) tags'
  end.

(** The ordered index list of ring [i]. *)
Definition ring_of (pts_idx : list Cone.indexed) (i : Z) : list Z :=
  map Cone.idx (filter (fun pt => Cone.ring pt =? i) pts_idx).

(** A list rotated left by one. *)
Definition rotl {A : Type} (l : list A) : list A :=
  match l with
  | [] => []
  | a :: l' => l' ++ [a]
  end.

(** [l[k]] for an index list. *)
Definition at_ (l : list Z) (k : Z) : Z := nth (Z.to_nat k) l 0.

(** The three groups of triangles, on index lists. *)
Definition fan (c : Z) (B : list Z) : list Cone.face :=
  map (fun '(b, b') => (c, b, b')) (zip B (rotl B)).

Definition quads (A B : list Z) : list Cone.face :=
  zip3 A (rotl A) B ++ zip3 (rotl A) B (rotl B).

Section FaceShapes.
Context {F : Type} `{FloatOps F}.
Implicit Types (self : Cone.t F).

Definition body_faces self (i : Z) : list Cone.face :=
  quads (ring_vertices self i) (ring_vertices self (i + 1)).

Definition apex_fan self : list Cone.face :=
  fan (apex self) (ring_vertices self (Cone.rings self)).

Definition tip_fan self : list Cone.face :=
  fan 1 (ring_vertices self 1).

(** What the iteration for ring transition [i] adds to the face list. *)
Definition face_group self (i : Z) : list Cone.face :=
  if i =? 0 then tip_fan self
  else body_faces self i
       ++ (if i =? Cone.rings self - 1 then apex_fan self else []).

(** The enumerated points: the tip, the rings 1..rings, the surface point. *)
Definition indices_closed self : list Cone.indexed :=
  Cone.mk_indexed 0 1
  :: flat_map (ring_block self) (rings_from 1 (Z.to_nat (Cone.rings self)))
  ++ [Cone.mk_indexed (-1) (apex self)].
End FaceShapes.

(** The number of points of a list that carry ring tag [i]. *)
Definition count_ring {F : Type} (i : Z)
           (pts : list (Z * number F * number F * number F)) : nat :=
  List.length (filter (fun p => tag p =? i) pts).

(** A call returned. *)
Definition returns {A : Type} (r : result A) : Prop := exists a, r = Ok a.

(** The two exceptions of the arithmetic. *)
Definition arithmetic_error (e : exn) : Prop :=
  e = ValueError "math domain error" \/ e = OverflowError.

(** The counts of C4 on a list of points: rings * sides + 2 points, one
    of ring 0, [sides] of each ring 1..rings, and one tagged -1, the last
    element. *)
Definition ring_counts {F : Type} `{FloatOps F} `{!Libm F}
           (self : Cone.t F)
           (l : list (Z * number F * number F * number F)) : Prop :=
  Z.of_nat (List.length l) = Cone.rings self * Cone.sides self + 2 /\
  count_ring 0 l = 1%nat /\
  (forall i, 1 <= i <= Cone.rings self ->
             Z.of_nat (count_ring i l) = Cone.sides self) /\
  count_ring (-1) l = 1%nat /\
  exists front p, l = front ++ [p] /\ tag p = -1.

(** The constructor raised ValueError, the notebook's validation error. *)
Definition raises_ValueError {A : Type} (r : result A) : Prop :=
  exists msg, r = Raise (ValueError msg).

(** ** The lines of the OBJ file *)

Section ObjLines.
Context {F : Type} `{Repr F}.

(** The line create_obj writes for a point: its three coordinates, each
    rounded to three decimals. *)
Definition v_line (p : Cone.cartesian F) : string :=
  let '(_, x, y, z) := p in
  ("v " ++ num_str (num_round3 x) ++ " " ++ num_str (num_round3 y) ++ " "
   ++ num_str (num_round3 z) ++ newline)%string.

(** The line create_obj writes for a face. *)
Definition f_line (f : Cone.face) : string :=
  let '(a, b, c) := f in
  ("f " ++ str_int a ++ " " ++ str_int b ++ " " ++ str_int c
   ++ newline)%string.

(** Index [v] of a face, counted from 1 as the OBJ format does, names a
    vertex line among the strings written: the line of the [v]-th point. *)
Definition names_vertex_line (writes : list string)
           (cart : list (Cone.cartesian F)) (v : Z) : Prop :=
  1 <= v /\
  exists p, nth_error cart (Z.to_nat (v - 1)) = Some p /\
            nth_error writes (Z.to_nat (v - 1)) = Some (v_line p).
End ObjLines.

(** The path of the file: [os.path.join(directory, name + '.obj')]. *)
Definition obj_path (directory name : string) : string :=
  os_path_join directory (name ++ ".obj")%string.

(** A file system in which every directory exists and every file can be
    opened, and one without any directory. *)
Definition permissive : world :=
  {| isdir := fun _ => true; can_open := fun _ => true |}.

Definition no_directories : world :=
  {| isdir := fun _ => false; can_open := fun _ => true |}.

(** ** Example objects *)

(** [Point(0, 0, 0)] *)
Definition origin {F : Type} : pyval F := VPoint (PyInt 0) (PyInt 0) (PyInt 0).

(** What [Cone(Point(0, 0, 0), 100, sides, rings, 60)] constructs in exact
    arithmetic when [sides >= 3] and [rings >= 1]. *)
Definition exact_cone (sides rings : Z) : Cone.t R :=
  Cone.mk (Point.mk (PyInt 0) (PyInt 0) (PyInt 0)) (PyInt 100) sides rings
          (math_radians (IZR 60)).

(** What [Cone(Point(0, 0, 0), 0.1, 3, 3, 5e-324)] constructs in binary64:
    the dip in radians underflows to 0.0. *)
Definition grazing_cone : Cone.t float :=
  Cone.mk (Point.mk (PyInt 0) (PyInt 0) (PyInt 0))
          (PyFloat 0x1.999999999999ap-4%float) 3 3 0%float.

(** What [Cone(Point(0, 0, 0), 0.1, 3, 3, 1e-10)] constructs in binary64:
    the dip in radians is 1.7453292519943296e-12. *)
Definition shallow_cone : Cone.t float :=
  Cone.mk (Point.mk (PyInt 0) (PyInt 0) (PyInt 0))
          (PyFloat 0x1.999999999999ap-4%float) 3 3
          (math_radians 0x1.b7cdfd9d7bdbbp-34%float).

(** Case analysis on the integer comparisons of a goal. *)
Ltac Z_cases :=
  repeat match goal with
         | |- context [?a <=? ?b] => destruct (Z.leb_spec a b)
         | |- context [?a <? ?b] => destruct (Z.ltb_spec a b)
         | |- context [?a =? ?b] => destruct (Z.eqb_spec a b)
         end;
  cbn [andb orb negb].

(** * Proofs *)

(** ** Lists, ranges and loops *)

Lemma In_range (j n : Z) : In j (range n) <-> 0 <= j < n.
Proof.
  unfold range. rewrite in_map_iff. split.
  - intros [k [<- Hk]]. apply in_seq in Hk. lia.
  - intros Hj. exists (Z.to_nat j). split; [lia | apply in_seq; lia].
Qed.

Lemma length_range (n : Z) : List.length (range n) = Z.to_nat n.
Proof. unfold range. now rewrite length_map, length_seq. Qed.

Lemma nth_error_range (n : Z) (k : nat) :
  (k < Z.to_nat n)%nat -> nth_error (range n) k = Some (Z.of_nat k).
Proof.
  intros Hk. unfold range.
  rewrite nth_error_map, nth_error_seq.
  destruct (Nat.ltb_spec k (Z.to_nat n)); [reflexivity | lia].
Qed.

Lemma range_cons (n : Z) :
  0 < n -> range n = 0 :: rings_from 1 (Z.to_nat n - 1).
Proof.
  intros Hn. unfold range, rings_from.
  destruct (Z.to_nat n) as [|m] eqn:E; [lia|].
  simpl. now rewrite Nat.sub_0_r.
Qed.

Lemma In_rings_from (i : Z) (a m : nat) :
  In i (rings_from a m) <-> Z.of_nat a <= i < Z.of_nat a + Z.of_nat m.
Proof.
  unfold rings_from. rewrite in_map_iff. split.
  - intros [k [<- Hk]]. apply in_seq in Hk. lia.
  - intros Hi. exists (Z.to_nat i). split; [lia | apply in_seq; lia].
Qed.

Lemma rings_from_snoc (a m : nat) :
  rings_from a (S m) = rings_from a m ++ [Z.of_nat (a + m)].
Proof. unfold rings_from. now rewrite seq_S, map_app. Qed.

(** A loop whose body only appends, and never raises on the elements it
    visits, returns the state extended by what each iteration appends. *)
Lemma for_appends {A B : Type} (xs : list A)
      (body : A -> list B -> result (list B)) (items : A -> list B) :
  (forall x s, In x xs -> body x s = Ok (s ++ items x)) ->
  forall s, for_ xs body s = Ok (s ++ flat_map items xs).
Proof.
  induction xs as [|x xs IH]; intros Hbody s; simpl.
  - now rewrite app_nil_r.
  - rewrite (Hbody x s (or_introl eq_refl)). simpl.
    rewrite IH by (intros y t Hy; apply Hbody; now right).
    now rewrite <- app_assoc.
Qed.

Lemma length_flat_map_uniform {A B : Type} (f : A -> list B) (n : nat)
      (xs : list A) :
  (forall x, In x xs -> List.length (f x) = n) ->
  List.length (flat_map f xs) = (List.length xs * n)%nat.
Proof.
  induction xs as [|x xs IH]; intros Hf; simpl; [reflexivity|].
  rewrite length_app, Hf by (now left).
  rewrite IH by (intros y Hy; apply Hf; now right). reflexivity.
Qed.

(** In a concatenation of blocks of one length, block [i] starts at
    [i * n]. *)
Lemma nth_error_flat_map_uniform {A B : Type} (f : A -> list B) (n : nat)
      (xs : list A) (i k : nat) (x : A) :
  (forall y, In y xs -> List.length (f y) = n) ->
  nth_error xs i = Some x -> (k < n)%nat ->
  nth_error (flat_map f xs) (i * n + k) = nth_error (f x) k.
Proof.
  revert i. induction xs as [|a xs IH]; intros i Hf Hi Hk.
  - destruct i; discriminate.
  - simpl. destruct i as [|i]; simpl in Hi.
    + injection Hi as ->. simpl.
      rewrite nth_error_app1; [reflexivity | rewrite Hf by (now left); exact Hk].
    + rewrite nth_error_app2 by (rewrite Hf by (now left); simpl; lia).
      rewrite Hf by (now left).
      replace (S i * n + k - n)%nat with (i * n + k)%nat by (simpl; lia).
      apply IH; [intros y Hy; apply Hf; now right | exact Hi | exact Hk].
Qed.

Lemma nth_error_rings_from (a m k : nat) :
  (k < m)%nat -> nth_error (rings_from a m) k = Some (Z.of_nat (a + k)).
Proof.
  intros Hk. unfold rings_from.
  rewrite nth_error_map, nth_error_seq.
  destruct (Nat.ltb_spec k m); [reflexivity | lia].
Qed.

Lemma length_rings_from (a m : nat) : List.length (rings_from a m) = m.
Proof. unfold rings_from. now rewrite length_map, length_seq. Qed.

(** ** zip, rotation and indexing *)

Lemma length_zip {A B : Type} (xs : list A) (ys : list B) :
  List.length (zip xs ys) = Nat.min (List.length xs) (List.length ys).
Proof.
  revert ys. induction xs as [|x xs IH]; intros [|y ys]; simpl; auto.
Qed.

Lemma length_zip3 {A B C : Type} (xs : list A) (ys : list B) (zs : list C) :
  List.length (zip3 xs ys zs) =
  Nat.min (List.length xs) (Nat.min (List.length ys) (List.length zs)).
Proof.
  revert ys zs.
  induction xs as [|x xs IH]; intros [|y ys] [|z zs]; simpl; auto.
Qed.

Lemma nth_error_zip {A B : Type} (xs : list A) (ys : list B) (k : nat)
      (x : A) (y : B) :
  nth_error xs k = Some x -> nth_error ys k = Some y ->
  nth_error (zip xs ys) k = Some (x, y).
Proof.
  revert ys k.
  induction xs as [|a xs IH]; intros [|b ys] [|k]; simpl; try discriminate.
  - now intros [= ->] [= ->].
  - apply IH.
Qed.

Lemma nth_error_zip3 {A B C : Type} (xs : list A) (ys : list B)
      (zs : list C) (k : nat) (x : A) (y : B) (z : C) :
  nth_error xs k = Some x -> nth_error ys k = Some y ->
  nth_error zs k = Some z ->
  nth_error (zip3 xs ys zs) k = Some (x, y, z).
Proof.
  revert ys zs k.
  induction xs as [|a xs IH]; intros [|b ys] [|c zs] [|k]; simpl;
    try discriminate.
  - now intros [= ->] [= ->] [= ->].
  - apply IH.
Qed.

Lemma In_zip {A B : Type} (xs : list A) (ys : list B) (x : A) (y : B) :
  In (x, y) (zip xs ys) -> In x xs /\ In y ys.
Proof.
  revert ys. induction xs as [|a xs IH]; intros [|b ys]; simpl; try tauto.
  intros [[= -> ->] | Hin]; [tauto|].
  destruct (IH _ Hin). tauto.
Qed.

Lemma In_zip3 {A B C : Type} (xs : list A) (ys : list B) (zs : list C)
      (x : A) (y : B) (z : C) :
  In (x, y, z) (zip3 xs ys zs) -> In x xs /\ In y ys /\ In z zs.
Proof.
  revert ys zs.
  induction xs as [|a xs IH]; intros [|b ys] [|c zs]; simpl; try tauto.
  intros [[= -> -> ->] | Hin]; [tauto|].
  destruct (IH _ _ Hin) as (? & ? & ?). tauto.
Qed.

Lemma map_triple_id {A B C : Type} (l : list (A * B * C)) :
  map (fun '(a, b, c) => (a, b, c)) l = l.
Proof.
  induction l as [|[[a b] c] l IH]; simpl; [reflexivity | now rewrite IH].
Qed.

Lemma length_rotl {A : Type} (l : list A) :
  List.length (rotl l) = List.length l.
Proof.
  destruct l as [|a l]; simpl; [reflexivity|].
  rewrite length_app. simpl. lia.
Qed.

Lemma In_rotl {A : Type} (l : list A) (x : A) : In x (rotl l) <-> In x l.
Proof.
  destruct l as [|a l]; simpl; [tauto|].
  rewrite in_app_iff. simpl. tauto.
Qed.

(** Element [k] of the rotated list is element [(k + 1) mod len] of the
    list. *)
Lemma nth_error_rotl {A : Type} (l : list A) (k : nat) :
  (k < List.length l)%nat ->
  nth_error (rotl l) k = nth_error l ((k + 1) mod List.length l).
Proof.
  destruct l as [|a l]; simpl List.length; [lia|]. intros Hk.
  unfold rotl.
  destruct (Nat.eq_dec k (List.length l)) as [-> | Hne].
  - rewrite nth_error_app2 by lia. rewrite Nat.sub_diag.
    replace (List.length l + 1)%nat with (S (List.length l)) by lia.
    now rewrite Nat.Div0.mod_same.
  - rewrite nth_error_app1 by lia.
    rewrite Nat.mod_small by lia.
    now replace (k + 1)%nat with (S k) by lia.
Qed.

(** On a non-empty list [_shift(seq, 1)] is the rotation by one. *)
Lemma shift_one {A : Type} (l : list A) :
  l <> [] -> Cone._shift l 1 = Ok (rotl l).
Proof.
  destruct l as [|a l]; [congruence|]. intros _.
  unfold Cone._shift.
  destruct (Z.eqb_spec (Z.of_nat (List.length (a :: l))) 0) as [E|_];
    [simpl in E; lia|].
  destruct l as [|b l].
  - reflexivity.
  - replace (1 mod Z.of_nat (List.length (a :: b :: l))) with 1
      by (symmetry; apply Z.mod_small; simpl List.length; lia).
    reflexivity.
Qed.

Lemma item_first {A : Type} (a : A) (l : list A) : item (a :: l) 0 = Ok a.
Proof.
  unfold item. change (0 <? 0) with false. cbv iota.
  destruct (Z.leb_spec (Z.of_nat (List.length (a :: l))) 0) as [E|_];
    [simpl List.length in E; lia | reflexivity].
Qed.

Lemma item_last {A : Type} (l : list A) (a : A) :
  item (l ++ [a]) (-1) = Ok a.
Proof.
  unfold item. change (-1 <? 0) with true. cbv iota.
  rewrite length_app. simpl List.length.
  set (n := List.length l).
  destruct (Z.ltb_spec (-1 + Z.of_nat (n + 1)) 0) as [E|_]; [lia|].
  destruct (Z.leb_spec (Z.of_nat (n + 1)) (-1 + Z.of_nat (n + 1)))
    as [E|_]; [lia|].
  cbv [orb].
  replace (Z.to_nat (-1 + Z.of_nat (n + 1))) with n by lia.
  subst n. rewrite nth_error_app2 by lia. now rewrite Nat.sub_diag.
Qed.

Lemma flat_map_nil {A B : Type} (f : A -> list B) (l : list A) :
  (forall x, In x l -> f x = []) -> flat_map f l = [].
Proof.
  induction l as [|a l IH]; intros Hf; simpl; [reflexivity|].
  rewrite Hf by (now left). apply IH. intros x Hx. apply Hf. now right.
Qed.

Lemma flat_map_single {A B : Type} (f : A -> list B) (g : A -> B)
      (l : list A) :
  (forall x, In x l -> f x = [g x]) -> flat_map f l = map g l.
Proof.
  induction l as [|a l IH]; intros Hf; simpl; [reflexivity|].
  rewrite Hf by (now left). simpl. f_equal.
  apply IH. intros x Hx. apply Hf. now right.
Qed.

Lemma flat_map_agree {A B : Type} (f g : A -> list B) (l : list A) :
  (forall x, In x l -> f x = g x) -> flat_map f l = flat_map g l.
Proof.
  induction l as [|a l IH]; intros Hfg; simpl; [reflexivity|].
  rewrite Hfg by (now left). f_equal.
  apply IH. intros x Hx. apply Hfg. now right.
Qed.

(** A loop whose body either appends or raises one fixed exception,
    depending on the element alone. *)
Lemma for_appends_or_raises {A B : Type} (xs : list A)
      (body : A -> list B -> result (list B)) (items : A -> list B)
      (ok : A -> bool) (e : exn) :
  (forall x s, In x xs ->
     body x s = if ok x then Ok (s ++ items x) else Raise e) ->
  forall s,
    for_ xs body s =
    if forallb ok xs then Ok (s ++ flat_map items xs) else Raise e.
Proof.
  induction xs as [|x xs IH]; intros Hbody s; simpl.
  - now rewrite app_nil_r.
  - rewrite (Hbody x s (or_introl eq_refl)).
    destruct (ok x); cbn [andb bind]; [|reflexivity].
    rewrite IH by (intros y t Hy; apply Hbody; now right).
    destruct (forallb ok xs); [now rewrite <- app_assoc | reflexivity].
Qed.

(** ** The arithmetic *)

(** A loop whose body, depending on the element alone, either appends or
    raises an exception of one kind: it appends for every element, or
    raises an exception of that kind. *)
Lemma for_outcome {A B : Type} (P : exn -> Prop) (xs : list A)
      (body : A -> list B -> result (list B)) (items : A -> list B)
      (ok : A -> bool) :
  (forall x s, In x xs ->
     if ok x then body x s = Ok (s ++ items x)
     else exists e, body x s = Raise e /\ P e) ->
  forall s,
    if forallb ok xs then for_ xs body s = Ok (s ++ flat_map items xs)
    else exists e, for_ xs body s = Raise e /\ P e.
Proof.
  induction xs as [|x xs IH]; intros Hbody s; simpl.
  - now rewrite app_nil_r.
  - pose proof (Hbody x s (or_introl eq_refl)) as Hx.
    destruct (ok x); cbn [andb].
    + rewrite Hx. cbn [bind].
      specialize (IH (fun y t Hy => Hbody y t (or_intror Hy)) (s ++ items x)).
      destruct (forallb ok xs); [now rewrite IH, <- app_assoc | exact IH].
    + destruct Hx as (e & -> & He). now exists e.
Qed.

(** A comprehension whose element function returns [g x] wherever it
    returns, and raises exceptions of one kind only. *)
Lemma comprehension_Ok {A B : Type} (f : A -> result B) (g : A -> B)
      (xs : list A) (ys : list B) :
  (forall x y, f x = Ok y -> y = g x) ->
  comprehension f xs = Ok ys -> ys = map g xs.
Proof.
  intros Hf. revert ys.
  induction xs as [|x xs IH]; intros ys; simpl; [now intros [= <-]|].
  destruct (f x) as [y|e] eqn:Ex; [|discriminate]. cbn [bind].
  destruct (comprehension f xs) as [zs|e]; [|discriminate]. cbn [bind].
  intros [= <-]. now rewrite (Hf x y Ex), (IH zs eq_refl).
Qed.

Lemma comprehension_Raise {A B : Type} (P : exn -> Prop)
      (f : A -> result B) (xs : list A) (e : exn) :
  (forall x e, f x = Raise e -> P e) ->
  comprehension f xs = Raise e -> P e.
Proof.
  intros Hf. induction xs as [|x xs IH]; simpl; [discriminate|].
  destruct (f x) as [y|e'] eqn:Ex; cbn [bind].
  - destruct (comprehension f xs) as [zs|e'']; cbn [bind];
      [discriminate|]. intros [= <-]. now apply IH.
  - intros [= <-]. now apply (Hf x).
Qed.

Lemma comprehension_map {A B : Type} (f : A -> result B) (g : A -> B)
      (xs : list A) :
  (forall x, In x xs -> f x = Ok (g x)) ->
  comprehension f xs = Ok (map g xs).
Proof.
  induction xs as [|x xs IH]; intros Hf; simpl; [reflexivity|].
  rewrite (Hf x (or_introl eq_refl)). cbn [bind].
  now rewrite IH by (intros y Hy; apply Hf; now right).
Qed.

(** An exception of the arithmetic was raised. *)
Ltac arith_raise :=
  eexists; split;
  [reflexivity | first [left; reflexivity | right; reflexivity]].

Section OpFacts.
Context {F : Type} `{FloatOps F} `{!Libm F}.

Lemma as_float_cases (a : number F) :
  as_float a = if converts a then Ok (to_float a) else Raise OverflowError.
Proof. destruct a; reflexivity. Qed.

Lemma float_op_cases (op : F -> F -> F) (a b : number F) :
  float_op op a b =
  if converts a && converts b then Ok (op (to_float a) (to_float b))
  else Raise OverflowError.
Proof.
  unfold float_op. rewrite !as_float_cases.
  destruct (converts a); [|reflexivity]. cbn [bind andb].
  destruct (converts b); reflexivity.
Qed.

Lemma py_mul_int (i : Z) (a : number F) :
  py_mul (PyInt i) a =
  if match a with PyInt _ => true | PyFloat _ => f_converts i end
  then Ok (num_mul (PyInt i) a) else Raise OverflowError.
Proof.
  destruct a as [n|x]; [reflexivity|].
  unfold py_mul. rewrite float_op_cases. cbn [converts to_float num_mul].
  rewrite andb_true_r. destruct (f_converts i); reflexivity.
Qed.

Lemma py_add_cases (a b : number F) :
  py_add a b =
  if match a, b with
     | PyInt _, PyInt _ => true
     | _, _ => converts a && converts b
     end
  then Ok (num_add a b) else Raise OverflowError.
Proof.
  destruct a as [m|x], b as [n|y]; [reflexivity| | |];
    unfold py_add; rewrite float_op_cases;
    match goal with |- context [if ?c then _ else _] => destruct c end;
    reflexivity.
Qed.

Lemma py_truediv_cases (x : F) (k : Z) :
  k <> 0 ->
  py_truediv x k =
  if f_converts k then Ok (PyFloat (f_div x (f_of_int k)))
  else Raise OverflowError.
Proof.
  intros Hk. unfold py_truediv. rewrite as_float_cases. cbn [converts].
  destruct (f_converts k); [|reflexivity]. cbn [bind to_float].
  destruct (Z.eqb_spec k 0); [contradiction | reflexivity].
Qed.

Lemma py_pow2_cases (a : number F) :
  py_pow2 a =
  if match a with
     | PyInt _ => true
     | PyFloat x => negb (pow2_overflows x)
     end
  then Ok (num_pow2 a) else Raise OverflowError.
Proof.
  destruct a as [n|x]; [reflexivity|]. cbn [py_pow2 num_pow2].
  destruct (pow2_overflows x); reflexivity.
Qed.
End OpFacts.

(** ** points_polar *)

Section PolarFacts.
Context {F : Type} `{FloatOps F} `{!Libm F}.
Implicit Types (self : Cone.t F).

(** The radius of ring [i]: its value, or an exception of the
    arithmetic. *)
Lemma radius_spec self (i : Z) :
  Cone.rings self <> 0 ->
  if radius_runs self i
  then Cone.radius self i = Ok (PyFloat (radius_value self i))
  else exists e, Cone.radius self i = Raise e /\ arithmetic_error e.
Proof.
  intros Hr. unfold Cone.radius, radius_runs, radius_value.
  rewrite py_mul_int.
  destruct (match Cone.length self with
            | PyInt _ => true
            | PyFloat _ => f_converts i
            end); cbn [andb bind]; [|arith_raise].
  unfold math_1.
  destruct (domain_error math_cos (Cone.dip self));
    cbn [negb andb bind]; [arith_raise|].
  rewrite float_op_cases. cbn [converts to_float]. rewrite andb_true_r.
  destruct (converts (num_mul (PyInt i) (Cone.length self)));
    cbn [andb bind]; [|arith_raise].
  rewrite py_truediv_cases by exact Hr.
  destruct (f_converts (Cone.rings self)); [reflexivity | arith_raise].
Qed.

(** The height of ring [i]: its value, the domain error of math.sqrt on a
    negative radicand, or an exception of the arithmetic before the square
    root. *)
Lemma height_spec self (i : Z) :
  Cone.rings self <> 0 ->
  if height_runs self i
  then Cone.height self i =
       if f_ltb (radicand self i) (f_of_int 0)
       then Raise (ValueError "math domain error")
       else Ok (PyFloat (height_value self i))
  else exists e, Cone.height self i = Raise e /\ arithmetic_error e.
Proof.
  intros Hr. pose proof (radius_spec self i Hr) as Hrad.
  unfold Cone.height, height_runs. rewrite py_pow2_cases.
  destruct (match Cone.length self with
            | PyInt _ => true
            | PyFloat x => negb (pow2_overflows x)
            end); cbn [andb bind]; [|arith_raise].
  destruct (radius_runs self i); cbn [andb].
  2:{ destruct Hrad as (e & -> & He). exists e. now split. }
  rewrite Hrad. cbn [bind py_pow2].
  destruct (pow2_overflows (radius_value self i));
    cbn [negb andb bind]; [arith_raise|].
  rewrite float_op_cases. cbn [converts to_float]. rewrite andb_true_r.
  destruct (converts (num_pow2 (Cone.length self)));
    cbn [bind]; [|arith_raise].
  unfold math_sqrt.
  change (f_sub (to_float (num_pow2 (Cone.length self)))
                (math_pow2 (radius_value self i)))
    with (radicand self i).
  destruct (f_ltb (radicand self i) (f_of_int 0)); reflexivity.
Qed.

(** The angle of side [j]: its value, or OverflowError. *)
Lemma angle_spec self (j : Z) :
  Cone.sides self <> 0 ->
  if angle_runs self j
  then Cone.angle self j = Ok (PyFloat (angle_value self j))
  else exists e, Cone.angle self j = Raise e /\ arithmetic_error e.
Proof.
  intros Hs. unfold Cone.angle, angle_runs, angle_value.
  cbn [py_mul bind]. rewrite float_op_cases. cbn [converts to_float].
  rewrite andb_true_r.
  destruct (f_converts (j * 2)); cbn [andb bind]; [|arith_raise].
  rewrite py_truediv_cases by exact Hs.
  destruct (f_converts (Cone.sides self)); [reflexivity | arith_raise].
Qed.

Lemma radius_ok self (i : Z) :
  Cone.rings self <> 0 -> radius_runs self i = true ->
  Cone.radius self i = Ok (PyFloat (radius_value self i)).
Proof.
  intros Hr Hrun. pose proof (radius_spec self i Hr) as Hs.
  now rewrite Hrun in Hs.
Qed.

Lemma height_ok self (i : Z) :
  Cone.rings self <> 0 -> height_runs self i = true ->
  f_ltb (radicand self i) (f_of_int 0) = false ->
  Cone.height self i = Ok (PyFloat (height_value self i)).
Proof.
  intros Hr Hrun Hneg. pose proof (height_spec self i Hr) as Hs.
  now rewrite Hrun, Hneg in Hs.
Qed.

Lemma height_raises self (i : Z) :
  Cone.rings self <> 0 -> height_runs self i = true ->
  f_ltb (radicand self i) (f_of_int 0) = true ->
  Cone.height self i = Raise (ValueError "math domain error").
Proof.
  intros Hr Hrun Hneg. pose proof (height_spec self i Hr) as Hs.
  now rewrite Hrun, Hneg in Hs.
Qed.

Lemma height_runs_radius self (i : Z) :
  height_runs self i = true -> radius_runs self i = true.
Proof.
  unfold height_runs. intros Hrun.
  destruct (radius_runs self i); [reflexivity|].
  now rewrite andb_false_r in Hrun.
Qed.

(** The inner loop over the sides appends the points of one ring, or an
    angle raises. *)
Lemma ring_loop self (i : Z) (pts : list (Cone.polar F)) :
  1 <= Cone.sides self ->
  if forallb (angle_runs self) (range (Cone.sides self))
  then
    for_ (range (Cone.sides self))
         (fun j pts =>
            angle <- Cone.angle self j ;;
            if (i =? 0) && (0 <? j) then Ok pts
            else Ok (pts ++ [(i, PyFloat (radius_value self i), angle,
                              PyFloat (height_value self i))])) pts
    = Ok (pts ++ ring_points self i)
  else
    exists e,
      for_ (range (Cone.sides self))
           (fun j pts =>
              angle <- Cone.angle self j ;;
              if (i =? 0) && (0 <? j) then Ok pts
              else Ok (pts ++ [(i, PyFloat (radius_value self i), angle,
                                PyFloat (height_value self i))])) pts
      = Raise e /\ arithmetic_error e.
Proof.
  intros Hs.
  pose proof (for_outcome arithmetic_error (range (Cone.sides self))
    (fun j pts =>
       angle <- Cone.angle self j ;;
       if (i =? 0) && (0 <? j) then Ok pts
       else Ok (pts ++ [(i, PyFloat (radius_value self i), angle,
                         PyFloat (height_value self i))]))
    (fun j => if (i =? 0) && (0 <? j) then [] else [polar_at self i j])
    (angle_runs self)) as Hloop.
  assert (Hitems :
    flat_map (fun j => if (i =? 0) && (0 <? j) then []
                       else [polar_at self i j]) (range (Cone.sides self))
    = ring_points self i).
  { unfold ring_points. destruct (Z.eqb_spec i 0) as [-> | Hi].
    - rewrite range_cons by lia. simpl.
      rewrite flat_map_nil; [reflexivity|].
      intros j Hj. apply In_rings_from in Hj.
      destruct (Z.ltb_spec 0 j); [reflexivity | lia].
    - apply flat_map_single. reflexivity. }
  assert (Hbody : forall j s, In j (range (Cone.sides self)) ->
    if angle_runs self j
    then (angle <- Cone.angle self j ;;
          if (i =? 0) && (0 <? j) then Ok s
          else Ok (s ++ [(i, PyFloat (radius_value self i), angle,
                          PyFloat (height_value self i))]))
         = Ok (s ++ (if (i =? 0) && (0 <? j) then []
                     else [polar_at self i j]))
    else exists e,
         (angle <- Cone.angle self j ;;
          if (i =? 0) && (0 <? j) then Ok s
          else Ok (s ++ [(i, PyFloat (radius_value self i), angle,
                          PyFloat (height_value self i))]))
         = Raise e /\ arithmetic_error e).
  { intros j s _. pose proof (angle_spec self j ltac:(lia)) as Ha.
    destruct (angle_runs self j).
    - rewrite Ha. cbn [bind].
      destruct ((i =? 0) && (0 <? j)); [now rewrite app_nil_r | reflexivity].
    - destruct Ha as (e & -> & He). now exists e. }
  specialize (Hloop Hbody pts).
  destruct (forallb (angle_runs self) (range (Cone.sides self)));
    [|exact Hloop].
  rewrite Hloop. do 2 f_equal. exact Hitems.
Qed.

(** points_polar returns the points of rings 0..rings in order and then
    the point on the surface, or raises an exception of the arithmetic. *)
Lemma points_polar_spec self :
  1 <= Cone.sides self -> 1 <= Cone.rings self ->
  if forallb (ring_returns self) (range (Cone.rings self + 1))
  then Cone.points_polar self =
       Ok (flat_map (ring_points self) (range (Cone.rings self + 1))
           ++ [surface_point])
  else exists e, Cone.points_polar self = Raise e /\ arithmetic_error e.
Proof.
  intros Hs Hr. unfold Cone.points_polar.
  pose proof (for_outcome arithmetic_error (range (Cone.rings self + 1))
    (fun i pts =>
       radius <- Cone.radius self i ;;
       height <- Cone.height self i ;;
       for_ (range (Cone.sides self)) (fun j pts =>
         angle <- Cone.angle self j ;;
         if (i =? 0) && (0 <? j) then Ok pts
         else Ok (pts ++ [(i, radius, angle, height)])) pts)
    (ring_points self) (ring_returns self)) as Hloop.
  assert (Hbody : forall i s,
    In i (range (Cone.rings self + 1)) ->
    if ring_returns self i
    then (radius <- Cone.radius self i ;;
          height <- Cone.height self i ;;
          for_ (range (Cone.sides self)) (fun j pts =>
            angle <- Cone.angle self j ;;
            if (i =? 0) && (0 <? j) then Ok pts
            else Ok (pts ++ [(i, radius, angle, height)])) s)
         = Ok (s ++ ring_points self i)
    else exists e,
         (radius <- Cone.radius self i ;;
          height <- Cone.height self i ;;
          for_ (range (Cone.sides self)) (fun j pts =>
            angle <- Cone.angle self j ;;
            if (i =? 0) && (0 <? j) then Ok pts
            else Ok (pts ++ [(i, radius, angle, height)])) s)
         = Raise e /\ arithmetic_error e).
  { intros i s _. unfold ring_returns.
    pose proof (radius_spec self i ltac:(lia)) as Hrad.
    pose proof (height_spec self i ltac:(lia)) as Hhei.
    pose proof (ring_loop self i s Hs) as Hring.
    destruct (height_runs self i) eqn:Hrun; cbn [andb].
    - rewrite (height_runs_radius self i Hrun) in Hrad.
      rewrite Hrad, Hhei. cbn [bind].
      destruct (f_ltb (radicand self i) (f_of_int 0));
        cbn [negb andb bind]; [arith_raise|].
      destruct (forallb (angle_runs self) (range (Cone.sides self)));
        exact Hring.
    - destruct (radius_runs self i).
      + rewrite Hrad. cbn [bind].
        destruct Hhei as (e & -> & He). now exists e.
      + destruct Hrad as (e & -> & He). now exists e. }
  specialize (Hloop Hbody []).
  destruct (forallb (ring_returns self) (range (Cone.rings self + 1))).
  - rewrite Hloop. reflexivity.
  - destruct Hloop as (e & -> & He). now exists e.
Qed.

(** Every ring returns exactly when nothing overflows and math.sqrt
    accepts every radicand. *)
Lemma rings_return_iff self :
  1 <= Cone.rings self ->
  forallb (ring_returns self) (range (Cone.rings self + 1)) = true <->
  polar_runs self /\ heights_defined self.
Proof.
  intros Hr. rewrite forallb_forall. unfold ring_returns. split.
  - intros Hall. split; [split|].
    + intros i Hi. specialize (Hall i ltac:(apply In_range; lia)).
      now apply andb_prop in Hall as [Hall _]; apply andb_prop in Hall.
    + intros j Hj. specialize (Hall 0 ltac:(apply In_range; lia)).
      apply andb_prop in Hall as [_ Hall].
      rewrite forallb_forall in Hall. apply Hall, In_range. exact Hj.
    + intros i Hi. specialize (Hall i ltac:(apply In_range; lia)).
      apply andb_prop in Hall as [Hall _]. apply andb_prop in Hall as [_ Hall].
      now destruct (f_ltb (radicand self i) (f_of_int 0)).
  - intros [[Hrun Hang] Hh] i Hi. apply In_range in Hi.
    rewrite (Hrun i) by lia. rewrite (Hh i) by lia. cbn [negb andb].
    apply forallb_forall. intros j Hj. apply In_range in Hj. now apply Hang.
Qed.

(** Where nothing overflows and [math.sqrt] accepts every radicand,
    [points_polar] returns the points of rings 0..rings in order and then
    the point on the surface. *)
Lemma points_polar_ok self :
  1 <= Cone.sides self -> 1 <= Cone.rings self ->
  polar_runs self -> heights_defined self ->
  Cone.points_polar self =
  Ok (flat_map (ring_points self) (range (Cone.rings self + 1))
      ++ [surface_point]).
Proof.
  intros Hs Hr Hrun Hh. pose proof (points_polar_spec self Hs Hr) as Hp.
  now rewrite (proj2 (rings_return_iff self Hr) (conj Hrun Hh)) in Hp.
Qed.

(** What [points_polar] returns, when it returns. *)
Lemma points_polar_returned self :
  1 <= Cone.sides self -> 1 <= Cone.rings self ->
  returns (Cone.points_polar self) ->
  polar_runs self /\ heights_defined self /\
  Cone.points_polar self =
  Ok (flat_map (ring_points self) (range (Cone.rings self + 1))
      ++ [surface_point]).
Proof.
  intros Hs Hr [pts Hpts]. pose proof (points_polar_spec self Hs Hr) as Hp.
  destruct (forallb (ring_returns self) (range (Cone.rings self + 1)))
    eqn:Hall.
  - apply (rings_return_iff self Hr) in Hall. tauto.
  - destruct Hp as (e & He & _). congruence.
Qed.

Lemma points_polar_raised self (e : exn) :
  1 <= Cone.sides self -> 1 <= Cone.rings self ->
  Cone.points_polar self = Raise e -> arithmetic_error e.
Proof.
  intros Hs Hr He. pose proof (points_polar_spec self Hs Hr) as Hp.
  destruct (forallb (ring_returns self) (range (Cone.rings self + 1))).
  - congruence.
  - destruct Hp as (e' & He' & Ha). congruence.
Qed.

(** Where nothing overflows, points_polar either returns its list or
    raises the domain error of math.sqrt, at the first ring whose radicand
    is negative. *)
Lemma points_polar_cases self :
  1 <= Cone.sides self -> 1 <= Cone.rings self -> polar_runs self ->
  Cone.points_polar self =
  if forallb (fun i => negb (f_ltb (radicand self i) (f_of_int 0)))
             (range (Cone.rings self + 1))
  then Ok (flat_map (ring_points self) (range (Cone.rings self + 1))
           ++ [surface_point])
  else Raise (ValueError "math domain error").
Proof.
  intros Hs Hr [Hrun Hang]. unfold Cone.points_polar.
  assert (Hangles :
    forallb (angle_runs self) (range (Cone.sides self)) = true).
  { apply forallb_forall. intros j Hj. apply In_range in Hj.
    now apply Hang. }
  rewrite (for_appends_or_raises _ _ (ring_points self)
             (fun i => negb (f_ltb (radicand self i) (f_of_int 0)))
             (ValueError "math domain error")).
  - destruct (forallb (fun i => negb (f_ltb (radicand self i) (f_of_int 0)))
                      (range (Cone.rings self + 1))); reflexivity.
  - intros i pts Hi. apply In_range in Hi.
    pose proof (Hrun i ltac:(lia)) as Hruni.
    rewrite radius_ok by (try apply height_runs_radius; trivial; lia).
    cbn [bind].
    destruct (f_ltb (radicand self i) (f_of_int 0)) eqn:Hneg; cbn [negb].
    + rewrite height_raises by (trivial; lia). reflexivity.
    + rewrite height_ok by (trivial; lia). cbn [bind].
      pose proof (ring_loop self i pts Hs) as Hloop.
      now rewrite Hangles in Hloop.
Qed.

Lemma length_ring_points self (i : Z) :
  List.length (ring_points self i) =
  if i =? 0 then 1%nat else Z.to_nat (Cone.sides self).
Proof.
  unfold ring_points. destruct (i =? 0); [reflexivity|].
  now rewrite length_map, length_range.
Qed.

End PolarFacts.

(** ** points_cartesian and indices *)

Lemma number_from_app (k : Z) (a b : list Z) :
  number_from k (a ++ b) =
  number_from k a ++ number_from (k + Z.of_nat (List.length a)) b.
Proof.
  revert k. induction a as [|r a IH]; intros k; simpl.
  - now rewrite Z.add_0_r.
  - rewrite IH. do 3 f_equal. lia.
Qed.

Lemma number_from_const (i k : Z) (a m : nat) :
  number_from (k + Z.of_nat a) (map (fun _ => i) (seq a m)) =
  map (fun j => Cone.mk_indexed i (k + Z.of_nat j)) (seq a m).
Proof.
  revert a. induction m as [|m IH]; intros a; simpl; [reflexivity|].
  f_equal. rewrite <- IH. f_equal. lia.
Qed.

Section IndexFacts.
Context {F : Type} `{FloatOps F} `{!Libm F}.
Implicit Types (self : Cone.t F).

Lemma number_block self (i k : Z) :
  i <> 0 ->
  number_from k (map tag (ring_points self i)) =
  map (fun j => Cone.mk_indexed i (k + j)) (range (Cone.sides self)).
Proof.
  intros Hi. unfold ring_points.
  destruct (Z.eqb_spec i 0) as [E|_]; [contradiction|].
  unfold range. rewrite !map_map. cbn [tag polar_at].
  replace k with (k + Z.of_nat 0) at 1 by lia.
  apply number_from_const.
Qed.

Lemma number_blocks self (a m : nat) (k : Z) :
  (0 < a)%nat -> 0 <= Cone.sides self ->
  number_from k (map tag (flat_map (ring_points self) (rings_from a m))) =
  flat_map (fun i => map (fun j => Cone.mk_indexed i
                        (k + (i - Z.of_nat a) * Cone.sides self + j))
                      (range (Cone.sides self)))
           (rings_from a m).
Proof.
  intros Ha Hs. revert a k Ha.
  induction m as [|m IH]; intros a k Ha; [reflexivity|].
  unfold rings_from in *. cbn [seq map flat_map].
  rewrite map_app, number_from_app, number_block by lia.
  f_equal.
  - apply map_ext. intros j. f_equal. lia.
  - rewrite length_map, length_ring_points.
    destruct (Z.eqb_spec (Z.of_nat a) 0) as [E|_]; [lia|].
    rewrite IH by lia.
    apply flat_map_ext. intros i. apply map_ext. intros j. f_equal. lia.
Qed.

(** One step of the element of the comprehension of points_cartesian. *)
Ltac cartesian_step :=
  match goal with
  | |- context [bind (as_float ?a) _] => rewrite (as_float_cases a)
  | |- context [bind (float_op ?op ?a ?b) _] =>
      rewrite (float_op_cases op a b)
  | |- context [bind (py_add ?a ?b) _] => rewrite (py_add_cases a b)
  | |- context [bind (math_1 ?f ?x) _] => unfold math_1 at 1
  | |- context [bind (if ?c then _ else _) _] => destruct c eqn:?
  end; cbn [bind].

(** The Cartesian point made from a polar point, where it is made. *)
Lemma cartesian_of_value self (p : Cone.polar F) (q : Cone.cartesian F) :
  Cone.cartesian_of self p = Ok q -> q = cartesian_value self p.
Proof.
  destruct p as [[[p0 p1] p2] p3].
  unfold Cone.cartesian_of, py_cos, py_sin, cartesian_value.
  repeat (cartesian_step; try (intros; discriminate)).
  now intros [= <-].
Qed.

Lemma cartesian_of_raised self (p : Cone.polar F) (e : exn) :
  Cone.cartesian_of self p = Raise e -> arithmetic_error e.
Proof.
  destruct p as [[[p0 p1] p2] p3].
  unfold Cone.cartesian_of, py_cos, py_sin.
  repeat (cartesian_step;
          try (intros [= <-];
               first [left; reflexivity | right; reflexivity])).
Qed.

Lemma tag_cartesian_value self (p : Cone.polar F) :
  tag (cartesian_value self p) = tag p.
Proof. now destruct p as [[[p0 p1] p2] p3]. Qed.

(** What [points_cartesian] returns, when it returns. *)
Lemma points_cartesian_returned self (cart : list (Cone.cartesian F)) :
  Cone.points_cartesian self = Ok cart ->
  exists pts, Cone.points_polar self = Ok pts /\
              cart = map (cartesian_value self) pts.
Proof.
  unfold Cone.points_cartesian.
  destruct (Cone.points_polar self) as [pts|e]; [|discriminate].
  cbn [bind]. intros Hc. exists pts. split; [reflexivity|].
  apply (comprehension_Ok _ _ _ _ (cartesian_of_value self) Hc).
Qed.

Lemma points_cartesian_tags self (cart : list (Cone.cartesian F)) :
  Cone.points_cartesian self = Ok cart ->
  exists pts, Cone.points_polar self = Ok pts /\
              map tag cart = map tag pts.
Proof.
  intros Hc. destruct (points_cartesian_returned self cart Hc)
    as (pts & Hp & ->).
  exists pts. split; [exact Hp|].
  rewrite map_map. apply map_ext. apply tag_cartesian_value.
Qed.

Lemma points_cartesian_raised self (e : exn) :
  1 <= Cone.sides self -> 1 <= Cone.rings self ->
  Cone.points_cartesian self = Raise e -> arithmetic_error e.
Proof.
  intros Hs Hr. unfold Cone.points_cartesian.
  destruct (Cone.points_polar self) as [pts|e'] eqn:Hp; cbn [bind].
  - apply comprehension_Raise. apply cartesian_of_raised.
  - intros [= <-]. now apply (points_polar_raised self e').
Qed.

(** The tags of the Cartesian points, when points_cartesian returns. *)
Lemma cartesian_closed_tags self (cart : list (Cone.cartesian F)) :
  1 <= Cone.sides self -> 1 <= Cone.rings self ->
  Cone.points_cartesian self = Ok cart ->
  map tag cart =
  map tag (flat_map (ring_points self) (range (Cone.rings self + 1))
           ++ [surface_point]).
Proof.
  intros Hs Hr Hc.
  destruct (points_cartesian_tags self cart Hc) as (pts & Hp & Ht).
  destruct (points_polar_returned self Hs Hr (ex_intro _ pts Hp))
    as (_ & _ & Hp').
  rewrite Hp in Hp'. injection Hp' as ->. exact Ht.
Qed.

Lemma indices_number self (cart : list (Cone.cartesian F)) :
  Cone.points_cartesian self = Ok cart ->
  Cone.indices self = Ok (number_from 1 (map tag cart)).
Proof.
  intros Hc. unfold Cone.indices. rewrite Hc. cbn [bind]. f_equal.
  unfold enumerate. change 1 with (0 + 1) at 2. generalize 0 as k.
  clear Hc.
  induction cart as [|[[[p0 p1] p2] p3] cart IH]; intros k; simpl;
    [reflexivity|].
  f_equal. apply IH.
Qed.

(** Numbering the ring tags of the points gives the enumerated points. *)
Lemma number_closed self :
  1 <= Cone.sides self -> 1 <= Cone.rings self ->
  number_from 1
    (map tag (flat_map (ring_points self) (range (Cone.rings self + 1))
              ++ [surface_point]))
  = indices_closed self.
Proof.
  intros Hs Hr.
  rewrite range_cons by lia.
  replace (Z.to_nat (Cone.rings self + 1) - 1)%nat
    with (Z.to_nat (Cone.rings self)) by lia.
  cbn [flat_map]. unfold indices_closed.
  change (ring_points self 0) with [polar_at self 0 0].
  cbn [app map tag polar_at number_from]. f_equal.
  rewrite map_app, number_from_app, number_blocks by lia.
  apply (f_equal2 (@app _)).
  - apply flat_map_ext. intros i. unfold ring_block. apply map_ext.
    intros j. unfold vertex. f_equal.
  - rewrite length_map.
    rewrite (length_flat_map_uniform _ (Z.to_nat (Cone.sides self))).
    + rewrite length_rings_from. cbn [map tag surface_point number_from].
      unfold apex. do 2 f_equal. lia.
    + intros i Hi. apply In_rings_from in Hi. rewrite length_ring_points.
      destruct (Z.eqb_spec i 0); [lia | reflexivity].
Qed.

(** The enumerated points of a descriptor whose points_cartesian
    returns. *)
Lemma indices_ok self :
  1 <= Cone.sides self -> 1 <= Cone.rings self ->
  returns (Cone.points_cartesian self) ->
  Cone.indices self = Ok (indices_closed self).
Proof.
  intros Hs Hr [cart Hc].
  pose proof (cartesian_closed_tags self cart Hs Hr Hc) as Ht.
  rewrite (indices_number self cart Hc), Ht. f_equal.
  now apply number_closed.
Qed.

(** faces returns only where points_cartesian does. *)
Lemma faces_returned self (fs : list Cone.face) :
  Cone.faces self = Ok fs -> returns (Cone.points_cartesian self).
Proof.
  unfold Cone.faces, Cone.indices.
  destruct (Cone.points_cartesian self) as [cart|e]; [|discriminate].
  intros _. now exists cart.
Qed.
End IndexFacts.

(** ** The rings inside the enumerated points *)

Lemma filter_map_const {A B : Type} (p : B -> bool) (g : A -> B) (b : bool)
      (l : list A) :
  (forall x, p (g x) = b) ->
  filter p (map g l) = if b then map g l else [].
Proof.
  intros Hp. induction l as [|a l IH]; simpl.
  - now destruct b.
  - rewrite Hp, IH. now destruct b.
Qed.

Section RingFacts.
Context {F : Type} `{FloatOps F}.
Implicit Types (self : Cone.t F).

Lemma filter_ring_block self (i i' : Z) :
  filter (fun pt => Cone.ring pt =? i) (ring_block self i') =
  if i' =? i then ring_block self i' else [].
Proof. unfold ring_block. now apply filter_map_const. Qed.

Lemma filter_blocks self (i : Z) (a m : nat) :
  filter (fun pt => Cone.ring pt =? i)
         (flat_map (ring_block self) (rings_from a m)) =
  if (Z.of_nat a <=? i) && (i <? Z.of_nat a + Z.of_nat m)
  then ring_block self i else [].
Proof.
  revert a. induction m as [|m IH]; intros a.
  - cbn [rings_from seq map flat_map filter]. Z_cases; reflexivity || lia.
  - unfold rings_from in *. cbn [seq map flat_map].
    rewrite filter_app, filter_ring_block, IH.
    destruct (Z.eqb_spec (Z.of_nat a) i) as [E | Hne].
    + rewrite E. Z_cases; try lia. apply app_nil_r.
    + Z_cases; reflexivity || lia.
Qed.

Lemma map_idx_ring_block self (i : Z) :
  map Cone.idx (ring_block self i) = ring_vertices self i.
Proof. unfold ring_block, ring_vertices. now rewrite map_map. Qed.

(** Ring 0 of the enumerated points is the tip alone, with index 1. *)
Lemma filter_tip self :
  filter (fun pt => Cone.ring pt =? 0) (indices_closed self) =
  [Cone.mk_indexed 0 1].
Proof.
  unfold indices_closed. cbn [filter Cone.ring]. change (0 =? 0) with true.
  cbv iota. f_equal. rewrite filter_app, filter_blocks.
  change (Z.of_nat 1 <=? 0) with false. reflexivity.
Qed.

(** Ring [i] of the enumerated points, for 1 <= i <= rings. *)
Lemma filter_ring self (i : Z) :
  1 <= i <= Cone.rings self ->
  filter (fun pt => Cone.ring pt =? i) (indices_closed self) =
  ring_block self i.
Proof.
  intros Hi. unfold indices_closed. cbn [filter Cone.ring].
  destruct (Z.eqb_spec 0 i) as [E|_]; [lia|].
  rewrite filter_app, filter_blocks.
  destruct (Z.leb_spec (Z.of_nat 1) i); [|lia].
  destruct (Z.ltb_spec i (Z.of_nat 1 + Z.of_nat (Z.to_nat (Cone.rings self))));
    [|lia].
  cbn [andb filter Cone.ring].
  destruct (Z.eqb_spec (-1) i) as [E|_]; [lia|]. apply app_nil_r.
Qed.

Lemma length_ring_vertices self (i : Z) :
  List.length (ring_vertices self i) = Z.to_nat (Cone.sides self).
Proof. unfold ring_vertices. now rewrite length_map, length_range. Qed.

Lemma In_ring_vertices self (i v : Z) :
  In v (ring_vertices self i) <->
  exists k, 0 <= k < Cone.sides self /\ v = vertex self i k.
Proof.
  unfold ring_vertices. rewrite in_map_iff. split.
  - intros [k [<- Hk]]. apply In_range in Hk. now exists k.
  - intros [k [Hk ->]]. exists k. split; [reflexivity | now apply In_range].
Qed.

Lemma ring_vertices_nonempty self (i : Z) :
  1 <= Cone.sides self -> ring_vertices self i <> [].
Proof.
  intros Hs E. apply (f_equal (@List.length Z)) in E.
  rewrite length_ring_vertices in E. simpl in E. lia.
Qed.
End RingFacts.

(** ** faces *)

Lemma length_fan (c : Z) (B : list Z) :
  List.length (fan c B) = List.length B.
Proof.
  unfold fan. rewrite length_map, length_zip, length_rotl. lia.
Qed.

Lemma length_quads (A B : list Z) :
  List.length A = List.length B ->
  List.length (quads A B) = (2 * List.length A)%nat.
Proof.
  intros E. unfold quads.
  rewrite length_app, !length_zip3, !length_rotl. lia.
Qed.

Section FaceFacts.
Context {F : Type} `{FloatOps F} `{!Libm F}.
Implicit Types (self : Cone.t F).

Lemma length_tip_fan self :
  List.length (tip_fan self) = Z.to_nat (Cone.sides self).
Proof. unfold tip_fan. now rewrite length_fan, length_ring_vertices. Qed.

Lemma length_apex_fan self :
  List.length (apex_fan self) = Z.to_nat (Cone.sides self).
Proof. unfold apex_fan. now rewrite length_fan, length_ring_vertices. Qed.

Lemma length_body_faces self (i : Z) :
  List.length (body_faces self i) = (2 * Z.to_nat (Cone.sides self))%nat.
Proof.
  unfold body_faces. rewrite length_quads; rewrite !length_ring_vertices;
    reflexivity.
Qed.

(** One iteration of the loop of [faces] over the enumerated points. *)
Lemma faces_step self (i : Z) (acc : list Cone.face) :
  1 <= Cone.sides self -> 0 <= i < Cone.rings self ->
  (let pts_idx := indices_closed self in
   let ring_current := filter (fun pt => Cone.ring pt =? i) pts_idx in
   let ring_next := filter (fun pt => Cone.ring pt =? i + 1) pts_idx in
   if i =? 0 then
     pt <- item ring_current 0 ;;
     let idx1 := Cone.idx pt in
     let idx2 := map Cone.idx ring_next in
     idx3 <- Cone._shift idx2 1 ;;
     Ok (acc ++ map (fun '(i2, i3) => (idx1, i2, i3)) (zip idx2 idx3))
   else if 0 <? i then
     let idx1 := map Cone.idx ring_current in
     idx2 <- Cone._shift idx1 1 ;;
     let idx3 := map Cone.idx ring_next in
     idx4 <- Cone._shift idx3 1 ;;
     let faces :=
       acc ++ map (fun '(i1, i2, i3) => (i1, i2, i3))
                  (zip3 idx1 idx2 idx3) in
     let faces :=
       faces ++ map (fun '(i2, i3, i4) => (i2, i3, i4))
                    (zip3 idx2 idx3 idx4) in
     if i =? Cone.rings self - 1 then
       pt <- item pts_idx (-1) ;;
       let idx1 := Cone.idx pt in
       Ok (faces ++ map (fun '(i3, i4) => (idx1, i3, i4)) (zip idx3 idx4))
     else Ok faces
   else Ok acc)
  = Ok (acc ++ face_group self i).
Proof.
  intros Hs Hi. cbv zeta. unfold face_group.
  destruct (Z.eqb_spec i 0) as [-> | Hne].
  - rewrite filter_tip, item_first. cbn [bind Cone.idx].
    rewrite (filter_ring self (0 + 1)) by lia.
    rewrite map_idx_ring_block.
    rewrite shift_one by now apply ring_vertices_nonempty.
    reflexivity.
  - destruct (Z.ltb_spec 0 i); [|lia].
    rewrite !filter_ring by lia. rewrite !map_idx_ring_block.
    rewrite !shift_one by now apply ring_vertices_nonempty.
    cbn [bind]. rewrite !map_triple_id.
    destruct (Z.eqb_spec i (Cone.rings self - 1)) as [E|_].
    + unfold indices_closed. rewrite app_comm_cons, item_last.
      cbn [bind Cone.idx]. rewrite <- !app_assoc.
      unfold body_faces, quads, apex_fan, fan.
      replace (Cone.rings self) with (i + 1) by lia.
      now rewrite <- app_assoc.
    + rewrite app_nil_r, <- app_assoc. reflexivity.
Qed.

(** Where points_cartesian returns, [faces] returns the groups of the
    ring transitions 0..rings-1 in order. *)
Lemma faces_ok self :
  1 <= Cone.sides self -> 1 <= Cone.rings self ->
  returns (Cone.points_cartesian self) ->
  Cone.faces self =
  Ok (flat_map (face_group self) (range (Cone.rings self))).
Proof.
  intros Hs Hr Hh. unfold Cone.faces.
  rewrite (indices_ok self Hs Hr Hh). cbn [bind].
  rewrite (for_appends _ _ (face_group self)); [reflexivity|].
  intros i acc Hi. apply In_range in Hi.
  now apply (faces_step self i acc).
Qed.

(** With one ring the face list is the tip fan alone. *)
Lemma faces_one_ring self :
  1 <= Cone.sides self -> Cone.rings self = 1 ->
  returns (Cone.points_cartesian self) ->
  Cone.faces self = Ok (tip_fan self).
Proof.
  intros Hs Hr Hh. rewrite faces_ok by (trivial; lia).
  rewrite Hr. change (range 1) with [0]. cbn [flat_map].
  unfold face_group. change (0 =? 0) with true. cbv iota.
  now rewrite app_nil_r.
Qed.

Lemma flat_map_body self (a m : nat) :
  Z.of_nat (a + m) < Cone.rings self -> (0 < a)%nat ->
  flat_map (face_group self) (rings_from a m) =
  flat_map (body_faces self) (rings_from a m).
Proof.
  intros Hm Ha. apply flat_map_agree. intros i Hi.
  apply In_rings_from in Hi. unfold face_group. Z_cases; try lia.
  apply app_nil_r.
Qed.

(** With two rings or more: the tip fan, the quadrilaterals of the
    transitions 1..rings-1, and the fan of the point on the surface. *)
Lemma faces_more_rings self :
  1 <= Cone.sides self -> 2 <= Cone.rings self ->
  returns (Cone.points_cartesian self) ->
  Cone.faces self =
  Ok (tip_fan self
      ++ flat_map (body_faces self)
                  (rings_from 1 (Z.to_nat (Cone.rings self) - 1))
      ++ apex_fan self).
Proof.
  intros Hs Hr Hh. rewrite faces_ok by (trivial; lia).
  rewrite range_cons by lia. cbn [flat_map]. f_equal.
  unfold face_group at 1. change (0 =? 0) with true. cbv iota. f_equal.
  destruct (Z.to_nat (Cone.rings self) - 1)%nat as [|m] eqn:E; [lia|].
  rewrite rings_from_snoc, !flat_map_app. cbn [flat_map].
  rewrite flat_map_body by lia. rewrite !app_nil_r, <- app_assoc.
  f_equal. unfold face_group. Z_cases; try lia. reflexivity.
Qed.
End FaceFacts.

(** ** Exact real arithmetic *)

Lemma Rltb_true (a b : R) : Rltb a b = true <-> (a < b)%R.
Proof. unfold Rltb. destruct (Rlt_dec a b); split; congruence || tauto. Qed.

Lemma Rltb_false (a b : R) : Rltb a b = false <-> (b <= a)%R.
Proof.
  unfold Rltb. destruct (Rlt_dec a b); split; try congruence; try lra.
Qed.

Lemma exact_to_float_mul (i : Z) (a : number R) :
  to_float (num_mul (PyInt i) a) = (IZR i * to_float a)%R.
Proof. destruct a as [n|x]; simpl; [apply mult_IZR | reflexivity]. Qed.

Lemma exact_to_float_pow2 (a : number R) :
  to_float (num_pow2 a) = (to_float a * to_float a)%R.
Proof. destruct a as [n|x]; simpl; [apply mult_IZR | reflexivity]. Qed.

Lemma exact_num_gt (a : number R) (k : Z) :
  num_gt a k = true <-> (IZR k < to_float a)%R.
Proof.
  destruct a as [n|x]; simpl.
  - rewrite Z.ltb_lt. split; [apply IZR_lt | apply lt_IZR].
  - apply Rltb_true.
Qed.

Lemma exact_num_lt (a : number R) (k : Z) :
  num_lt a k = true <-> (to_float a < IZR k)%R.
Proof.
  destruct a as [n|x]; simpl.
  - rewrite Z.ltb_lt. split; [apply IZR_lt | apply lt_IZR].
  - apply Rltb_true.
Qed.

(** A valid descriptor has a positive length and a dip strictly between 0
    and pi/2. *)
Lemma exact_valid_bounds (self : Cone.t R) :
  valid self ->
  (0 < to_float (Cone.length self))%R /\
  (0 < Cone.dip self < PI / 2)%R.
Proof.
  intros (_ & _ & Hl & deg & Hd0 & Hd90 & Hdip).
  apply exact_num_gt in Hl. apply exact_num_gt in Hd0.
  apply exact_num_lt in Hd90. split; [exact Hl|].
  rewrite Hdip. unfold math_radians. simpl.
  pose proof PI_RGT_0 as Hpi.
  set (d := to_float deg) in *.
  split.
  - apply Rmult_lt_0_compat; [exact Hd0 | lra].
  - replace (PI / 2)%R with (90 * (PI / 180))%R by lra.
    apply Rmult_lt_compat_r; lra.
Qed.

(** In exact arithmetic the radicand of ring [i] is at least
    length^2 * sin(dip)^2, which is positive. *)
Lemma exact_radicand_bound (self : Cone.t R) (i : Z) :
  valid self -> 0 <= i <= Cone.rings self ->
  let l := to_float (Cone.length self) in
  (0 < l * l * (sin (Cone.dip self) * sin (Cone.dip self))
     <= radicand self i)%R.
Proof.
  intros Hv Hi l. destruct (exact_valid_bounds self Hv) as [Hl [Hd0 Hd1]].
  fold l in Hl.
  assert (Hr : 1 <= Cone.rings self) by (destruct Hv as (_ & Hr & _); exact Hr).
  unfold radicand, radius_value.
  rewrite exact_to_float_mul, exact_to_float_pow2. simpl. fold l.
  set (c := cos (Cone.dip self)). set (s := sin (Cone.dip self)).
  assert (Hs : (0 < s)%R) by (apply sin_gt_0; lra).
  assert (Hcs : (s * s + c * c = 1)%R) by apply sin2_cos2.
  assert (Hn : (1 <= IZR (Cone.rings self))%R) by (apply IZR_le in Hr; exact Hr).
  assert (Hi0 : (0 <= IZR i)%R) by (apply (IZR_le 0); lia).
  assert (Hin : (IZR i <= IZR (Cone.rings self))%R) by (apply IZR_le; lia).
  set (n := IZR (Cone.rings self)) in *. set (k := IZR i) in *.
  assert (Ht : (0 <= k / n <= 1)%R).
  { split.
    - apply Rmult_le_pos; [exact Hi0 | left; apply Rinv_0_lt_compat; lra].
    - apply (Rmult_le_reg_r n); [lra|]. unfold Rdiv.
      rewrite Rmult_assoc, Rinv_l by lra. lra. }
  set (t := (k / n)%R) in *.
  replace (k * l * c / n)%R with (t * (l * c))%R by (unfold t; field; lra).
  split.
  - apply Rmult_lt_0_compat; apply Rmult_lt_0_compat; assumption.
  - assert (Hlc : (0 <= (l * c) * (l * c))%R) by nra.
    assert (Ht2 : (t * t <= 1)%R) by nra.
    replace (l * l * (s * s))%R with (l * l - (l * c) * (l * c))%R
      by (replace (s * s)%R with (1 - c * c)%R by lra; ring).
    nra.
Qed.

(** In exact arithmetic [math.sqrt] accepts every radicand of a valid
    descriptor. *)
Lemma exact_heights_defined (self : Cone.t R) :
  valid self -> heights_defined self.
Proof.
  intros Hv i Hi. simpl. apply Rltb_false.
  pose proof (exact_radicand_bound self i Hv Hi) as Hb. simpl in Hb. lra.
Qed.

(** In exact arithmetic nothing overflows and math.cos and math.sin accept
    every argument. *)
Lemma exact_height_runs (self : Cone.t R) (i : Z) :
  height_runs self i = true.
Proof.
  unfold height_runs, radius_runs. destruct (Cone.length self); reflexivity.
Qed.

Lemma exact_polar_runs (self : Cone.t R) : polar_runs self.
Proof.
  split.
  - intros i _. apply exact_height_runs.
  - intros j _. reflexivity.
Qed.

Lemma exact_radius_ok (self : Cone.t R) (i : Z) :
  Cone.rings self <> 0 ->
  Cone.radius self i = Ok (PyFloat (radius_value self i)).
Proof.
  intros Hr. apply radius_ok; [exact Hr|].
  apply height_runs_radius, exact_height_runs.
Qed.

Lemma exact_height_ok (self : Cone.t R) (i : Z) :
  valid self -> 0 <= i <= Cone.rings self ->
  Cone.height self i = Ok (PyFloat (height_value self i)).
Proof.
  intros Hv Hi. pose proof Hv as (_ & Hr & _).
  apply height_ok; [lia | apply exact_height_runs |].
  now apply exact_heights_defined.
Qed.

Lemma exact_points_polar (self : Cone.t R) :
  valid self ->
  Cone.points_polar self =
  Ok (flat_map (ring_points self) (range (Cone.rings self + 1))
      ++ [surface_point]).
Proof.
  intros Hv. pose proof Hv as (Hs & Hr & _).
  apply points_polar_ok; [lia | exact Hr | apply exact_polar_runs |].
  now apply exact_heights_defined.
Qed.

Lemma exact_cartesian_of (self : Cone.t R) (p : Cone.polar R) :
  Cone.cartesian_of self p = Ok (cartesian_value self p).
Proof.
  destruct p as [[[p0 p1] p2] p3].
  unfold Cone.cartesian_of, cartesian_value, py_cos, py_sin, float_op,
    math_1.
  destruct p1, p2, p3, (Point.x (Cone.point self)),
    (Point.y (Cone.point self)), (Point.z (Cone.point self)); reflexivity.
Qed.

Lemma exact_points_cartesian (self : Cone.t R) :
  valid self ->
  Cone.points_cartesian self =
  Ok (map (cartesian_value self)
          (flat_map (ring_points self) (range (Cone.rings self + 1))
           ++ [surface_point])).
Proof.
  intros Hv. unfold Cone.points_cartesian.
  rewrite (exact_points_polar self Hv). cbn [bind].
  apply comprehension_map. intros p _. apply exact_cartesian_of.
Qed.

(** In exact arithmetic the derivations of a valid descriptor return. *)
Lemma exact_returns (self : Cone.t R) :
  valid self -> returns (Cone.points_cartesian self).
Proof. intros Hv. eexists. now apply exact_points_cartesian. Qed.

(** ** The example descriptors *)

Lemma exact_cone_valid (sides rings : Z) :
  3 <= sides -> 1 <= rings -> valid (exact_cone sides rings).
Proof.
  intros Hs Hr. repeat split; try assumption.
  exists (PyInt 60). repeat split.
Qed.

Lemma exact_cone_heights (sides rings : Z) :
  3 <= sides -> 1 <= rings -> heights_defined (exact_cone sides rings).
Proof. intros Hs Hr. now apply exact_heights_defined, exact_cone_valid. Qed.

Lemma exact_cone_returns (sides rings : Z) :
  3 <= sides -> 1 <= rings ->
  returns (Cone.points_cartesian (exact_cone sides rings)).
Proof. intros Hs Hr. now apply exact_returns, exact_cone_valid. Qed.

Lemma exact_cone_faces (sides rings : Z) :
  3 <= sides -> 1 <= rings ->
  Cone.faces (exact_cone sides rings) =
  Ok (flat_map (face_group (exact_cone sides rings)) (range rings)).
Proof.
  intros Hs Hr.
  apply (faces_ok (exact_cone sides rings)); [simpl; lia | exact Hr |].
  now apply exact_cone_returns.
Qed.

(** ** The number of points (C4) *)

Lemma map_ring_number_from (k : Z) (tags : list Z) :
  map Cone.ring (number_from k tags) = tags.
Proof.
  revert k. induction tags as [|r tags IH]; intros k; simpl;
    [reflexivity | now rewrite IH].
Qed.

Lemma length_filter_map {A B : Type} (p : B -> bool) (f : A -> B)
      (l : list A) :
  List.length (filter (fun x => p (f x)) l) =
  List.length (filter p (map f l)).
Proof.
  induction l as [|a l IH]; simpl; [reflexivity|].
  destruct (p (f a)); simpl; now rewrite IH.
Qed.

Section CountFacts.
Context {F : Type} `{FloatOps F} `{!Libm F}.
Implicit Types (self : Cone.t F).

Lemma length_indices_closed self :
  0 <= Cone.sides self -> 0 <= Cone.rings self ->
  Z.of_nat (List.length (indices_closed self)) =
  Cone.rings self * Cone.sides self + 2.
Proof.
  intros Hs Hr. unfold indices_closed. cbn [List.length].
  rewrite length_app.
  rewrite (length_flat_map_uniform _ (Z.to_nat (Cone.sides self))).
  - rewrite length_rings_from. cbn [List.length]. nia.
  - intros i _. unfold ring_block. now rewrite length_map, length_range.
Qed.

Lemma filter_surface self :
  0 <= Cone.rings self ->
  filter (fun pt => Cone.ring pt =? -1) (indices_closed self) =
  [Cone.mk_indexed (-1) (apex self)].
Proof.
  intros Hr. unfold indices_closed. cbn [filter Cone.ring].
  change (0 =? -1) with false. cbv iota.
  rewrite filter_app, filter_blocks.
  destruct (Z.leb_spec (Z.of_nat 1) (-1)); [lia|]. reflexivity.
Qed.

(** The ring tags of the points are those of the enumerated points. *)
Lemma closed_tags self :
  1 <= Cone.sides self -> 1 <= Cone.rings self ->
  map tag (flat_map (ring_points self) (range (Cone.rings self + 1))
           ++ [surface_point])
  = map Cone.ring (indices_closed self).
Proof.
  intros Hs Hr. rewrite <- (number_closed self Hs Hr).
  now rewrite map_ring_number_from.
Qed.

Lemma polar_tags self (pts : list (Cone.polar F)) :
  1 <= Cone.sides self -> 1 <= Cone.rings self ->
  Cone.points_polar self = Ok pts ->
  map tag pts = map Cone.ring (indices_closed self).
Proof.
  intros Hs Hr Hp.
  destruct (points_polar_returned self Hs Hr (ex_intro _ pts Hp))
    as (_ & _ & Hp').
  rewrite Hp in Hp'. injection Hp' as ->. now apply closed_tags.
Qed.

Lemma cartesian_tags self (cart : list (Cone.cartesian F)) :
  1 <= Cone.sides self -> 1 <= Cone.rings self ->
  Cone.points_cartesian self = Ok cart ->
  map tag cart = map Cone.ring (indices_closed self).
Proof.
  intros Hs Hr Hc. rewrite (cartesian_closed_tags self cart Hs Hr Hc).
  now apply closed_tags.
Qed.

(** A list of points with the ring tags of the enumerated points has the
    counts of C4. *)
Lemma counts_of_tags self (l : list (Z * number F * number F * number F)) :
  1 <= Cone.sides self -> 1 <= Cone.rings self ->
  map tag l = map Cone.ring (indices_closed self) ->
  ring_counts self l.
Proof.
  intros Hs Hr Htags.
  assert (Hcount : forall i,
    count_ring i l =
    List.length (filter (fun pt => Cone.ring pt =? i)
                        (indices_closed self))).
  { intros i. unfold count_ring.
    rewrite (length_filter_map (fun r => r =? i) tag), Htags.
    now rewrite <- (length_filter_map (fun r => r =? i) Cone.ring). }
  assert (Hlen : List.length l = List.length (indices_closed self)).
  { apply (f_equal (@List.length Z)) in Htags.
    now rewrite !length_map in Htags. }
  split; [rewrite Hlen; apply length_indices_closed; lia|].
  split; [rewrite Hcount; now rewrite filter_tip|].
  split.
  { intros i Hi. rewrite Hcount, filter_ring by lia. unfold ring_block.
    rewrite length_map, length_range. lia. }
  split; [rewrite Hcount, filter_surface by lia; reflexivity|].
  destruct l as [|p0 l0] eqn:El; [discriminate|].
  destruct (exists_last (l := p0 :: l0) ltac:(discriminate))
    as (front & p & Hl).
  exists front, p. split; [exact Hl|].
  rewrite Hl in Htags. unfold indices_closed in Htags.
  rewrite map_app in Htags. cbn [map Cone.ring] in Htags.
  rewrite map_app in Htags. cbn [map Cone.ring] in Htags.
  rewrite app_comm_cons in Htags.
  now apply app_inj_tail in Htags as [_ Htag].
Qed.

(** C4.  For every valid descriptor, each of the lists that points_polar
    and points_cartesian return has rings * sides + 2 points: ring 0
    contributes exactly one point, each of the rings 1..rings exactly
    [sides] points, and exactly one point tagged -1 is there, as the last
    element.  The list that indices returns has the same length, and
    where indices returns so do points_polar and points_cartesian, with
    lists of that length. *)
Theorem points_count self :
  valid self ->
  (forall polar, Cone.points_polar self = Ok polar ->
                 ring_counts self polar) /\
  (forall cart, Cone.points_cartesian self = Ok cart ->
                ring_counts self cart) /\
  (forall idxs, Cone.indices self = Ok idxs ->
     Z.of_nat (List.length idxs) = Cone.rings self * Cone.sides self + 2 /\
     exists polar cart,
       Cone.points_polar self = Ok polar /\
       Cone.points_cartesian self = Ok cart /\
       List.length polar = List.length cart /\
       List.length idxs = List.length cart).
Proof.
  intros (Hs & Hr & _).
  assert (Hs1 : 1 <= Cone.sides self) by lia.
  split; [|split].
  - intros polar Hp. apply counts_of_tags; trivial.
    now apply polar_tags.
  - intros cart Hc. apply counts_of_tags; trivial.
    now apply cartesian_tags.
  - intros idxs Hi.
    destruct (Cone.points_cartesian self) as [cart|e] eqn:Hc;
      [|unfold Cone.indices in Hi; rewrite Hc in Hi; discriminate].
    destruct (points_cartesian_tags self cart Hc) as (polar & Hp & Ht).
    rewrite (indices_ok self Hs1 Hr (ex_intro _ cart Hc)) in Hi.
    injection Hi as <-.
    pose proof (cartesian_tags self cart Hs1 Hr Hc) as Htags.
    assert (Hlen : List.length cart = List.length (indices_closed self)).
    { apply (f_equal (@List.length Z)) in Htags.
      now rewrite !length_map in Htags. }
    split; [apply length_indices_closed; lia|].
    exists polar, cart. split; [exact Hp|]. split; [reflexivity|].
    split; [|now rewrite Hlen].
    apply (f_equal (@List.length Z)) in Ht.
    now rewrite !length_map in Ht.
Qed.

End CountFacts.

(** The scenario of the specification: Cone(Point(0, 0, 0), 100, 4, 2, 60)
    has 2 * 4 + 2 = 10 points. *)
Lemma points_count_scenario :
  exists cart, Cone.points_cartesian (exact_cone 4 2) = Ok cart /\
               List.length cart = 10%nat.
Proof.
  destruct (exact_cone_returns 4 2 ltac:(lia) ltac:(lia)) as [cart Hc].
  exists cart. split; [exact Hc|].
  destruct (proj1 (proj2 (points_count (exact_cone 4 2)
                            (exact_cone_valid 4 2 ltac:(lia) ltac:(lia))))
              cart Hc) as (Hlen & _).
  apply Nat2Z.inj. exact Hlen.
Defined.

(** ** The polar points (C5) *)

Section LayoutFacts.
Context {F : Type} `{FloatOps F} `{!Libm F}.
Implicit Types (self : Cone.t F).

Lemma nth_error_ring_points self (i j : Z) :
  i <> 0 -> 0 <= j < Cone.sides self ->
  nth_error (ring_points self i) (Z.to_nat j) = Some (polar_at self i j).
Proof.
  intros Hi Hj. unfold ring_points.
  destruct (Z.eqb_spec i 0) as [E|_]; [contradiction|].
  rewrite nth_error_map, nth_error_range by lia. cbn [option_map].
  now rewrite Z2Nat.id by lia.
Qed.

Lemma length_ring_blocks self (m : nat) :
  List.length (flat_map (ring_points self) (rings_from 1 m)) =
  (m * Z.to_nat (Cone.sides self))%nat.
Proof.
  rewrite (length_flat_map_uniform _ (Z.to_nat (Cone.sides self))).
  - now rewrite length_rings_from.
  - intros i Hi. apply In_rings_from in Hi. rewrite length_ring_points.
    destruct (Z.eqb_spec i 0); [lia | reflexivity].
Qed.

(** C5.  For every valid descriptor, the list that points_polar returns
    has rings * sides + 2 points: the point of ring [i] and side [j], at
    its position in ring order, is (i, radius(i), angle(j), height(i)) with
    radius(i) = i * length * cos(dip) / rings,
    height(i) = - sqrt(length ** 2 - radius(i) ** 2) and
    angle(j) = j * 2 * pi / sides, each operation in floating point as the
    source evaluates it and the squares as [**] gives them, ring 0 having
    the point of side 0 only; the final element is (-1, 0, 0, 0). *)
Theorem points_polar_layout self (pts : list (Cone.polar F)) :
  valid self -> Cone.points_polar self = Ok pts ->
  Z.of_nat (List.length pts) = Cone.rings self * Cone.sides self + 2 /\
  (forall i j,
      0 <= i <= Cone.rings self -> 0 <= j < Cone.sides self ->
      (i = 0 -> j = 0) ->
      nth_error pts (position self i j) =
      Some (i, PyFloat (radius_value self i),
            PyFloat (angle_value self j),
            PyFloat (height_value self i))) /\
  nth_error pts (Z.to_nat (Cone.rings self * Cone.sides self + 1)) =
  Some (-1, PyInt 0, PyInt 0, PyInt 0).
Proof.
  intros (Hs & Hr & _) Hp.
  assert (Hs1 : 1 <= Cone.sides self) by lia.
  destruct (points_polar_returned self Hs1 Hr (ex_intro _ pts Hp))
    as (_ & _ & Hp').
  rewrite Hp in Hp'. injection Hp' as ->.
  rewrite range_cons by lia.
  replace (Z.to_nat (Cone.rings self + 1) - 1)%nat
    with (Z.to_nat (Cone.rings self)) by lia.
  cbn [flat_map]. change (ring_points self 0) with [polar_at self 0 0].
  cbn [app].
  set (n := Z.to_nat (Cone.rings self)).
  set (s := Z.to_nat (Cone.sides self)).
  pose proof (length_ring_blocks self n) as Hlen. fold s in Hlen.
  split; [|split].
  - cbn [List.length]. rewrite length_app, Hlen. cbn [List.length]. nia.
  - intros i j Hi Hj Hij. unfold position.
    destruct (Z.eqb_spec i 0) as [-> | Hne].
    + rewrite (Hij eq_refl). reflexivity.
    + replace (Z.to_nat (1 + (i - 1) * Cone.sides self + j))
        with (S (Z.to_nat (i - 1) * s + Z.to_nat j)) by nia.
      cbn [nth_error]. rewrite nth_error_app1 by (rewrite Hlen; nia).
      rewrite (nth_error_flat_map_uniform _ s _ _ _ i).
      * now apply nth_error_ring_points.
      * intros y Hy. apply In_rings_from in Hy. rewrite length_ring_points.
        destruct (Z.eqb_spec y 0); [lia | reflexivity].
      * rewrite nth_error_rings_from by lia. f_equal. lia.
      * lia.
  - replace (Z.to_nat (Cone.rings self * Cone.sides self + 1))
      with (S (n * s)) by nia.
    cbn [nth_error]. rewrite nth_error_app2 by (rewrite Hlen; lia).
    rewrite Hlen, Nat.sub_diag. reflexivity.
Qed.
End LayoutFacts.

(** In Cone(Point(0, 0, 0), 100, 4, 2, 60) the point of ring 2 and side 3
    stands at position 8. *)
Lemma points_polar_layout_scenario :
  exists pts, Cone.points_polar (exact_cone 4 2) = Ok pts /\
    nth_error pts 8 = Some (polar_at (exact_cone 4 2) 2 3).
Proof.
  pose proof (exact_points_polar (exact_cone 4 2)
                (exact_cone_valid 4 2 ltac:(lia) ltac:(lia))) as Hp.
  eexists. split; [exact Hp|].
  destruct (points_polar_layout (exact_cone 4 2) _
              (exact_cone_valid 4 2 ltac:(lia) ltac:(lia)) Hp)
    as (_ & Hat & _).
  apply (Hat 2 3); simpl; lia.
Defined.

(** ** The order of the faces (C3) *)

Lemma nth_error_at (l : list Z) (k : nat) :
  (k < List.length l)%nat -> nth_error l k = Some (at_ l (Z.of_nat k)).
Proof.
  intros Hk. unfold at_. rewrite Nat2Z.id. now apply nth_error_nth'.
Qed.

Lemma nth_error_fan (c : Z) (B : list Z) (k : nat) :
  (k < List.length B)%nat ->
  nth_error (fan c B) k =
  Some (c, at_ B (Z.of_nat k), at_ (rotl B) (Z.of_nat k)).
Proof.
  intros Hk. unfold fan. rewrite nth_error_map.
  rewrite (nth_error_zip _ _ _ (at_ B (Z.of_nat k))
                         (at_ (rotl B) (Z.of_nat k))).
  - reflexivity.
  - now apply nth_error_at.
  - apply nth_error_at. now rewrite length_rotl.
Qed.

Lemma nth_error_quads (A B : list Z) (k : nat) :
  List.length A = List.length B -> (k < List.length A)%nat ->
  nth_error (quads A B) k =
  Some (at_ A (Z.of_nat k), at_ (rotl A) (Z.of_nat k), at_ B (Z.of_nat k))
  /\
  nth_error (quads A B) (List.length A + k) =
  Some (at_ (rotl A) (Z.of_nat k), at_ B (Z.of_nat k),
        at_ (rotl B) (Z.of_nat k)).
Proof.
  intros E Hk. unfold quads.
  assert (Hlen : List.length (zip3 A (rotl A) B) = List.length A)
    by (rewrite length_zip3, length_rotl; lia).
  split.
  - rewrite nth_error_app1 by lia.
    apply nth_error_zip3; apply nth_error_at; rewrite ?length_rotl; lia.
  - rewrite nth_error_app2 by lia.
    replace (List.length A + k - List.length (zip3 A (rotl A) B))%nat
      with k by lia.
    apply nth_error_zip3; apply nth_error_at; rewrite ?length_rotl; lia.
Qed.

Section OrderFacts.
Context {F : Type} `{FloatOps F} `{!Libm F}.
Implicit Types (self : Cone.t F).

Lemma ring_of_tip self : ring_of (indices_closed self) 0 = [1].
Proof. unfold ring_of. now rewrite filter_tip. Qed.

Lemma ring_of_ring self (i : Z) :
  1 <= i <= Cone.rings self ->
  ring_of (indices_closed self) i = ring_vertices self i.
Proof.
  intros Hi. unfold ring_of.
  now rewrite filter_ring, map_idx_ring_block.
Qed.

(** The face list starts with the tip fan and the quadrilaterals of the
    transitions 1..rings-1. *)
Lemma faces_prefix self :
  1 <= Cone.sides self -> 1 <= Cone.rings self ->
  returns (Cone.points_cartesian self) ->
  exists tail,
    Cone.faces self =
    Ok (tip_fan self
        ++ flat_map (body_faces self)
                    (rings_from 1 (Z.to_nat (Cone.rings self) - 1))
        ++ tail).
Proof.
  intros Hs Hr Hh. destruct (Z.eq_dec (Cone.rings self) 1) as [E | Hne].
  - exists []. rewrite faces_one_ring by assumption.
    rewrite E. cbn [Z.to_nat Pos.to_nat Pos.iter_op Nat.sub rings_from seq
                    map flat_map app].
    now rewrite app_nil_r.
  - exists (apex_fan self). apply faces_more_rings; trivial; lia.
Qed.

(** C3.  For every valid descriptor, the face list that faces returns
    begins with the tip fan: triangle [k] is
    (t, N1[k], N1_shift[k]), where [t] is the single index of ring 0, N1
    the ordered indices of ring 1 and N1_shift their rotation left by one.
    The transition [i], 1 <= i <= rings - 1, follows at offset
    sides + 2 * sides * (i - 1): its triangles (A[k], A'[k], B[k]) for each
    k and then its triangles (A'[k], B[k], B'[k]) for each k, where A and B
    are the ordered indices of the rings i and i + 1 and A', B' their
    rotations left by one.  The ordered indices of ring i are
    2 + (i - 1) * sides + k for k in 0..sides. *)
Theorem faces_layout self (fs : list Cone.face) :
  valid self -> Cone.faces self = Ok fs ->
  exists pts_idx,
    Cone.indices self = Ok pts_idx /\
    (exists t, ring_of pts_idx 0 = [t] /\
       forall k, 0 <= k < Cone.sides self ->
         let N1 := ring_of pts_idx 1 in
         nth_error fs (Z.to_nat k) = Some (t, at_ N1 k, at_ (rotl N1) k)) /\
    (forall i k, 1 <= i <= Cone.rings self - 1 -> 0 <= k < Cone.sides self ->
       let A := ring_of pts_idx i in
       let B := ring_of pts_idx (i + 1) in
       let offset := Cone.sides self + 2 * Cone.sides self * (i - 1) in
       nth_error fs (Z.to_nat (offset + k)) =
       Some (at_ A k, at_ (rotl A) k, at_ B k) /\
       nth_error fs (Z.to_nat (offset + Cone.sides self + k)) =
       Some (at_ (rotl A) k, at_ B k, at_ (rotl B) k)) /\
    (forall i, 1 <= i <= Cone.rings self ->
       ring_of pts_idx i =
       map (fun k => 2 + (i - 1) * Cone.sides self + k)
           (range (Cone.sides self))).
Proof.
  intros (Hs & Hr & _) Hfs.
  assert (Hs1 : 1 <= Cone.sides self) by lia.
  pose proof (faces_returned self fs Hfs) as Hh.
  destruct (faces_prefix self Hs1 Hr Hh) as [tail Hf].
  rewrite Hfs in Hf. injection Hf as ->.
  exists (indices_closed self).
  split; [now apply indices_ok|].
  pose proof (length_tip_fan self) as Htip.
  pose proof (length_body_faces self) as Hbody.
  remember (Z.to_nat (Cone.sides self)) as s eqn:Es.
  split; [|split].
  - exists 1. split; [apply ring_of_tip|]. intros k Hk N1. subst N1.
    rewrite ring_of_ring by lia.
    rewrite nth_error_app1 by (rewrite Htip; lia).
    unfold tip_fan.
    rewrite nth_error_fan by (rewrite length_ring_vertices; lia).
    now rewrite Z2Nat.id by lia.
  - intros i k Hi Hk A B offset. subst A B offset.
    rewrite !ring_of_ring by lia.
    assert (Hblocks :
              forall k', (k' < 2 * s)%nat ->
                nth_error
                  (tip_fan self
                   ++ flat_map (body_faces self)
                        (rings_from 1 (Z.to_nat (Cone.rings self) - 1))
                   ++ tail)
                  (s + (Z.to_nat (i - 1) * (2 * s) + k')) =
                nth_error (body_faces self i) k').
    { intros k' Hk'.
      rewrite nth_error_app2 by (rewrite Htip; nia).
      rewrite Htip.
      replace (s + (Z.to_nat (i - 1) * (2 * s) + k') - s)%nat
        with (Z.to_nat (i - 1) * (2 * s) + k')%nat by nia.
      rewrite nth_error_app1.
      - apply (nth_error_flat_map_uniform _ (2 * s)%nat).
        + intros y _. apply Hbody.
        + rewrite nth_error_rings_from by lia. f_equal. lia.
        + exact Hk'.
      - rewrite (length_flat_map_uniform _ (2 * s)%nat)
          by (intros y _; apply Hbody).
        rewrite length_rings_from. nia. }
    pose proof (nth_error_quads (ring_vertices self i)
                  (ring_vertices self (i + 1)) (Z.to_nat k)) as Hq.
    rewrite !length_ring_vertices in Hq. rewrite <- Es in Hq.
    rewrite Z2Nat.id in Hq by lia.
    destruct Hq as [Hq1 Hq2]; [reflexivity | lia |]. split.
    + replace (Z.to_nat (Cone.sides self
                         + 2 * Cone.sides self * (i - 1) + k))
        with (s + (Z.to_nat (i - 1) * (2 * s) + Z.to_nat k))%nat by nia.
      rewrite Hblocks by lia. exact Hq1.
    + replace (Z.to_nat (Cone.sides self + 2 * Cone.sides self * (i - 1)
                         + Cone.sides self + k))
        with (s + (Z.to_nat (i - 1) * (2 * s) + (s + Z.to_nat k)))%nat
        by nia.
      rewrite Hblocks by lia. exact Hq2.
  - intros i Hi. rewrite ring_of_ring by lia. reflexivity.
Qed.
End OrderFacts.

(** In Cone(Point(0, 0, 0), 100, 4, 2, 60) the first triangle of
    transition 1 is the face at offset 4, (2, 3, 6). *)
Lemma faces_layout_scenario :
  exists fs, Cone.faces (exact_cone 4 2) = Ok fs /\
             nth_error fs 4 = Some (2, 3, 6).
Proof.
  pose proof (exact_cone_faces 4 2 ltac:(lia) ltac:(lia)) as Hf.
  eexists. split; [exact Hf|].
  destruct (faces_layout (exact_cone 4 2) _
              (exact_cone_valid 4 2 ltac:(lia) ltac:(lia)) Hf)
    as (pts_idx & _ & _ & Hbody & Hrings).
  destruct (Hbody 1 0) as [Hfirst _]; [simpl; lia | simpl; lia |].
  cbv zeta in Hfirst.
  rewrite (Hrings 1), (Hrings (1 + 1)) in Hfirst by (simpl; lia).
  exact Hfirst.
Defined.

(** ** The range of the face indices (C6) *)

Lemma In_fan (c0 : Z) (B : list Z) (a b c : Z) :
  In (a, b, c) (fan c0 B) -> a = c0 /\ In b B /\ In c B.
Proof.
  unfold fan. rewrite in_map_iff. intros [[x y] [Heq Hin]].
  injection Heq as <- <- <-.
  apply In_zip in Hin. destruct Hin as [Hx Hy].
  apply (proj1 (In_rotl _ _)) in Hy. repeat split; assumption.
Qed.

Lemma In_quads (A B : list Z) (a b c : Z) :
  In (a, b, c) (quads A B) ->
  (In a A \/ In a B) /\ (In b A \/ In b B) /\ (In c A \/ In c B).
Proof.
  unfold quads. rewrite in_app_iff.
  intros [Hin | Hin]; apply In_zip3 in Hin; destruct Hin as (Ha & Hb & Hc);
    rewrite ?In_rotl in *; auto.
Qed.

Section RangeFacts.
Context {F : Type} `{FloatOps F} `{!Libm F}.
Implicit Types (self : Cone.t F).

Lemma vertex_bounds self (i v : Z) :
  1 <= Cone.sides self -> 1 <= i <= Cone.rings self ->
  In v (ring_vertices self i) -> 1 <= v <= apex self.
Proof.
  intros Hs Hi Hv. apply In_ring_vertices in Hv.
  destruct Hv as [k [Hk ->]]. unfold vertex, apex. nia.
Qed.

Lemma length_cartesian self :
  1 <= Cone.sides self -> 1 <= Cone.rings self ->
  returns (Cone.points_cartesian self) ->
  exists cart, Cone.points_cartesian self = Ok cart /\
               Z.of_nat (List.length cart) = apex self.
Proof.
  intros Hs Hr [cart Hc].
  exists cart. split; [exact Hc|].
  pose proof (cartesian_tags self cart Hs Hr Hc) as Htags.
  apply (f_equal (@List.length Z)) in Htags. rewrite !length_map in Htags.
  transitivity (Z.of_nat (List.length (indices_closed self)));
    [f_equal; exact Htags|].
  unfold apex. apply length_indices_closed; lia.
Qed.

Lemma face_group_bounds self (i a b c : Z) :
  1 <= Cone.sides self -> 0 <= i < Cone.rings self ->
  In (a, b, c) (face_group self i) ->
  1 <= a <= apex self /\ 1 <= b <= apex self /\ 1 <= c <= apex self.
Proof.
  intros Hs Hi Hin.
  assert (Hapex : 1 <= apex self) by (unfold apex; nia).
  unfold face_group in Hin. destruct (Z.eqb_spec i 0) as [-> | Hne].
  - apply In_fan in Hin. destruct Hin as (-> & Hb & Hc).
    repeat split; try lia; eapply vertex_bounds; eauto; lia.
  - apply in_app_iff in Hin. destruct Hin as [Hin | Hin].
    + apply In_quads in Hin. destruct Hin as ([?|?] & [?|?] & [?|?]);
        repeat split; eapply vertex_bounds; eauto; lia.
    + destruct (Z.eqb_spec i (Cone.rings self - 1)); [|contradiction].
      apply In_fan in Hin. destruct Hin as (-> & Hb & Hc).
      repeat split; try lia; eapply vertex_bounds; eauto; lia.
Qed.

(** C6.  For every valid descriptor, where faces returns so does
    points_cartesian, and every index in every triple of the face list
    lies between 1 and len(points_cartesian), both included. *)
Theorem face_indices_in_range self (fs : list Cone.face) :
  valid self -> Cone.faces self = Ok fs ->
  exists cart,
    Cone.points_cartesian self = Ok cart /\
    forall a b c, In (a, b, c) fs ->
      1 <= a <= Z.of_nat (List.length cart) /\
      1 <= b <= Z.of_nat (List.length cart) /\
      1 <= c <= Z.of_nat (List.length cart).
Proof.
  intros (Hs & Hr & _) Hfs.
  assert (Hs1 : 1 <= Cone.sides self) by lia.
  pose proof (faces_returned self fs Hfs) as Hh.
  destruct (length_cartesian self Hs1 Hr Hh) as [cart [Hc Hlen]].
  exists cart. split; [exact Hc|].
  rewrite (faces_ok self Hs1 Hr Hh) in Hfs. injection Hfs as <-.
  intros a b c Hin. rewrite Hlen.
  apply in_flat_map in Hin. destruct Hin as [i [Hi Hin]].
  apply In_range in Hi. now apply (face_group_bounds self i).
Qed.
End RangeFacts.

(** In Cone(Point(0, 0, 0), 100, 4, 2, 60) every face index lies in
    1..10. *)
Lemma face_indices_scenario :
  exists fs, Cone.faces (exact_cone 4 2) = Ok fs /\
    forall a b c, In (a, b, c) fs ->
      1 <= a <= 10 /\ 1 <= b <= 10 /\ 1 <= c <= 10.
Proof.
  pose proof (exact_cone_faces 4 2 ltac:(lia) ltac:(lia)) as Hf.
  destruct (face_indices_in_range (exact_cone 4 2) _
              (exact_cone_valid 4 2 ltac:(lia) ltac:(lia)) Hf)
    as (cart & Hc & Hin).
  destruct (length_cartesian (exact_cone 4 2) ltac:(simpl; lia)
              ltac:(simpl; lia)
              (exact_cone_returns 4 2 ltac:(lia) ltac:(lia)))
    as (cart' & Hc' & Hlen).
  rewrite Hc in Hc'. injection Hc' as <-.
  eexists. split; [exact Hf|].
  intros a b c Habc. specialize (Hin a b c Habc).
  rewrite Hlen in Hin. exact Hin.
Defined.

(** ** The number of faces (C1) and the fan of the surface point (C2) *)

Section ApexFacts.
Context {F : Type} `{FloatOps F} `{!Libm F}.
Implicit Types (self : Cone.t F).

(** C1, at rings = 1.  A valid descriptor with one ring, where
    points_cartesian returns, has [sides] faces, not the 2 * sides * rings
    of the closed form: the iteration i = 0 is also the last one, and the
    fan of the surface point is emitted only in the branch for i > 0. *)
Theorem faces_length_one_ring self :
  valid self -> returns (Cone.points_cartesian self) ->
  Cone.rings self = 1 ->
  exists fs, Cone.faces self = Ok fs /\
             Z.of_nat (List.length fs) = Cone.sides self /\
             Z.of_nat (List.length fs)
             <> 2 * Cone.sides self * Cone.rings self.
Proof.
  intros (Hs & _) Hh Hr. exists (tip_fan self).
  split; [apply faces_one_ring; trivial; lia|].
  rewrite length_tip_fan. split; lia.
Qed.

(** With two rings or more the face list that faces returns has
    sides + 2 * sides * (rings - 1) + sides = 2 * sides * rings faces. *)
Theorem faces_length self (fs : list Cone.face) :
  valid self -> 2 <= Cone.rings self -> Cone.faces self = Ok fs ->
  Z.of_nat (List.length fs) =
  Cone.sides self + 2 * Cone.sides self * (Cone.rings self - 1)
  + Cone.sides self /\
  Z.of_nat (List.length fs) = 2 * Cone.sides self * Cone.rings self.
Proof.
  intros (Hs & _) Hr Hfs.
  rewrite (faces_more_rings self ltac:(lia) Hr (faces_returned self fs Hfs))
    in Hfs.
  injection Hfs as <-.
  rewrite !length_app, length_tip_fan, length_apex_fan.
  rewrite (length_flat_map_uniform _ (2 * Z.to_nat (Cone.sides self))%nat)
    by (intros i _; apply length_body_faces).
  rewrite length_rings_from. split; nia.
Qed.

(** C2, at rings = 1.  In the face list of a valid descriptor with one
    ring, where points_cartesian returns, no triangle has the surface
    point (the last index) as a vertex: the fan of the surface point is
    missing. *)
Theorem apex_fan_missing_one_ring self :
  valid self -> returns (Cone.points_cartesian self) ->
  Cone.rings self = 1 ->
  exists fs, Cone.faces self = Ok fs /\
    fs = fan 1 (ring_vertices self 1) /\
    forall a b c, In (a, b, c) fs ->
      a < apex self /\ b < apex self /\ c < apex self.
Proof.
  intros (Hs & _) Hh Hr. exists (tip_fan self).
  split; [apply faces_one_ring; trivial; lia|].
  split; [reflexivity|].
  intros a b c Hin. unfold tip_fan in Hin. apply In_fan in Hin.
  destruct Hin as (-> & Hb & Hc).
  apply In_ring_vertices in Hb. apply In_ring_vertices in Hc.
  destruct Hb as [k [Hk ->]]. destruct Hc as [k' [Hk' ->]].
  unfold vertex, apex. rewrite Hr. lia.
Qed.

(** With two rings or more the face list that faces returns ends with the
    fan of the surface point: after the sides + 2 * sides * (rings - 1)
    faces of the tip and the body, triangle [k] is (apex, B[k], B'[k]),
    where apex is the last index, B the ordered indices of ring [rings]
    and B' their rotation left by one. *)
Theorem apex_fan_present self (fs : list Cone.face) :
  valid self -> 2 <= Cone.rings self -> Cone.faces self = Ok fs ->
  exists pts_idx last,
    Cone.indices self = Ok pts_idx /\
    item pts_idx (-1) = Ok last /\
    Cone.idx last = Z.of_nat (List.length pts_idx) /\
    forall k, 0 <= k < Cone.sides self ->
      let B := ring_of pts_idx (Cone.rings self) in
      let offset :=
        Cone.sides self + 2 * Cone.sides self * (Cone.rings self - 1) in
      nth_error fs (Z.to_nat (offset + k)) =
      Some (Cone.idx last, at_ B k, at_ (rotl B) k).
Proof.
  intros (Hs & _) Hr Hfs.
  assert (Hs1 : 1 <= Cone.sides self) by lia.
  pose proof (faces_returned self fs Hfs) as Hh.
  rewrite (faces_more_rings self Hs1 Hr Hh) in Hfs. injection Hfs as <-.
  exists (indices_closed self).
  exists (Cone.mk_indexed (-1) (apex self)).
  split; [apply indices_ok; trivial; lia|].
  split; [unfold indices_closed; rewrite app_comm_cons; apply item_last|].
  split; [symmetry; apply length_indices_closed; lia|].
  intros k Hk B offset. subst B offset. rewrite ring_of_ring by lia.
  pose proof (length_tip_fan self) as Htip.
  pose proof (length_body_faces self) as Hbody.
  pose proof (length_ring_vertices self (Cone.rings self)) as Hring.
  remember (Z.to_nat (Cone.sides self)) as s eqn:Es.
  remember (Z.to_nat (Cone.rings self) - 1)%nat as m eqn:Em.
  assert (Hblocks :
            List.length (flat_map (body_faces self) (rings_from 1 m))
            = (m * (2 * s))%nat).
  { rewrite (length_flat_map_uniform _ (2 * s)%nat)
      by (intros y _; apply Hbody).
    now rewrite length_rings_from. }
  replace (Z.to_nat (Cone.sides self
                     + 2 * Cone.sides self * (Cone.rings self - 1) + k))
    with (s + (m * (2 * s) + Z.to_nat k))%nat by nia.
  rewrite nth_error_app2 by (rewrite Htip; nia).
  rewrite nth_error_app2 by (rewrite Htip, Hblocks; nia).
  rewrite Htip, Hblocks.
  replace (s + (m * (2 * s) + Z.to_nat k) - s - m * (2 * s))%nat
    with (Z.to_nat k) by nia.
  unfold apex_fan. rewrite nth_error_fan by (rewrite Hring; lia).
  now rewrite Z2Nat.id by lia.
Qed.
End ApexFacts.

(** Cone(Point(0, 0, 0), 100, 3, 1, 60) has 3 faces, where 2 * 3 * 1 = 6. *)
Lemma faces_length_one_ring_example :
  exists fs, Cone.faces (exact_cone 3 1) = Ok fs /\
             List.length fs = 3%nat.
Proof.
  destruct (faces_length_one_ring (exact_cone 3 1)
              (exact_cone_valid 3 1 ltac:(lia) ltac:(lia))
              (exact_cone_returns 3 1 ltac:(lia) ltac:(lia)) eq_refl)
    as (fs & Hf & Hlen & _).
  exists fs. split; [exact Hf|]. simpl in Hlen. lia.
Defined.

(** Cone(Point(0, 0, 0), 100, 4, 2, 60) has 2 * 4 * 2 = 16 faces. *)
Lemma faces_length_scenario :
  exists fs, Cone.faces (exact_cone 4 2) = Ok fs /\
             List.length fs = 16%nat.
Proof.
  pose proof (exact_cone_faces 4 2 ltac:(lia) ltac:(lia)) as Hf.
  eexists. split; [exact Hf|].
  destruct (faces_length (exact_cone 4 2) _
              (exact_cone_valid 4 2 ltac:(lia) ltac:(lia))
              ltac:(simpl; lia) Hf) as (Hlen & _).
  apply Nat2Z.inj. exact Hlen.
Defined.

(** The faces of Cone(Point(0, 0, 0), 100, 3, 1, 60): no triangle on the
    surface point, whose index is 5. *)
Lemma apex_fan_missing_example :
  Cone.faces (exact_cone 3 1) = Ok [(1, 2, 3); (1, 3, 4); (1, 4, 2)].
Proof.
  destruct (apex_fan_missing_one_ring (exact_cone 3 1)
              (exact_cone_valid 3 1 ltac:(lia) ltac:(lia))
              (exact_cone_returns 3 1 ltac:(lia) ltac:(lia)) eq_refl)
    as (fs & Hf & -> & _).
  exact Hf.
Defined.

(** In Cone(Point(0, 0, 0), 100, 4, 2, 60) the first triangle of the fan
    of the surface point is the face at offset 12, (10, 6, 7). *)
Lemma apex_fan_scenario :
  exists fs, Cone.faces (exact_cone 4 2) = Ok fs /\
             nth_error fs 12 = Some (10, 6, 7).
Proof.
  pose proof (exact_cone_faces 4 2 ltac:(lia) ltac:(lia)) as Hf.
  eexists. split; [exact Hf|].
  destruct (apex_fan_present (exact_cone 4 2) _
              (exact_cone_valid 4 2 ltac:(lia) ltac:(lia))
              ltac:(simpl; lia) Hf)
    as (pts_idx & last & Hi & _ & Hlast & Hfan).
  rewrite (indices_ok (exact_cone 4 2) ltac:(simpl; lia) ltac:(simpl; lia)
             (exact_cone_returns 4 2 ltac:(lia) ltac:(lia))) in Hi.
  injection Hi as <-.
  specialize (Hfan 0 ltac:(simpl; lia)). cbv zeta in Hfan.
  rewrite Hlast in Hfan. exact Hfan.
Defined.

(** ** The constructors (C7, C8, C10) *)

Section ConstructorFacts.
Context {F : Type} `{FloatOps F}.

(** [Cone.__post_init__] check by check. *)
Lemma post_init_cases (point length sides rings dip : pyval F) :
  Cone.__post_init__ point length sides rings dip =
  match Point.isinstance point with
  | None => ([], Raise (ValueError "point must be an instance of Point"))
  | Some p =>
    match as_number length with
    | None => ([], Raise TypeError)
    | Some l =>
      if negb (num_gt l 0)
      then ([], Raise (ValueError "length must be a positive float"))
      else
        match as_int sides, as_int rings with
        | Some s, Some r =>
          let out :=
            ((if s <? 3 then ["Number of sides set to 3"%string] else [])
             ++ (if r <? 1 then ["Number of rings set to 1"%string] else []))
          in
          match as_number dip with
          | None => (out, Raise TypeError)
          | Some d =>
            if num_le d 0 || num_ge d 90
            then (out, Raise (ValueError
                    "dip must be larger than (0 and smaller than 90]"))
            else (out, Ok (Cone.mk p l (Z.max s 3) (Z.max r 1)
                                   (math_radians (to_float d))))
          end
        | _, _ =>
          ([], Raise (ValueError "sides and rings must be an integers"))
        end
    end
  end.
Proof.
  unfold Cone.__post_init__, ordered, io_bind, io_ret, lift, raise, print.
  destruct (Point.isinstance point) as [p|]; [|reflexivity].
  destruct (as_number length) as [l|]; [|reflexivity].
  destruct (num_gt l 0); [|reflexivity]. cbn [negb].
  destruct (as_int sides) as [s|]; [|reflexivity].
  destruct (as_int rings) as [r|]; [|reflexivity].
  unfold Cone.SIDES_MIN, Cone.RINGS_MIN, Cone.DIP_MIN, Cone.DIP_MAX.
  destruct (Z.ltb_spec s 3); destruct (Z.ltb_spec r 1);
    destruct (as_number dip) as [d|]; try reflexivity;
    destruct (num_le d 0 || num_ge d 90); cbn [app];
    try reflexivity; do 2 f_equal; f_equal; lia.
Qed.
End ConstructorFacts.

Section ValidationFacts.
Context {F : Type} `{FloatOps F}.

(** When the constructor of [Cone] raises ValueError. *)
Lemma post_init_ValueError (point length sides rings dip : pyval F) :
  raises_ValueError
    (snd (Cone.__post_init__ point length sides rings dip)) <->
  Point.isinstance point = None \/
  (exists l, as_number length = Some l /\ num_gt l 0 = false) \/
  (as_number length <> None /\
   (as_int sides = None \/ as_int rings = None)) \/
  (as_number length <> None /\
   exists d, as_number dip = Some d /\
             (num_le d 0 = true \/ num_ge d 90 = true)).
Proof.
  rewrite post_init_cases. unfold raises_ValueError.
  destruct (Point.isinstance point) as [p|] eqn:Ep;
    [|split; [intros _; now left | intros _; eexists; reflexivity]].
  destruct (as_number length) as [l|] eqn:El.
  2:{ cbn [snd]. split; [intros [msg Hm]; discriminate|].
      intros [Hc | [(l & Hl & _) | [(Hl & _) | (Hl & _)]]]; congruence. }
  destruct (num_gt l 0) eqn:Eg; cbn [negb snd].
  2:{ split; [intros _; right; left; now exists l
             | intros _; eexists; reflexivity]. }
  destruct (as_int sides) as [s|] eqn:Es.
  2:{ cbn [snd]. split; [intros _; right; right; left; split;
                           [congruence | now left]
                        | intros _; eexists; reflexivity]. }
  destruct (as_int rings) as [r|] eqn:Er.
  2:{ cbn [snd]. split; [intros _; right; right; left; split;
                           [congruence | now right]
                        | intros _; eexists; reflexivity]. }
  cbv zeta. destruct (as_number dip) as [d|] eqn:Ed.
  2:{ cbn [snd]. split; [intros [msg Hm]; discriminate|].
      intros [Hc | [(l' & Hl & Hg) | [(_ & [Hc | Hc]) | (_ & d & Hd & _)]]];
        congruence. }
  destruct (num_le d 0) eqn:Ele; destruct (num_ge d 90) eqn:Ege;
    cbn [orb snd].
  1-3: split; [intros _; right; right; right; split;
                 [congruence | exists d; split; [reflexivity | tauto]]
              | intros _; eexists; reflexivity].
  split; [intros [msg Hm]; discriminate|].
  intros [Hc | [(l' & Hl & Hg) | [(_ & [Hc | Hc])
                                 | (_ & d' & Hd & [Hc | Hc])]]];
    congruence.
Qed.

(** When the constructor of [Cone] raises TypeError: a length or a dip that
    is no number reaches its comparison. *)
Lemma post_init_TypeError (point length sides rings dip : pyval F) :
  snd (Cone.__post_init__ point length sides rings dip) = Raise TypeError
  <->
  Point.isinstance point <> None /\
  (as_number length = None \/
   (exists l, as_number length = Some l /\ num_gt l 0 = true) /\
   as_int sides <> None /\ as_int rings <> None /\ as_number dip = None).
Proof.
  rewrite post_init_cases.
  destruct (Point.isinstance point) as [p|] eqn:Ep;
    [|cbn [snd]; split; [discriminate | intros [Hc _]; congruence]].
  destruct (as_number length) as [l|] eqn:El;
    [|cbn [snd]; split; [intros _; split; [congruence | now left]
                        | reflexivity]].
  destruct (num_gt l 0) eqn:Eg; cbn [negb snd].
  2:{ split; [discriminate|].
      intros [_ [Hc | ((l' & Hl & Hg) & _)]]; congruence. }
  destruct (as_int sides) as [s|] eqn:Es.
  2:{ cbn [snd]. split; [discriminate|].
      intros [_ [Hc | (_ & Hc & _)]]; congruence. }
  destruct (as_int rings) as [r|] eqn:Er.
  2:{ cbn [snd]. split; [discriminate|].
      intros [_ [Hc | (_ & _ & Hc & _)]]; congruence. }
  cbv zeta. destruct (as_number dip) as [d|] eqn:Ed.
  2:{ cbn [snd]. split; [|reflexivity]. intros _.
      split; [congruence|]. right. repeat split; try congruence.
      now exists l. }
  destruct (num_le d 0 || num_ge d 90); cbn [snd];
    (split; [discriminate|]);
    intros [_ [Hc | (_ & _ & _ & Hc)]]; congruence.
Qed.

(** What a successful construction stores and prints. *)
Lemma post_init_Ok (point length sides rings dip : pyval F)
      (out : list string) (self : Cone.t F) :
  Cone.__post_init__ point length sides rings dip = (out, Ok self) ->
  exists p l s r d,
    Point.isinstance point = Some p /\ as_number length = Some l /\
    as_int sides = Some s /\ as_int rings = Some r /\
    as_number dip = Some d /\
    num_gt l 0 = true /\ num_le d 0 = false /\ num_ge d 90 = false /\
    self = Cone.mk p l (Z.max s 3) (Z.max r 1) (math_radians (to_float d))
    /\
    out = (if s <? 3 then ["Number of sides set to 3"%string] else [])
          ++ (if r <? 1 then ["Number of rings set to 1"%string] else []).
Proof.
  rewrite post_init_cases.
  destruct (Point.isinstance point) as [p|]; [|discriminate].
  destruct (as_number length) as [l|]; [|discriminate].
  destruct (num_gt l 0) eqn:Eg; cbn [negb]; [|discriminate].
  destruct (as_int sides) as [s|]; [|discriminate].
  destruct (as_int rings) as [r|]; [|discriminate].
  cbv zeta. destruct (as_number dip) as [d|]; [|discriminate].
  destruct (num_le d 0) eqn:Ele; destruct (num_ge d 90) eqn:Ege;
    cbn [orb]; try discriminate.
  intros [= <- <-]. exists p, l, s, r, d.
  repeat split; assumption || reflexivity.
Qed.

(** When the constructor of [Point] raises ValueError. *)
Lemma point_ValueError (x y z : pyval F) :
  raises_ValueError (Point.__post_init__ x y z) <->
  as_number x = None \/ as_number y = None \/ as_number z = None.
Proof.
  unfold Point.__post_init__, raises_ValueError.
  destruct (as_number x); destruct (as_number y); destruct (as_number z);
    (split; [intros [msg Hm]; try discriminate; tauto
            | intros [Hc | [Hc | Hc]]; try discriminate;
              eexists; reflexivity]).
Qed.

(** C7, as the constructors decide.  Constructing a Cone raises ValueError
    if and only if point is no Point, or length is a number that is not
    greater than 0 (a length <= 0, or NaN), or -- length being a number --
    sides or rings is no int, or the dip is a number with dip <= 0 or
    dip >= 90; a length or a dip that is no number raises TypeError when
    its comparison is reached.  A successful construction stores
    max(sides, 3) and max(rings, 1) and prints one line per clamped
    attribute; so sides = 2 gives 3 and rings = 0 gives 1, each with its
    line; dip = 0 and dip = 90 are rejected and dip = 45 is accepted.
    Constructing a Point raises ValueError if and only if a coordinate is
    neither an int nor a float. *)
Theorem constructor_validation :
  (forall point length sides rings dip : pyval F,
      raises_ValueError
        (snd (Cone.__post_init__ point length sides rings dip)) <->
      Point.isinstance point = None \/
      (exists l, as_number length = Some l /\ num_gt l 0 = false) \/
      (as_number length <> None /\
       (as_int sides = None \/ as_int rings = None)) \/
      (as_number length <> None /\
       exists d, as_number dip = Some d /\
                 (num_le d 0 = true \/ num_ge d 90 = true))) /\
  (forall point length sides rings dip : pyval F,
      snd (Cone.__post_init__ point length sides rings dip) = Raise TypeError
      <->
      Point.isinstance point <> None /\
      (as_number length = None \/
       (exists l, as_number length = Some l /\ num_gt l 0 = true) /\
       as_int sides <> None /\ as_int rings <> None /\
       as_number dip = None)) /\
  (forall (point length sides rings dip : pyval F) out self,
      Cone.__post_init__ point length sides rings dip = (out, Ok self) ->
      exists s r,
        as_int sides = Some s /\ as_int rings = Some r /\
        Cone.sides self = Z.max s 3 /\ Cone.rings self = Z.max r 1 /\
        out = (if s <? 3 then ["Number of sides set to 3"%string] else [])
              ++ (if r <? 1 then ["Number of rings set to 1"%string]
                  else [])) /\
  Cone.__post_init__ origin (VInt 100) (VInt 2) (VInt 1) (VInt 45) =
  (["Number of sides set to 3"%string],
   Ok (Cone.mk (Point.mk (PyInt 0) (PyInt 0) (PyInt 0)) (PyInt 100) 3 1
               (math_radians (f_of_int 45)))) /\
  Cone.__post_init__ origin (VInt 100) (VInt 3) (VInt 0) (VInt 45) =
  (["Number of rings set to 1"%string],
   Ok (Cone.mk (Point.mk (PyInt 0) (PyInt 0) (PyInt 0)) (PyInt 100) 3 1
               (math_radians (f_of_int 45)))) /\
  Cone.__post_init__ origin (VInt 100) (VInt 3) (VInt 1) (VInt 0) =
  ([], Raise (ValueError
                "dip must be larger than (0 and smaller than 90]")) /\
  Cone.__post_init__ origin (VInt 100) (VInt 3) (VInt 1) (VInt 90) =
  ([], Raise (ValueError
                "dip must be larger than (0 and smaller than 90]")) /\
  Cone.__post_init__ origin (VInt 100) (VInt 3) (VInt 1) (VInt 45) =
  ([], Ok (Cone.mk (Point.mk (PyInt 0) (PyInt 0) (PyInt 0)) (PyInt 100) 3 1
                   (math_radians (f_of_int 45)))) /\
  (forall x y z : pyval F,
      raises_ValueError (Point.__post_init__ x y z) <->
      as_number x = None \/ as_number y = None \/ as_number z = None).
Proof.
  split; [exact post_init_ValueError|].
  split; [exact post_init_TypeError|].
  split.
  - intros point length sides rings dip out self Hok.
    destruct (post_init_Ok _ _ _ _ _ _ _ Hok)
      as (p & l & s & r & d & _ & _ & Hs & Hr & _ & _ & _ & _ & -> & ->).
    exists s, r. repeat split; assumption.
  - repeat split; try reflexivity; apply point_ValueError.
Qed.
End ValidationFacts.

(** In binary64 a NaN length is rejected with ValueError. *)
Lemma constructor_validation_nan :
  raises_ValueError
    (snd (Cone.__post_init__ (@origin float) (VFloat nan) (VInt 3) (VInt 1)
                             (VInt 45))).
Proof.
  apply (proj1 (@constructor_validation float Binary64)).
  right. left. exists (PyFloat nan). split; reflexivity.
Defined.

(** C7 as stated fails on a NaN length: Cone(Point(0, 0, 0), nan, 3, 1, 45)
    raises ValueError although the point is a Point, [length <= 0] is
    false, sides and rings are ints and the dip is neither <= 0 nor
    >= 90. *)
Lemma nan_length_is_rejected :
  Cone.__post_init__ (@origin float) (VFloat nan) (VInt 3) (VInt 1)
                     (VInt 45)
  = ([], Raise (ValueError "length must be a positive float")) /\
  Point.isinstance (@origin float)
  = Some (Point.mk (PyInt 0) (PyInt 0) (PyInt 0)) /\
  num_le (PyFloat nan) 0 = false /\
  as_int (@VInt float 3) = Some 3 /\
  as_int (@VInt float 1) = Some 1 /\
  num_le (@PyInt float 45) 0 = false /\
  num_ge (@PyInt float 45) 90 = false.
Proof. repeat split. Qed.

(** ** The invariants of a constructed descriptor (C8) *)

Lemma exact_num_le_false (a : number R) (k : Z) :
  num_le a k = false <-> (IZR k < to_float a)%R.
Proof.
  destruct a as [n|x]; simpl.
  - rewrite Z.leb_gt. split; [apply IZR_lt | apply lt_IZR].
  - unfold Rleb. destruct (Rle_dec x (IZR k)); split;
      try congruence; lra.
Qed.

Lemma exact_num_ge_false (a : number R) (k : Z) :
  num_ge a k = false <-> (to_float a < IZR k)%R.
Proof.
  destruct a as [n|x]; simpl.
  - rewrite Z.leb_gt. split; [apply IZR_lt | apply lt_IZR].
  - unfold Rleb. destruct (Rle_dec (IZR k) x); split;
      try congruence; lra.
Qed.

(** What the constructor establishes.  Every successfully constructed Cone
    has length > 0, sides >= 3, rings >= 1 and as its stored dip
    math.radians of the dip it was given, a number that is neither <= 0 nor
    >= 90.  In exact real arithmetic the stored dip equals
    dip_degrees * pi / 180, lies strictly between 0 and pi / 2, and the
    descriptor is valid.  The derivations are functions of the descriptor:
    they have no way to modify it. *)
Theorem constructed_invariants :
  (forall (F : Type) (ops : FloatOps F)
          (point length sides rings dip : pyval F) out self,
      Cone.__post_init__ point length sides rings dip = (out, Ok self) ->
      Point.isinstance point = Some (Cone.point self) /\
      as_number length = Some (Cone.length self) /\
      num_gt (Cone.length self) 0 = true /\
      3 <= Cone.sides self /\ 1 <= Cone.rings self /\
      exists deg, as_number dip = Some deg /\
                  num_le deg 0 = false /\ num_ge deg 90 = false /\
                  Cone.dip self = math_radians (to_float deg)) /\
  (forall (point length sides rings dip : pyval R) out self,
      Cone.__post_init__ point length sides rings dip = (out, Ok self) ->
      valid self /\
      exists deg, as_number dip = Some deg /\
                  (0 < to_float deg < 90)%R /\
                  Cone.dip self = (to_float deg * PI / 180)%R /\
                  (0 < Cone.dip self < PI / 2)%R).
Proof.
  split.
  - intros F ops point length sides rings dip out self Hok.
    destruct (post_init_Ok _ _ _ _ _ _ _ Hok)
      as (p & l & s & r & d & Hp & Hl & _ & _ & Hd & Hg & Hle & Hge
          & -> & _).
    cbn [Cone.point Cone.length Cone.sides Cone.rings Cone.dip].
    repeat split; try assumption; try lia.
    exists d. repeat split; assumption.
  - intros point length sides rings dip out self Hok.
    destruct (post_init_Ok _ _ _ _ _ _ _ Hok)
      as (p & l & s & r & d & Hp & Hl & _ & _ & Hd & Hg & Hle & Hge
          & -> & _).
    pose proof (proj1 (exact_num_le_false d 0) Hle) as Hd0.
    pose proof (proj1 (exact_num_ge_false d 90) Hge) as Hd90.
    assert (Hv : valid (Cone.mk p l (Z.max s 3) (Z.max r 1)
                                (math_radians (to_float d)))).
    { repeat split; cbn [Cone.sides Cone.rings Cone.length]; try lia;
        try assumption.
      exists d. repeat split.
      - now apply exact_num_gt.
      - now apply exact_num_lt. }
    split; [exact Hv|]. exists d. split; [exact Hd|].
    split; [lra|]. split.
    + cbn [Cone.dip]. unfold math_radians. simpl. lra.
    + apply (exact_valid_bounds _ Hv).
Qed.

(** Cone(Point(0, 0, 0), 100, 4, 2, 60) is constructed and valid. *)
Lemma constructed_invariants_scenario : valid (exact_cone 4 2).
Proof.
  exact (proj1 (proj2 constructed_invariants
                      origin (VInt 100) (VInt 4) (VInt 2) (VInt 60)
                      [] (exact_cone 4 2) eq_refl)).
Defined.

(** C8, at a NaN dip.  The test [self.dip <= 0 or self.dip >= 90] is false
    on both sides for NaN, where the test of the length,
    [not self.length > 0], rejects it: Cone(Point(0, 0, 0), 1, 3, 1, nan)
    is constructed in binary64, its stored dip is NaN, and neither
    0 < dip nor dip < pi / 2 holds. *)
Lemma nan_dip_is_accepted :
  Cone.__post_init__ (@origin float) (VInt 1) (VInt 3) (VInt 1)
                     (VFloat nan)
  = ([], Ok (Cone.mk (Point.mk (PyInt 0) (PyInt 0) (PyInt 0)) (PyInt 1) 3 1
                     nan)) /\
  f_ltb (f_of_int 0) nan = false /\
  f_ltb nan (f_div f_pi (f_of_int 2)) = false.
Proof. repeat split. Qed.

(** ** The argument of the square root (C9) *)

(** C9, in exact real arithmetic.  For every valid descriptor and every
    ring i in 0..rings the argument length^2 - radius(i)^2 of the square
    root is at least length^2 * sin(dip)^2, which is positive; so math.sqrt
    accepts every radicand and points_polar returns its list. *)
Theorem radicand_positive_exact (self : Cone.t R) :
  valid self ->
  (forall i, 0 <= i <= Cone.rings self ->
     let l := to_float (Cone.length self) in
     (0 < l * l * (sin (Cone.dip self) * sin (Cone.dip self))
        <= radicand self i)%R) /\
  heights_defined self /\
  exists pts, Cone.points_polar self = Ok pts.
Proof.
  intros Hv. split; [|split].
  - intros i Hi. now apply exact_radicand_bound.
  - now apply exact_heights_defined.
  - eexists. now apply exact_points_polar.
Qed.

(** points_polar of Cone(Point(0, 0, 0), 100, 4, 2, 60) returns. *)
Lemma radicand_positive_scenario :
  exists pts, Cone.points_polar (exact_cone 4 2) = Ok pts.
Proof.
  exact (proj2 (proj2 (radicand_positive_exact (exact_cone 4 2)
                         (exact_cone_valid 4 2 ltac:(lia) ltac:(lia))))).
Defined.

(** A descriptor of length 0.1 with three rings and three sides, in
    binary64, whose dip has the cosine 1.0: where [**] does not overflow
    at the length and at the four radii, and gives the correctly rounded
    square of the length 0.1 and of the radius of ring 3, that radius is
    3 * 0.1 * 1.0 / 3 = 0.10000000000000002, the radicand
    0.1 ** 2 - 0.10000000000000002 ** 2 is negative, and points_polar
    raises ValueError('math domain error'). *)
Lemma radius_exceeds_length (libm : Libm float) (self : Cone.t float) :
  Cone.length self = PyFloat 0x1.999999999999ap-4%float ->
  Cone.rings self = 3 -> Cone.sides self = 3 ->
  math_cos (Cone.dip self) = 1%float ->
  pow2_overflows 0x1.999999999999ap-4%float = false ->
  (forall i, 0 <= i <= 3 ->
             pow2_overflows (radius_value self i) = false) ->
  math_pow2 0x1.999999999999ap-4%float
  = (0x1.999999999999ap-4 * 0x1.999999999999ap-4)%float ->
  math_pow2 (radius_value self 3)
  = (radius_value self 3 * radius_value self 3)%float ->
  radius_value self 3 = 0x1.999999999999bp-4%float /\
  f_ltb (radicand self 3) (f_of_int 0) = true /\
  Cone.points_polar self = Raise (ValueError "math domain error").
Proof.
  intros Hlen Hrings Hsides Hcos Hl Hov Hpl Hp3.
  assert (Hr3 : radius_value self 3 = 0x1.999999999999bp-4%float).
  { unfold radius_value. rewrite Hcos, Hlen, Hrings. reflexivity. }
  assert (Hneg : f_ltb (radicand self 3) (f_of_int 0) = true).
  { unfold radicand. rewrite Hp3, Hr3, Hlen. cbn [num_pow2 to_float].
    rewrite Hpl. reflexivity. }
  split; [exact Hr3|]. split; [exact Hneg|].
  rewrite points_polar_cases; [|lia|lia|].
  - rewrite Hrings. change (range (3 + 1)) with [0; 1; 2; 3].
    cbn [forallb]. rewrite Hneg. cbn [negb].
    now rewrite !andb_false_r.
  - split.
    + intros i Hi. rewrite Hrings in Hi.
      unfold height_runs, radius_runs, domain_error.
      rewrite Hcos, Hlen, Hrings, (Hov i Hi), Hl.
      assert (Ei : i = 0 \/ i = 1 \/ i = 2 \/ i = 3) by lia.
      destruct Ei as [-> | [-> | [-> | ->]]]; reflexivity.
    + intros j Hj. rewrite Hsides in Hj. unfold angle_runs.
      rewrite Hsides.
      assert (Ej : j = 0 \/ j = 1 \/ j = 2) by lia.
      destruct Ej as [-> | [-> | ->]]; reflexivity.
Qed.

(** C9 as stated fails in binary64: Cone(Point(0, 0, 0), 0.1, 3, 3, 5e-324)
    is constructed and valid, and its dip in radians is 0.0.  With any C
    library, for which cos(0.0) = 1.0, whose pow does not overflow at the
    length and at the four radii and squares 0.1 and the radius of ring 3
    with correct rounding (as glibc's does: 0.1 ** 2 is
    0.010000000000000002 and 0.10000000000000002 ** 2 is
    0.010000000000000004), the radius of ring 3 is
    3 * 0.1 * 1.0 / 3 = 0.10000000000000002, the radicand
    0.1 ** 2 - 0.10000000000000002 ** 2 is negative, and points_polar
    raises ValueError('math domain error'). *)
Lemma sqrt_domain_error_binary64 :
  Cone.__post_init__ origin (VFloat 0x1.999999999999ap-4%float) (VInt 3)
                     (VInt 3) (VFloat 0x1p-1074%float)
  = ([], Ok grazing_cone) /\
  valid grazing_cone /\
  forall libm : Libm float,
    pow2_overflows 0x1.999999999999ap-4%float = false ->
    (forall i, 0 <= i <= 3 ->
               pow2_overflows (radius_value grazing_cone i) = false) ->
    math_pow2 0x1.999999999999ap-4%float
    = (0x1.999999999999ap-4 * 0x1.999999999999ap-4)%float ->
    math_pow2 (radius_value grazing_cone 3)
    = (radius_value grazing_cone 3 * radius_value grazing_cone 3)%float ->
    radius_value grazing_cone 3 = 0x1.999999999999bp-4%float /\
    f_ltb (radicand grazing_cone 3) (f_of_int 0) = true /\
    Cone.points_polar grazing_cone
    = Raise (ValueError "math domain error").
Proof.
  split; [reflexivity|]. split.
  - repeat split; try (cbn; lia).
    exists (PyFloat 0x1p-1074%float). repeat split.
  - intros libm. apply radius_exceeds_length; try reflexivity.
    exact math_cos_0.
Qed.

(** The same fault at an everyday dip: with a C library as before whose
    cosine of 1.7453292519943296e-12 is 1.0 (the correctly rounded
    value), Cone(Point(0, 0, 0), 0.1, 3, 3, 1e-10) is constructed and its
    points_polar raises ValueError('math domain error'). *)
Remark sqrt_domain_error_small_dip (libm : Libm float) :
  math_cos (Cone.dip shallow_cone) = 1%float ->
  pow2_overflows 0x1.999999999999ap-4%float = false ->
  (forall i, 0 <= i <= 3 ->
             pow2_overflows (radius_value shallow_cone i) = false) ->
  math_pow2 0x1.999999999999ap-4%float
  = (0x1.999999999999ap-4 * 0x1.999999999999ap-4)%float ->
  math_pow2 (radius_value shallow_cone 3)
  = (radius_value shallow_cone 3 * radius_value shallow_cone 3)%float ->
  Cone.__post_init__ origin (VFloat 0x1.999999999999ap-4%float) (VInt 3)
                     (VInt 3) (VFloat 0x1.b7cdfd9d7bdbbp-34%float)
  = ([], Ok shallow_cone) /\
  Cone.points_polar shallow_cone = Raise (ValueError "math domain error").
Proof.
  intros Hcos Hl Hov Hpl Hp3. split; [reflexivity|].
  now apply (radius_exceeds_length libm shallow_cone).
Qed.

(** ** Booleans (C10) *)

Section BoolFacts.
Context {F : Type} `{FloatOps F}.

(** C10.  A bool passes the numeric check of Point and the integer check
    of Cone as the int 0 or 1: Point(True, False, 0) is constructed with
    the coordinates 1, 0, 0; a bool in any coordinate, and a bool for
    sides or rings, gives what the int it stands for gives; and
    sides = True is accepted and clamped to 3. *)
Theorem bool_is_int :
  Point.__post_init__ (F := F) (VBool true) (VBool false) (VInt 0)
  = Ok (Point.mk (PyInt 1) (PyInt 0) (PyInt 0)) /\
  (forall (b : bool) (u v : pyval F),
      Point.__post_init__ (VBool b) u v
      = Point.__post_init__ (VInt (Z.b2z b)) u v /\
      Point.__post_init__ u (VBool b) v
      = Point.__post_init__ u (VInt (Z.b2z b)) v /\
      Point.__post_init__ u v (VBool b)
      = Point.__post_init__ u v (VInt (Z.b2z b))) /\
  (forall (b : bool) (point length rings dip : pyval F),
      Cone.__post_init__ point length (VBool b) rings dip
      = Cone.__post_init__ point length (VInt (Z.b2z b)) rings dip) /\
  (forall (b : bool) (point length sides dip : pyval F),
      Cone.__post_init__ point length sides (VBool b) dip
      = Cone.__post_init__ point length sides (VInt (Z.b2z b)) dip) /\
  Cone.__post_init__ origin (VInt 100) (VBool true) (VInt 2) (VInt 60)
  = (["Number of sides set to 3"%string],
     Ok (Cone.mk (Point.mk (PyInt 0) (PyInt 0) (PyInt 0)) (PyInt 100) 3 2
                 (math_radians (f_of_int 60)))).
Proof.
  split; [reflexivity|]. split; [|split; [|split]].
  - intros b u v. repeat split; reflexivity.
  - intros b point length rings dip. now rewrite !post_init_cases.
  - intros b point length sides dip. now rewrite !post_init_cases.
  - reflexivity.
Qed.
End BoolFacts.

(** ** When points_polar returns *)

Section ReturnFacts.
Context {F : Type} `{FloatOps F} `{!Libm F}.
Implicit Types (self : Cone.t F).

(** An exception of points_cartesian leaves indices and faces, and one of
    points_polar leaves points_cartesian. *)
Lemma cartesian_raise_propagates self (e : exn) :
  Cone.points_cartesian self = Raise e ->
  Cone.indices self = Raise e /\ Cone.faces self = Raise e.
Proof.
  intros Hc. unfold Cone.faces, Cone.indices. now rewrite Hc.
Qed.

Lemma polar_raise_propagates self (e : exn) :
  Cone.points_polar self = Raise e ->
  Cone.points_cartesian self = Raise e /\
  Cone.indices self = Raise e /\ Cone.faces self = Raise e.
Proof.
  intros Hp.
  assert (Hc : Cone.points_cartesian self = Raise e)
    by (unfold Cone.points_cartesian; now rewrite Hp).
  split; [exact Hc | now apply cartesian_raise_propagates].
Qed.

(** For rings >= 1 and sides >= 1, points_polar returns a list exactly
    when nothing overflows (every int that is converted is in the range of
    float, no [**] overflows, math.cos accepts the dip) and math.sqrt
    accepts the radicand of every ring.  Where nothing overflows and the
    radicand of some ring is negative, math.sqrt raises
    ValueError('math domain error'), which leaves points_polar and with it
    points_cartesian, indices and faces.  Whatever points_polar raises is
    that ValueError or OverflowError, and leaves the other three too. *)
Theorem points_polar_returns_iff self :
  1 <= Cone.sides self -> 1 <= Cone.rings self ->
  ((exists pts, Cone.points_polar self = Ok pts) <->
   polar_runs self /\ heights_defined self) /\
  (polar_runs self ->
   (exists i, 0 <= i <= Cone.rings self /\
              f_ltb (radicand self i) (f_of_int 0) = true) ->
   Cone.points_polar self = Raise (ValueError "math domain error") /\
   Cone.points_cartesian self = Raise (ValueError "math domain error") /\
   Cone.indices self = Raise (ValueError "math domain error") /\
   Cone.faces self = Raise (ValueError "math domain error")) /\
  (forall e, Cone.points_polar self = Raise e ->
     arithmetic_error e /\
     Cone.points_cartesian self = Raise e /\
     Cone.indices self = Raise e /\ Cone.faces self = Raise e).
Proof.
  intros Hs Hr. split; [|split].
  - split.
    + intros Hret.
      destruct (points_polar_returned self Hs Hr Hret) as (Hrun & Hh & _).
      now split.
    + intros [Hrun Hh]. eexists. now apply points_polar_ok.
  - intros Hrun (i & Hi & Hneg).
    assert (Hp : Cone.points_polar self
                 = Raise (ValueError "math domain error")).
    { rewrite (points_polar_cases self Hs Hr Hrun).
      destruct (forallb (fun i => negb (f_ltb (radicand self i)
                                              (f_of_int 0)))
                        (range (Cone.rings self + 1))) eqn:Hall;
        [|reflexivity].
      rewrite forallb_forall in Hall.
      specialize (Hall i ltac:(apply In_range; lia)).
      rewrite Hneg in Hall. discriminate. }
    split; [exact Hp | now apply polar_raise_propagates].
  - intros e He. split; [now apply (points_polar_raised self e)|].
    now apply polar_raise_propagates.
Qed.
End ReturnFacts.

(** points_polar of Cone(Point(0, 0, 0), 100, 4, 2, 60) returns: in exact
    arithmetic nothing overflows and every radicand is accepted. *)
Lemma points_polar_returns_scenario :
  exists pts, Cone.points_polar (exact_cone 4 2) = Ok pts.
Proof.
  apply (proj2 (proj1 (points_polar_returns_iff (exact_cone 4 2)
                         ltac:(simpl; lia) ltac:(simpl; lia)))).
  split; [apply exact_polar_runs | apply exact_cone_heights; lia].
Defined.

(** * Further properties of the notebook's functions *)

(** ** _shift *)

Lemma shift_ok {A : Type} (seq : list A) (n : Z) :
  seq <> [] ->
  exists l,
    Cone._shift seq n = Ok l /\
    List.length l = List.length seq /\
    Permutation seq l /\
    forall k, (k < List.length seq)%nat ->
      nth_error l k =
      nth_error seq
        (Z.to_nat ((Z.of_nat k + n) mod Z.of_nat (List.length seq))).
Proof.
  intros Hne. unfold Cone._shift.
  assert (Hlen : (0 < List.length seq)%nat)
    by (destruct seq; [congruence | simpl; lia]).
  destruct (Z.eqb_spec (Z.of_nat (List.length seq)) 0) as [E|_]; [lia|].
  set (len := List.length seq) in *.
  pose proof (Z.mod_pos_bound n (Z.of_nat len) ltac:(lia)) as Hm.
  remember (Z.to_nat (n mod Z.of_nat len)) as m eqn:Em.
  assert (Hm' : (m < len)%nat) by lia.
  eexists. split; [reflexivity|]. split; [|split].
  - rewrite length_app, length_skipn, length_firstn. fold len. lia.
  - rewrite <- (firstn_skipn m seq) at 1. apply Permutation_app_comm.
  - intros k Hk.
    rewrite <- (Z.add_mod_idemp_r (Z.of_nat k) n) by lia.
    replace (n mod Z.of_nat len) with (Z.of_nat m) by lia.
    destruct (Nat.lt_ge_cases k (len - m)) as [Hlt | Hge].
    + rewrite nth_error_app1 by (rewrite length_skipn; fold len; lia).
      rewrite nth_error_skipn.
      rewrite Z.mod_small by lia. f_equal. lia.
    + rewrite nth_error_app2 by (rewrite length_skipn; fold len; lia).
      rewrite length_skipn. fold len.
      rewrite nth_error_firstn.
      destruct (Nat.ltb_spec (k - (len - m)) m) as [_|Hc]; [|lia].
      replace (Z.of_nat k + Z.of_nat m)
        with (Z.of_nat (k - (len - m)) + 1 * Z.of_nat len) by lia.
      rewrite Z.mod_add by lia. rewrite Z.mod_small by lia.
      f_equal. lia.
Qed.

(** _shift(seq, n) raises ZeroDivisionError on an empty sequence; on a
    non-empty one it returns, for every integer n (negative ones
    included), a rearrangement of seq of the same length whose element k is
    seq[(k + n) mod len(seq)]. *)
Theorem shift_rotates {A : Type} (seq : list A) (n : Z) :
  (seq = [] -> Cone._shift seq n = Raise ZeroDivisionError) /\
  (seq <> [] ->
   exists l,
     Cone._shift seq n = Ok l /\
     List.length l = List.length seq /\
     Permutation seq l /\
     forall k, (k < List.length seq)%nat ->
       nth_error l k =
       nth_error seq
         (Z.to_nat ((Z.of_nat k + n) mod Z.of_nat (List.length seq)))).
Proof.
  split; [intros ->; reflexivity | apply shift_ok].
Qed.

(** _shift([2, 3, 4], -1) returns a rearrangement of [2, 3, 4] whose
    element k is seq[(k - 1) mod 3]. *)
Lemma shift_rotates_example :
  exists l,
    Cone._shift [2; 3; 4] (-1) = Ok l /\
    List.length l = 3%nat /\
    Permutation [2; 3; 4] l /\
    forall k, (k < 3)%nat ->
      nth_error l k =
      nth_error [2; 3; 4] (Z.to_nat ((Z.of_nat k + -1) mod 3)).
Proof.
  exact (proj2 (shift_rotates [2; 3; 4] (-1)) ltac:(discriminate)).
Defined.

Lemma shift_nonempty {A : Type} (seq l : list A) (n : Z) :
  Cone._shift seq n = Ok l -> seq <> [] -> l <> [].
Proof.
  intros Hs Hne. destruct (shift_ok seq n Hne) as (l' & Hl' & Hlen & _).
  rewrite Hs in Hl'. injection Hl' as <-.
  destruct seq; [congruence|]. destruct l; [discriminate | congruence].
Qed.

(** Two shifts compose to the shift by the sum; so a shift by a multiple
    of the length returns the sequence itself, and shifting by n and then
    by -n restores it. *)
Theorem shift_composes {A : Type} (seq : list A) (m n q : Z) :
  seq <> [] ->
  (l <- Cone._shift seq m ;; Cone._shift l n) = Cone._shift seq (m + n) /\
  Cone._shift seq (q * Z.of_nat (List.length seq)) = Ok seq /\
  (l <- Cone._shift seq n ;; Cone._shift l (- n)) = Ok seq.
Proof.
  intros Hne.
  assert (Hlen : (0 < List.length seq)%nat)
    by (destruct seq; [congruence | simpl; lia]).
  assert (Hcomp : forall a b,
             (l <- Cone._shift seq a ;; Cone._shift l b)
             = Cone._shift seq (a + b)).
  { intros a b.
    destruct (shift_ok seq a Hne) as (l1 & H1 & Hl1 & _ & Hn1).
    rewrite H1. cbn [bind].
    assert (Hne1 : l1 <> []) by (eapply shift_nonempty; eauto).
    destruct (shift_ok l1 b Hne1) as (l2 & H2 & Hl2 & _ & Hn2).
    destruct (shift_ok seq (a + b) Hne) as (l3 & H3 & Hl3 & _ & Hn3).
    rewrite H2, H3. f_equal. apply nth_error_ext. intros k.
    destruct (Nat.lt_ge_cases k (List.length seq)) as [Hk | Hk].
    - rewrite Hn2 by lia. rewrite Hn3 by exact Hk. rewrite Hl1.
      pose proof (Z.mod_pos_bound (Z.of_nat k + b)
                    (Z.of_nat (List.length seq)) ltac:(lia)) as Hb.
      rewrite Hn1 by lia. f_equal. f_equal.
      rewrite Z2Nat.id by lia.
      rewrite Z.add_mod_idemp_l by lia. f_equal. lia.
    - rewrite (proj2 (nth_error_None l2 k)) by lia.
      now rewrite (proj2 (nth_error_None l3 k)) by lia. }
  assert (Hmult : forall c,
             Cone._shift seq (c * Z.of_nat (List.length seq)) = Ok seq).
  { intros c.
    destruct (shift_ok seq (c * Z.of_nat (List.length seq)) Hne)
      as (l & Hl & Hll & _ & Hnl).
    rewrite Hl. f_equal. apply nth_error_ext. intros k.
    destruct (Nat.lt_ge_cases k (List.length seq)) as [Hk | Hk].
    - rewrite Hnl by exact Hk. rewrite Z.mod_add by lia.
      rewrite Z.mod_small by lia. now rewrite Nat2Z.id.
    - rewrite (proj2 (nth_error_None l k)) by lia.
      now rewrite (proj2 (nth_error_None seq k)) by lia. }
  split; [apply Hcomp|]. split; [apply Hmult|].
  rewrite Hcomp. replace (n + - n) with (0 * Z.of_nat (List.length seq))
    by lia.
  apply Hmult.
Qed.

(** [1, 2, 3, 4] shifted by 1 and then by -1 is [1, 2, 3, 4] again. *)
Lemma shift_composes_example :
  (l <- Cone._shift [1; 2; 3; 4] 1 ;; Cone._shift l (-1))
  = Ok [1; 2; 3; 4].
Proof.
  exact (proj2 (proj2 (shift_composes [1; 2; 3; 4] 0 1 0
                         ltac:(discriminate)))).
Defined.

(** ** The exceptions of the derivations *)

Section FaultFacts.
Context {F : Type} `{FloatOps F} `{!Libm F}.
Implicit Types (self : Cone.t F).

(** On a valid descriptor the only exceptions that leave the four
    derivations are those of the arithmetic of points_polar and
    points_cartesian, ValueError('math domain error') and OverflowError:
    no IndexError, ZeroDivisionError or TypeError.  indices and faces add
    none of their own: where points_cartesian returns they return, and
    what points_cartesian raises they raise. *)
Theorem derivations_return_or_domain_error self :
  valid self ->
  (forall e, Cone.points_polar self = Raise e -> arithmetic_error e) /\
  (forall e, Cone.points_cartesian self = Raise e ->
     arithmetic_error e /\
     Cone.indices self = Raise e /\ Cone.faces self = Raise e) /\
  (forall cart, Cone.points_cartesian self = Ok cart ->
     exists pts idxs fs,
       Cone.points_polar self = Ok pts /\
       Cone.indices self = Ok idxs /\
       Cone.faces self = Ok fs).
Proof.
  intros (Hs & Hr & _).
  assert (Hs1 : 1 <= Cone.sides self) by lia.
  split; [|split].
  - intros e. now apply points_polar_raised.
  - intros e He. split; [now apply (points_cartesian_raised self e)|].
    now apply cartesian_raise_propagates.
  - intros cart Hc.
    destruct (points_cartesian_tags self cart Hc) as (pts & Hp & _).
    exists pts. eexists _, _. split; [exact Hp|].
    split; [apply (indices_ok self Hs1 Hr (ex_intro _ cart Hc))|].
    apply (faces_ok self Hs1 Hr (ex_intro _ cart Hc)).
Qed.
End FaultFacts.

(** Cone(Point(0, 0, 0), 100, 4, 2, 60): the derivations return. *)
Lemma derivations_return_scenario :
  exists fs, Cone.faces (exact_cone 4 2) = Ok fs.
Proof.
  destruct (exact_cone_returns 4 2 ltac:(lia) ltac:(lia)) as [cart Hc].
  destruct (proj2 (proj2 (derivations_return_or_domain_error
                            (exact_cone 4 2)
                            (exact_cone_valid 4 2 ltac:(lia) ltac:(lia))))
              cart Hc) as (pts & idxs & fs & _ & _ & Hf).
  now exists fs.
Defined.

(** ** The geometry of the points, in exact arithmetic *)

Section PositionFacts.
Context {F : Type} `{FloatOps F} `{!Libm F}.
Implicit Types (self : Cone.t F).

(** The point of ring [i] and side [j] inside the list of points_polar. *)
Lemma nth_error_polar self (i j : Z) :
  1 <= Cone.sides self -> 1 <= Cone.rings self ->
  0 <= i <= Cone.rings self -> 0 <= j < Cone.sides self ->
  (i = 0 -> j = 0) ->
  nth_error (flat_map (ring_points self) (range (Cone.rings self + 1))
             ++ [surface_point]) (position self i j)
  = Some (polar_at self i j).
Proof.
  intros Hs Hr Hi Hj Hij. rewrite range_cons by lia.
  replace (Z.to_nat (Cone.rings self + 1) - 1)%nat
    with (Z.to_nat (Cone.rings self)) by lia.
  cbn [flat_map]. change (ring_points self 0) with [polar_at self 0 0].
  cbn [app].
  pose proof (length_ring_blocks self (Z.to_nat (Cone.rings self))) as Hlen.
  remember (Z.to_nat (Cone.rings self)) as n eqn:En.
  remember (Z.to_nat (Cone.sides self)) as s eqn:Es.
  unfold position. destruct (Z.eqb_spec i 0) as [-> | Hne].
  - now rewrite (Hij eq_refl).
  - replace (Z.to_nat (1 + (i - 1) * Cone.sides self + j))
      with (S (Z.to_nat (i - 1) * s + Z.to_nat j)) by nia.
    cbn [nth_error]. rewrite nth_error_app1 by (rewrite Hlen; nia).
    rewrite (nth_error_flat_map_uniform _ s _ _ _ i).
    + now apply nth_error_ring_points.
    + intros y Hy. apply In_rings_from in Hy. rewrite length_ring_points.
      destruct (Z.eqb_spec y 0); [lia | now rewrite Es].
    + rewrite nth_error_rings_from by lia. f_equal. lia.
    + lia.
Qed.

Lemma nth_error_surface self :
  1 <= Cone.sides self -> 1 <= Cone.rings self ->
  nth_error (flat_map (ring_points self) (range (Cone.rings self + 1))
             ++ [surface_point])
            (Z.to_nat (Cone.rings self * Cone.sides self + 1))
  = Some surface_point.
Proof.
  intros Hs Hr. rewrite range_cons by lia.
  replace (Z.to_nat (Cone.rings self + 1) - 1)%nat
    with (Z.to_nat (Cone.rings self)) by lia.
  cbn [flat_map]. change (ring_points self 0) with [polar_at self 0 0].
  cbn [app].
  pose proof (length_ring_blocks self (Z.to_nat (Cone.rings self))) as Hlen.
  remember (Z.to_nat (Cone.rings self)) as n eqn:En.
  remember (Z.to_nat (Cone.sides self)) as s eqn:Es.
  replace (Z.to_nat (Cone.rings self * Cone.sides self + 1))
    with (S (n * s)) by nia.
  cbn [nth_error]. rewrite nth_error_app2 by (rewrite Hlen; lia).
  now rewrite Hlen, Nat.sub_diag.
Qed.
End PositionFacts.

Lemma exact_num_add_float (a : number R) (v : R) :
  num_add a (PyFloat v) = PyFloat (to_float a + v)%R.
Proof. destruct a; reflexivity. Qed.

(** The height of a ring lies between -length and -length * sin(dip), and
    radius and height together have the length of the borehole. *)
Lemma exact_height_bounds (self : Cone.t R) (i : Z) :
  valid self -> 0 <= i <= Cone.rings self ->
  let l := to_float (Cone.length self) in
  (radius_value self i * radius_value self i
   + height_value self i * height_value self i = l * l)%R /\
  (- l <= height_value self i <= - (l * sin (Cone.dip self)))%R.
Proof.
  intros Hv Hi l.
  destruct (exact_valid_bounds self Hv) as [Hl [Hd0 Hd1]]. fold l in Hl.
  pose proof (exact_radicand_bound self i Hv Hi) as Hb.
  cbv zeta in Hb. fold l in Hb.
  assert (Hs : (0 < sin (Cone.dip self))%R) by (apply sin_gt_0; lra).
  assert (Hrad : radicand self i
                 = (l * l - radius_value self i * radius_value self i)%R).
  { unfold radicand. rewrite exact_to_float_pow2. reflexivity. }
  change (height_value self i) with (- sqrt (radicand self i))%R.
  set (rad := radicand self i) in *.
  assert (Hrad0 : (0 <= rad)%R) by lra.
  pose proof (sqrt_sqrt rad Hrad0) as Hsq.
  split; [rewrite Rmult_opp_opp, Hsq; lra|]. split.
  - apply Ropp_le_contravar.
    rewrite <- (sqrt_square l) by lra. apply sqrt_le_1_alt.
    pose proof (Rle_0_sqr (radius_value self i)) as Hr2.
    unfold Rsqr in Hr2. lra.
  - apply Ropp_le_contravar.
    rewrite <- (sqrt_square (l * sin (Cone.dip self))) by nra.
    apply sqrt_le_1_alt. lra.
Qed.

(** In exact arithmetic every Cartesian point of the rings 0..rings lies
    on the sphere of radius [length] around the point on the surface, at a
    depth between length * sin(dip) and length below it; the last point,
    tagged -1, is the point on the surface itself. *)
Theorem ring_points_on_sphere (self : Cone.t R) :
  valid self ->
  let px := to_float (Point.x (Cone.point self)) in
  let py := to_float (Point.y (Cone.point self)) in
  let pz := to_float (Point.z (Cone.point self)) in
  let l := to_float (Cone.length self) in
  exists cart,
    Cone.points_cartesian self = Ok cart /\
    (forall i j,
        0 <= i <= Cone.rings self -> 0 <= j < Cone.sides self ->
        (i = 0 -> j = 0) ->
        exists X Y Z,
          nth_error cart (position self i j)
          = Some (i, PyFloat X, PyFloat Y, PyFloat Z) /\
          ((X - px) * (X - px) + (Y - py) * (Y - py)
           + (Z - pz) * (Z - pz) = l * l)%R /\
          (pz - l <= Z <= pz - l * sin (Cone.dip self))%R) /\
    exists X Y Z,
      nth_error cart
        (Z.to_nat (Cone.rings self * Cone.sides self + 1))
      = Some (-1, X, Y, Z) /\
      to_float X = px /\ to_float Y = py /\ to_float Z = pz.
Proof.
  intros Hv px py pz l.
  pose proof Hv as (Hs & Hr & _).
  assert (Hs1 : 1 <= Cone.sides self) by lia.
  eexists. split; [apply (exact_points_cartesian self Hv)|].
  split.
  - intros i j Hi Hj Hij.
    rewrite nth_error_map, (nth_error_polar self i j) by (trivial; lia).
    cbn [option_map polar_at cartesian_value].
    rewrite exact_num_add_float.
    cbn [to_float f_add f_mul Exact math_cos math_sin ExactLibm].
    eexists _, _, _. split; [reflexivity|].
    destruct (exact_height_bounds self i Hv Hi) as [Hsum Hh].
    fold l in Hsum, Hh. fold px py pz.
    set (r := radius_value self i) in *.
    set (h := height_value self i) in *.
    set (a := angle_value self j).
    pose proof (sin2_cos2 a) as Ha. unfold Rsqr in Ha.
    split; [|lra].
    replace ((px + r * cos a - px) * (px + r * cos a - px)
             + (py + r * sin a - py) * (py + r * sin a - py)
             + (pz + h - pz) * (pz + h - pz))%R
      with (r * r * (sin a * sin a + cos a * cos a) + h * h)%R by ring.
    rewrite Ha. lra.
  - rewrite nth_error_map, (nth_error_surface self) by (trivial; lia).
    cbn [option_map surface_point cartesian_value]. eexists _, _, _.
    split; [reflexivity|]. subst px py pz.
    cbn [to_float f_add f_mul f_of_int Exact].
    repeat split; try lra.
    destruct (Point.z (Cone.point self)) as [n|z];
      cbn [num_add to_float f_add f_of_int Exact].
    + f_equal. lia.
    + lra.
Qed.

(** The tip of Cone(Point(0, 0, 0), 100, 4, 2, 60) is a point of its
    Cartesian list. *)
Lemma ring_points_on_sphere_scenario :
  exists cart X Y Z,
    Cone.points_cartesian (exact_cone 4 2) = Ok cart /\
    nth_error cart 0 = Some (0, PyFloat X, PyFloat Y, PyFloat Z) /\
    (Z >= -100)%R.
Proof.
  destruct (ring_points_on_sphere (exact_cone 4 2)
              (exact_cone_valid 4 2 ltac:(lia) ltac:(lia)))
    as (cart & Hc & Hring & _).
  destruct (Hring 0 0 ltac:(simpl; lia) ltac:(simpl; lia) ltac:(trivial))
    as (X & Y & Z & Hn & _ & Hz).
  exists cart, X, Y, Z. split; [exact Hc|]. split; [exact Hn|].
  simpl in Hz. lra.
Defined.

Lemma exact_radius_value (self : Cone.t R) (i : Z) :
  radius_value self i
  = (IZR i * to_float (Cone.length self) * cos (Cone.dip self)
     / IZR (Cone.rings self))%R.
Proof. unfold radius_value. now rewrite exact_to_float_mul. Qed.

Lemma exact_height_value (self : Cone.t R) (i : Z) :
  height_value self i
  = (- sqrt (to_float (Cone.length self) * to_float (Cone.length self)
             - radius_value self i * radius_value self i))%R.
Proof.
  unfold height_value, radicand. now rewrite exact_to_float_pow2.
Qed.

(** In exact arithmetic the tip (ring 0) has radius 0 and height -length;
    the rim (ring [rings]) has radius length * cos(dip) and height
    -length * sin(dip); and from ring to ring the radius grows and the
    points rise. *)
Theorem tip_and_rim (self : Cone.t R) :
  valid self ->
  let l := to_float (Cone.length self) in
  Cone.radius self 0 = Ok (PyFloat 0%R) /\
  Cone.height self 0 = Ok (PyFloat (- l)%R) /\
  Cone.radius self (Cone.rings self)
  = Ok (PyFloat (l * cos (Cone.dip self))%R) /\
  Cone.height self (Cone.rings self)
  = Ok (PyFloat (- (l * sin (Cone.dip self)))%R) /\
  forall i i', 0 <= i <= i' -> i' <= Cone.rings self ->
    exists r r' h h',
      Cone.radius self i = Ok (PyFloat r) /\
      Cone.radius self i' = Ok (PyFloat r') /\
      Cone.height self i = Ok (PyFloat h) /\
      Cone.height self i' = Ok (PyFloat h') /\
      (0 <= r <= r')%R /\ (h <= h')%R.
Proof.
  intros Hv l. pose proof Hv as (_ & Hr & _).
  destruct (exact_valid_bounds self Hv) as [Hl [Hd0 Hd1]]. fold l in Hl.
  pose proof (exact_heights_defined self Hv) as Hh.
  assert (Hn : (1 <= IZR (Cone.rings self))%R) by (now apply IZR_le in Hr).
  assert (Hc : (0 < cos (Cone.dip self))%R) by (apply cos_gt_0; lra).
  assert (Hs : (0 < sin (Cone.dip self))%R) by (apply sin_gt_0; lra).
  pose proof (sin2_cos2 (Cone.dip self)) as Hsc. unfold Rsqr in Hsc.
  assert (Hr0 : radius_value self 0 = 0%R)
    by (rewrite exact_radius_value; field; lra).
  assert (Hrn : radius_value self (Cone.rings self)
                = (l * cos (Cone.dip self))%R)
    by (rewrite exact_radius_value; fold l; field; lra).
  repeat split.
  - rewrite exact_radius_ok by lia. now rewrite Hr0.
  - rewrite (exact_height_ok self _ Hv) by lia. do 2 f_equal.
    rewrite exact_height_value, Hr0. fold l. f_equal.
    replace (l * l - 0 * 0)%R with (l * l)%R by ring.
    apply sqrt_square. lra.
  - rewrite exact_radius_ok by lia. now rewrite Hrn.
  - rewrite (exact_height_ok self _ Hv) by lia. do 2 f_equal.
    rewrite exact_height_value, Hrn. fold l. f_equal.
    replace (l * l - l * cos (Cone.dip self) * (l * cos (Cone.dip self)))%R
      with ((l * sin (Cone.dip self)) * (l * sin (Cone.dip self)))%R
      by (replace (cos (Cone.dip self) * cos (Cone.dip self))%R
            with (1 - sin (Cone.dip self) * sin (Cone.dip self))%R
            by lra; ring_simplify;
          replace (cos (Cone.dip self) ^ 2)%R
            with (1 - sin (Cone.dip self) * sin (Cone.dip self))%R
            by (simpl; lra); ring).
    apply sqrt_square. nra.
  - intros i i' Hi Hi'.
    exists (radius_value self i), (radius_value self i'),
           (height_value self i), (height_value self i').
    rewrite !exact_radius_ok by lia.
    rewrite !(exact_height_ok self _ Hv) by lia.
    repeat split.
    + rewrite exact_radius_value. fold l.
      apply Rmult_le_pos; [|left; apply Rinv_0_lt_compat; lra].
      apply Rmult_le_pos; [|lra]. apply Rmult_le_pos; [|lra].
      apply (IZR_le 0). lia.
    + rewrite !exact_radius_value. fold l.
      apply Rmult_le_compat_r; [left; apply Rinv_0_lt_compat; lra|].
      apply Rmult_le_compat_r; [lra|]. apply Rmult_le_compat_r; [lra|].
      apply IZR_le. lia.
    + rewrite !exact_height_value. fold l.
      apply Ropp_le_contravar. apply sqrt_le_1_alt.
      assert (H0 : (0 <= radius_value self i)%R).
      { rewrite exact_radius_value. fold l.
        apply Rmult_le_pos; [|left; apply Rinv_0_lt_compat; lra].
        apply Rmult_le_pos; [|lra]. apply Rmult_le_pos; [|lra].
        apply (IZR_le 0). lia. }
      assert (H1 : (radius_value self i <= radius_value self i')%R).
      { rewrite !exact_radius_value. fold l.
        apply Rmult_le_compat_r; [left; apply Rinv_0_lt_compat; lra|].
        apply Rmult_le_compat_r; [lra|]. apply Rmult_le_compat_r; [lra|].
        apply IZR_le. lia. }
      nra.
Qed.

(** The tip of Cone(Point(0, 0, 0), 100, 4, 2, 60) is 100 below the
    surface. *)
Lemma tip_and_rim_scenario :
  Cone.height (exact_cone 4 2) 0 = Ok (PyFloat (- 100)%R).
Proof.
  exact (proj1 (proj2 (tip_and_rim (exact_cone 4 2)
                         (exact_cone_valid 4 2 ltac:(lia) ltac:(lia))))).
Defined.

(** ** No degenerate triangle *)

Lemma In_zip_nth {A B : Type} (xs : list A) (ys : list B) (x : A) (y : B) :
  In (x, y) (zip xs ys) ->
  exists k, nth_error xs k = Some x /\ nth_error ys k = Some y.
Proof.
  revert ys. induction xs as [|a xs IH]; intros [|b ys]; simpl; try tauto.
  intros [[= -> ->] | Hin].
  - now exists 0%nat.
  - destruct (IH _ Hin) as [k Hk]. now exists (S k).
Qed.

Lemma In_zip3_pairs {A B C : Type} (xs : list A) (ys : list B)
      (zs : list C) (x : A) (y : B) (z : C) :
  In (x, y, z) (zip3 xs ys zs) ->
  In (x, y) (zip xs ys) /\ In (y, z) (zip ys zs).
Proof.
  revert ys zs.
  induction xs as [|a xs IH]; intros [|b ys] [|c zs]; simpl; try tauto.
  intros [[= -> -> ->] | Hin]; [tauto|].
  destruct (IH _ _ Hin). tauto.
Qed.

(** In a list without repetition and with two elements or more, no
    element is its own neighbour in the rotation. *)
Lemma zip_rotl_distinct {A : Type} (l : list A) (x y : A) :
  NoDup l -> (2 <= List.length l)%nat ->
  In (x, y) (zip l (rotl l)) -> x <> y.
Proof.
  intros Hnd Hlen Hin Heq. subst y.
  destruct (In_zip_nth _ _ _ _ Hin) as [k [Hk Hk']].
  assert (Hlt : (k < List.length l)%nat)
    by (apply nth_error_Some; congruence).
  rewrite nth_error_rotl in Hk' by exact Hlt.
  assert (E : k = ((k + 1) mod List.length l)%nat).
  { apply (proj1 (NoDup_nth_error l) Hnd); [exact Hlt | congruence]. }
  destruct (Nat.eq_dec (k + 1) (List.length l)) as [E1 | E1].
  - rewrite E1, Nat.Div0.mod_same in E. lia.
  - rewrite Nat.mod_small in E by lia. lia.
Qed.

Lemma In_fan_pair (c0 : Z) (B : list Z) (a b c : Z) :
  In (a, b, c) (fan c0 B) -> a = c0 /\ In (b, c) (zip B (rotl B)).
Proof.
  unfold fan. rewrite in_map_iff. intros [[x y] [Heq Hin]].
  injection Heq as <- <- <-. auto.
Qed.

Section DegenerateFacts.
Context {F : Type} `{FloatOps F} `{!Libm F}.
Implicit Types (self : Cone.t F).

Lemma NoDup_ring_vertices self (i : Z) : NoDup (ring_vertices self i).
Proof.
  unfold ring_vertices, range. rewrite map_map.
  apply Finite.Injective_map_NoDup; [|apply seq_NoDup].
  intros k k' E. unfold vertex in E. lia.
Qed.

Lemma ring_vertices_disjoint self (i i' v v' : Z) :
  1 <= Cone.sides self -> i <> i' ->
  In v (ring_vertices self i) -> In v' (ring_vertices self i') -> v <> v'.
Proof.
  intros Hs Hne Hv Hv'.
  apply In_ring_vertices in Hv. apply In_ring_vertices in Hv'.
  destruct Hv as [k [Hk ->]]. destruct Hv' as [k' [Hk' ->]].
  unfold vertex. nia.
Qed.

Lemma fan_distinct self (c0 i a b c : Z) :
  2 <= Cone.sides self ->
  (forall v, In v (ring_vertices self i) -> c0 <> v) ->
  In (a, b, c) (fan c0 (ring_vertices self i)) ->
  a <> b /\ b <> c /\ a <> c.
Proof.
  intros Hs Hc0 Hin. apply In_fan_pair in Hin. destruct Hin as [-> Hbc].
  pose proof (In_zip _ _ _ _ Hbc) as [Hb Hc].
  apply (proj1 (In_rotl _ _)) in Hc.
  repeat split; try (now apply Hc0).
  apply (zip_rotl_distinct (ring_vertices self i)); trivial.
  - apply NoDup_ring_vertices.
  - rewrite length_ring_vertices. lia.
Qed.

Lemma face_group_distinct self (i a b c : Z) :
  2 <= Cone.sides self -> 0 <= i < Cone.rings self ->
  In (a, b, c) (face_group self i) -> a <> b /\ b <> c /\ a <> c.
Proof.
  intros Hs Hi Hin. unfold face_group in Hin.
  assert (Hdis : forall A, (2 <= List.length (ring_vertices self A))%nat)
    by (intros A; rewrite length_ring_vertices; lia).
  destruct (Z.eqb_spec i 0) as [-> | Hne].
  - apply (fan_distinct self 1 1); trivial.
    intros v Hv. apply In_ring_vertices in Hv.
    destruct Hv as [k [Hk ->]]. unfold vertex. lia.
  - apply in_app_iff in Hin. destruct Hin as [Hin | Hin].
    + unfold body_faces, quads in Hin. apply in_app_iff in Hin.
      destruct Hin as [Hin | Hin];
        pose proof (In_zip3 _ _ _ _ _ _ Hin) as (Ha & Hb & Hc);
        pose proof (In_zip3_pairs _ _ _ _ _ _ Hin) as (Hab & Hbc);
        try apply (proj1 (In_rotl _ _)) in Ha;
        try apply (proj1 (In_rotl _ _)) in Hb;
        try apply (proj1 (In_rotl _ _)) in Hc.
      * repeat split.
        -- apply (zip_rotl_distinct _ _ _ (NoDup_ring_vertices self i)
                    (Hdis i) Hab).
        -- apply (ring_vertices_disjoint self i (i + 1)); trivial; lia.
        -- apply (ring_vertices_disjoint self i (i + 1)); trivial; lia.
      * repeat split.
        -- apply (ring_vertices_disjoint self i (i + 1)); trivial; lia.
        -- apply (zip_rotl_distinct _ _ _
                    (NoDup_ring_vertices self (i + 1)) (Hdis (i + 1)) Hbc).
        -- apply (ring_vertices_disjoint self i (i + 1)); trivial; lia.
    + destruct (Z.eqb_spec i (Cone.rings self - 1)); [|contradiction].
      apply (fan_distinct self (apex self) (Cone.rings self)); trivial.
      intros v Hv. apply In_ring_vertices in Hv.
      destruct Hv as [k [Hk ->]]. unfold vertex, apex. nia.
Qed.

(** On a valid descriptor no face of the list that faces returns is
    degenerate: the three indices of every triangle are pairwise
    different. *)
Theorem faces_not_degenerate self (fs : list Cone.face) :
  valid self -> Cone.faces self = Ok fs ->
  forall a b c, In (a, b, c) fs -> a <> b /\ b <> c /\ a <> c.
Proof.
  intros (Hs & Hr & _) Hfs.
  rewrite (faces_ok self ltac:(lia) Hr (faces_returned self fs Hfs)) in Hfs.
  injection Hfs as <-.
  intros a b c Hin. apply in_flat_map in Hin.
  destruct Hin as [i [Hi Hin]]. apply In_range in Hi.
  apply (face_group_distinct self i); trivial; lia.
Qed.
End DegenerateFacts.

(** No face of Cone(Point(0, 0, 0), 100, 4, 2, 60) repeats a vertex. *)
Lemma faces_not_degenerate_scenario :
  exists fs, Cone.faces (exact_cone 4 2) = Ok fs /\
    forall a b c, In (a, b, c) fs -> a <> b /\ b <> c /\ a <> c.
Proof.
  pose proof (exact_cone_faces 4 2 ltac:(lia) ltac:(lia)) as Hf.
  eexists. split; [exact Hf|].
  exact (faces_not_degenerate (exact_cone 4 2) _
           (exact_cone_valid 4 2 ltac:(lia) ltac:(lia)) Hf).
Defined.

(** ** What the constructor prints *)

Section Notices.
Context {F : Type} `{FloatOps F}.

(** The constructor of Cone never clamps silently, and what it prints does
    not depend on the dip: the notices are printed before the dip is
    looked at, so also by a call that then rejects the dip.  When a cone
    is constructed, sides and rings were ints, the stored values are
    max(sides, 3) and max(rings, 1), and the notice for sides (for rings)
    was printed exactly when the stored value differs from the one
    given. *)
Theorem clamping_is_announced (point length sides rings dip : pyval F) :
  (forall dip',
      fst (Cone.__post_init__ point length sides rings dip') =
      fst (Cone.__post_init__ point length sides rings dip)) /\
  (forall c,
      snd (Cone.__post_init__ point length sides rings dip) = Ok c ->
      exists s r,
        as_int sides = Some s /\ as_int rings = Some r /\
        Cone.sides c = Z.max s 3 /\ Cone.rings c = Z.max r 1 /\
        (In "Number of sides set to 3"%string
            (fst (Cone.__post_init__ point length sides rings dip))
         <-> Cone.sides c <> s) /\
        (In "Number of rings set to 1"%string
            (fst (Cone.__post_init__ point length sides rings dip))
         <-> Cone.rings c <> r)).
Proof.
  split.
  - intros dip'. rewrite !post_init_cases.
    destruct (Point.isinstance point) as [p|]; [|reflexivity].
    destruct (as_number length) as [l|]; [|reflexivity].
    destruct (negb (num_gt l 0)); [reflexivity|].
    destruct (as_int sides) as [s|]; [|reflexivity].
    destruct (as_int rings) as [r|]; [|reflexivity].
    cbv zeta.
    destruct (as_number dip') as [d'|]; [destruct (_ || _)|];
      (destruct (as_number dip) as [d|]; [destruct (_ || _)|]);
      reflexivity.
  - intros c. rewrite post_init_cases.
    destruct (Point.isinstance point) as [p|]; [|discriminate].
    destruct (as_number length) as [l|]; [|discriminate].
    destruct (negb (num_gt l 0)); [discriminate|].
    destruct (as_int sides) as [s|]; [|discriminate].
    destruct (as_int rings) as [r|]; [|discriminate].
    cbv zeta.
    destruct (as_number dip) as [d|]; [|discriminate].
    destruct (_ || _); [discriminate|].
    cbn [fst snd]. intros [= <-]. exists s, r. cbn [Cone.sides Cone.rings].
    repeat split; trivial.
    + destruct (Z.ltb_spec s 3); [lia|].
      destruct (Z.ltb_spec r 1); cbn in *; intuition discriminate.
    + destruct (Z.ltb_spec s 3); [cbn; tauto | lia].
    + destruct (Z.ltb_spec r 1); [lia|].
      destruct (Z.ltb_spec s 3); cbn in *; intuition discriminate.
    + destruct (Z.ltb_spec r 1); [|lia].
      destruct (Z.ltb_spec s 3); cbn; tauto.
Qed.
End Notices.

(** Cone(Point(0, 0, 0), 100, 2, 2, 60) stores 3 sides and prints the
    notice for the sides, not the one for the rings. *)
Lemma clamping_is_announced_example :
  exists s r,
    as_int (VInt 2 : pyval R) = Some s /\ as_int (VInt 2 : pyval R) = Some r /\
    Cone.sides (exact_cone 3 2) = Z.max s 3 /\
    Cone.rings (exact_cone 3 2) = Z.max r 1 /\
    (In "Number of sides set to 3"%string
        (fst (Cone.__post_init__ (@origin R) (VInt 100) (VInt 2) (VInt 2)
                                 (VInt 60)))
     <-> Cone.sides (exact_cone 3 2) <> s) /\
    (In "Number of rings set to 1"%string
        (fst (Cone.__post_init__ (@origin R) (VInt 100) (VInt 2) (VInt 2)
                                 (VInt 60)))
     <-> Cone.rings (exact_cone 3 2) <> r).
Proof.
  exact (proj2 (clamping_is_announced origin (VInt 100) (VInt 2) (VInt 2)
                  (VInt 60))
               (exact_cone 3 2) eq_refl).
Defined.

(** ** create_obj *)

Lemma string_append_assoc (a b c : string) :
  ((a ++ b) ++ c)%string = (a ++ b ++ c)%string.
Proof. induction a as [|x a IH]; simpl; [reflexivity | now rewrite IH]. Qed.

Section ObjFile.
Context {F : Type} `{FloatOps F} `{!Libm F} `{!Repr F}.
Implicit Types (self : Cone.t F) (w : world).

Lemma create_obj_no_directory w self (name directory : string) :
  directory <> ""%string -> isdir w directory = false ->
  Cone.create_obj w self name directory =
  ([], Raised (ValueError "directory does not exist")).
Proof.
  intros Hd Hw. unfold Cone.create_obj. rewrite Hw.
  destruct (String.eqb_spec directory ""); [contradiction | reflexivity].
Qed.

Lemma directory_guard w (directory : string) :
  directory = ""%string \/ isdir w directory = true ->
  negb (directory =? "")%string && negb (isdir w directory) = false.
Proof.
  intros [-> | ->]; [reflexivity|]. cbn [negb]. apply andb_false_r.
Qed.

Lemma create_obj_raises w self (name directory : string) (e : exn) :
  directory = ""%string \/ isdir w directory = true ->
  Cone.points_cartesian self = Raise e ->
  Cone.create_obj w self name directory = ([], Raised e).
Proof.
  intros Hd Hc. unfold Cone.create_obj.
  now rewrite (directory_guard w directory Hd), Hc.
Qed.

Lemma create_obj_open w self (name directory : string)
      (cart : list (Cone.cartesian F)) (fs : list Cone.face) :
  directory = ""%string \/ isdir w directory = true ->
  Cone.points_cartesian self = Ok cart -> Cone.faces self = Ok fs ->
  Cone.create_obj w self name directory =
  if can_open w (obj_path directory name)
  then (["obj file created"%string],
        Written (obj_path directory name)
                (map v_line cart ++ map f_line fs))
  else ([], OpenFailed (obj_path directory name)).
Proof.
  intros Hd Hc Hf. unfold Cone.create_obj.
  rewrite (directory_guard w directory Hd), Hc, Hf.
  fold (obj_path directory name).
  destruct (can_open w (obj_path directory name)); [|reflexivity].
  do 2 f_equal. rewrite map_map. apply (f_equal2 (@app _)).
  - apply map_ext. now intros [[[p0 p1] p2] p3].
  - apply map_ext. intros [[a b] c]. cbn [String.concat f_line].
    now rewrite !string_append_assoc.
Qed.

(** create_obj on a valid descriptor, when the directory (if one is
    named) exists, points_cartesian returns and the file can be opened:
    faces returns too, create_obj prints 'obj file created' and writes to
    os.path.join(directory, name + '.obj') one "v" line for each of the
    rings*sides + 2 points, in the order of points_cartesian, and after
    them one "f" line for each face, in the order of faces.  Every index
    on an "f" line, counted from 1 as the OBJ format counts, names one of
    the "v" lines written: that of the point the index was given to. *)
Theorem create_obj_writes w self (name directory : string)
        (cart : list (Cone.cartesian F)) :
  valid self ->
  directory = ""%string \/ isdir w directory = true ->
  can_open w (obj_path directory name) = true ->
  Cone.points_cartesian self = Ok cart ->
  exists fs,
    Cone.faces self = Ok fs /\
    Cone.create_obj w self name directory =
      (["obj file created"%string],
       Written (obj_path directory name)
               (map v_line cart ++ map f_line fs)) /\
    Z.of_nat (List.length (map v_line cart)) =
      Cone.rings self * Cone.sides self + 2 /\
    forall a b c, In (a, b, c) fs ->
      let writes := map v_line cart ++ map f_line fs in
      names_vertex_line writes cart a /\
      names_vertex_line writes cart b /\
      names_vertex_line writes cart c.
Proof.
  intros (Hs & Hr & _) Hd Ho Hc.
  assert (Hs1 : 1 <= Cone.sides self) by lia.
  assert (Hret : returns (Cone.points_cartesian self)) by now exists cart.
  destruct (length_cartesian self Hs1 Hr Hret) as [cart' [Hc' Hlen]].
  rewrite Hc in Hc'. injection Hc' as <-.
  pose proof (faces_ok self Hs1 Hr Hret) as Hf.
  exists (flat_map (face_group self) (range (Cone.rings self))).
  split; [exact Hf|].
  split; [rewrite (create_obj_open w self name directory _ _ Hd Hc Hf);
          now rewrite Ho|].
  split; [rewrite length_map, Hlen; reflexivity|].
  intros a b c Hin writes. apply in_flat_map in Hin.
  destruct Hin as [i [Hi Hin]]. apply In_range in Hi.
  pose proof (face_group_bounds self i a b c Hs1 ltac:(lia) Hin)
    as (Ha & Hb & Hc').
  assert (Hname : forall v, 1 <= v <= apex self ->
                            names_vertex_line writes cart v).
  { intros v Hv. split; [lia|].
    assert (Hlt : (Z.to_nat (v - 1) < List.length cart)%nat) by lia.
    destruct (nth_error cart (Z.to_nat (v - 1))) as [p|] eqn:Ep;
      [|apply nth_error_None in Ep; lia].
    exists p. split; [reflexivity|]. unfold writes.
    rewrite nth_error_app1 by (rewrite length_map; exact Hlt).
    now apply map_nth_error. }
  auto.
Qed.

(** How create_obj fails on a valid descriptor, and what it does not do
    then.  A directory that is named and does not exist is refused first,
    whatever the geometry.  Otherwise an exception of points_cartesian,
    which is ValueError('math domain error') or OverflowError, leaves
    create_obj before the file is opened, so that an existing file is
    left as it is.  Otherwise, if the file cannot be opened, nothing is
    written.  In all three cases nothing is printed; and whenever a file
    was written, the directory check had passed, points_cartesian had
    returned and 'obj file created' was printed. *)
Theorem create_obj_failures w self (name directory : string) :
  valid self ->
  (directory <> ""%string -> isdir w directory = false ->
   Cone.create_obj w self name directory =
   ([], Raised (ValueError "directory does not exist"))) /\
  (directory = ""%string \/ isdir w directory = true ->
   forall e, Cone.points_cartesian self = Raise e ->
     arithmetic_error e /\
     Cone.create_obj w self name directory = ([], Raised e)) /\
  (directory = ""%string \/ isdir w directory = true ->
   returns (Cone.points_cartesian self) ->
   can_open w (obj_path directory name) = false ->
   Cone.create_obj w self name directory =
   ([], OpenFailed (obj_path directory name))) /\
  (forall out path writes,
     Cone.create_obj w self name directory = (out, Written path writes) ->
     out = ["obj file created"%string] /\
     path = obj_path directory name /\
     can_open w path = true /\
     (directory = ""%string \/ isdir w directory = true) /\
     returns (Cone.points_cartesian self)).
Proof.
  intros (Hs & Hr & _).
  assert (Hs1 : 1 <= Cone.sides self) by lia.
  split; [apply create_obj_no_directory|].
  split.
  { intros Hd e He. split; [now apply (points_cartesian_raised self e)|].
    now apply create_obj_raises. }
  split.
  { intros Hd [cart Hc] Ho.
    rewrite (create_obj_open w self name directory _ _ Hd Hc
               (faces_ok self Hs1 Hr (ex_intro _ cart Hc))).
    now rewrite Ho. }
  intros out path writes Hw.
  assert (Hd : directory = ""%string \/ isdir w directory = true).
  { destruct (String.eqb_spec directory "") as [Hd | Hd]; [now left|].
    destruct (isdir w directory) eqn:Hdir; [now right|].
    rewrite create_obj_no_directory in Hw by assumption. discriminate. }
  destruct (Cone.points_cartesian self) as [cart|e] eqn:Hc.
  2:{ rewrite (create_obj_raises w self name directory e Hd Hc) in Hw.
      discriminate. }
  rewrite (create_obj_open w self name directory _ _ Hd Hc
             (faces_ok self Hs1 Hr (ex_intro _ cart Hc))) in Hw.
  destruct (can_open w (obj_path directory name)) eqn:Ho; [|discriminate].
  injection Hw as <- <- <-.
  repeat split; trivial. now exists cart.
Qed.
End ObjFile.

(** cone.create_obj('test') on Cone(Point(0, 0, 0), 100, 4, 2, 60), in a
    file system in which the file can be opened, writes 10 vertex lines
    to test.obj, whatever the text of a float is. *)
Lemma create_obj_writes_scenario :
  valid (exact_cone 4 2) /\
  forall text : Repr R,
  exists cart fs,
    Cone.points_cartesian (exact_cone 4 2) = Ok cart /\
    Cone.faces (exact_cone 4 2) = Ok fs /\
    Cone.create_obj permissive (exact_cone 4 2) "test" "" =
      (["obj file created"%string],
       Written "test.obj" (map v_line cart ++ map f_line fs)) /\
    Z.of_nat (List.length (map v_line cart)) = 10 /\
    forall a b c, In (a, b, c) fs ->
      let writes := map v_line cart ++ map f_line fs in
      names_vertex_line writes cart a /\
      names_vertex_line writes cart b /\
      names_vertex_line writes cart c.
Proof.
  split; [apply exact_cone_valid; lia|]. intros text.
  destruct (exact_cone_returns 4 2 ltac:(lia) ltac:(lia)) as [cart Hc].
  destruct (create_obj_writes permissive (exact_cone 4 2) "test" "" cart
              (exact_cone_valid 4 2 ltac:(lia) ltac:(lia))
              (or_introl eq_refl) eq_refl Hc)
    as (fs & Hf & Hobj & Hlen & Hnames).
  exists cart, fs.
  split; [exact Hc|]. split; [exact Hf|]. split; [exact Hobj|].
  split; [exact Hlen | exact Hnames].
Defined.

(** cone.create_obj('test', 'out') on the same cone where no directory
    exists raises ValueError('directory does not exist') and prints
    nothing. *)
Lemma create_obj_failures_scenario :
  valid (exact_cone 4 2) /\
  forall text : Repr R,
    Cone.create_obj no_directories (exact_cone 4 2) "test" "out" =
    ([], Raised (ValueError "directory does not exist")).
Proof.
  split; [apply exact_cone_valid; lia|]. intros text.
  refine (proj1 (create_obj_failures no_directories (exact_cone 4 2)
                   "test" "out"
                   (exact_cone_valid 4 2 ltac:(lia) ltac:(lia))) _ _).
  - discriminate.
  - reflexivity.
Defined.

(** ** Every point is a vertex of some face *)

Lemma at_nth_error (l : list Z) (k : nat) (v : Z) :
  nth_error l k = Some v -> at_ l (Z.of_nat k) = v.
Proof.
  intros Hk. unfold at_. rewrite Nat2Z.id. now apply nth_error_nth.
Qed.

Lemma fan_uses (c0 : Z) (B : list Z) (v : Z) :
  In v B -> exists c, In (c0, v, c) (fan c0 B).
Proof.
  intros Hin. apply In_nth_error in Hin. destruct Hin as [k Hk].
  assert (Hlt : (k < List.length B)%nat)
    by (apply nth_error_Some; congruence).
  pose proof (nth_error_fan c0 B k Hlt) as Hf.
  rewrite (at_nth_error B k v Hk) in Hf.
  eexists. exact (nth_error_In _ _ Hf).
Qed.

Lemma quads_uses (A B : list Z) (v : Z) :
  List.length A = List.length B -> In v B ->
  exists a b, In (a, b, v) (quads A B).
Proof.
  intros Hlen Hin. apply In_nth_error in Hin. destruct Hin as [k Hk].
  assert (Hlt : (k < List.length A)%nat)
    by (rewrite Hlen; apply nth_error_Some; congruence).
  destruct (nth_error_quads A B k Hlen Hlt) as [Hq _].
  rewrite (at_nth_error B k v Hk) in Hq.
  eexists _, _. exact (nth_error_In _ _ Hq).
Qed.

Section Coverage.
Context {F : Type} `{FloatOps F} `{!Libm F}.
Implicit Types (self : Cone.t F).

Lemma ring_vertices_first self (i : Z) :
  1 <= Cone.sides self -> In (vertex self i 0) (ring_vertices self i).
Proof. intros Hs. apply In_ring_vertices. exists 0. split; [lia | reflexivity]. Qed.

(** On a valid descriptor, in the list that faces returns, every point
    but the last is a vertex of some face, and with two rings or more so
    is the last, the point on the surface: the mesh has no loose point.
    (With one ring the point on the surface is loose.) *)
Theorem every_point_in_a_face self (fs : list Cone.face) :
  valid self -> Cone.faces self = Ok fs ->
  forall v, 1 <= v <= apex self ->
    v < apex self \/ 2 <= Cone.rings self ->
    exists a b c, In (a, b, c) fs /\ (v = a \/ v = b \/ v = c).
Proof.
  intros (Hs & Hr & _) Hfs.
  assert (Hs1 : 1 <= Cone.sides self) by lia.
  rewrite (faces_ok self Hs1 Hr (faces_returned self fs Hfs)) in Hfs.
  injection Hfs as <-.
  intros v Hv Hlast.
  assert (Hgroup : forall i f, 0 <= i < Cone.rings self ->
            In f (face_group self i) ->
            In f (flat_map (face_group self) (range (Cone.rings self)))).
  { intros i f Hi Hf. apply in_flat_map. exists i.
    split; [now apply In_range | exact Hf]. }
  destruct (Z.eq_dec v 1) as [-> | Hv1].
  { (* the tip *)
    destruct (fan_uses 1 _ _ (ring_vertices_first self 1 Hs1)) as [c Hc].
    exists 1, (vertex self 1 0), c. split; [|now left].
    apply (Hgroup 0); [lia | exact Hc]. }
  destruct (Z.eq_dec v (apex self)) as [-> | Hva].
  { (* the point on the surface *)
    destruct Hlast as [Hlt | Hr2]; [lia|].
    destruct (fan_uses (apex self) _ _
                (ring_vertices_first self (Cone.rings self) Hs1)) as [c Hc].
    exists (apex self), (vertex self (Cone.rings self) 0), c.
    split; [|now left].
    apply (Hgroup (Cone.rings self - 1)); [lia|]. unfold face_group.
    destruct (Z.eqb_spec (Cone.rings self - 1) 0); [lia|].
    rewrite Z.eqb_refl. apply in_app_iff. right. exact Hc. }
  (* a point of ring i *)
  remember (Cone.sides self) as s eqn:Es.
  remember ((v - 2) / s + 1) as i eqn:Ei.
  remember ((v - 2) mod s) as k eqn:Ek.
  assert (Hdiv : v - 2 = s * ((v - 2) / s) + (v - 2) mod s)
    by (apply Z.div_mod; lia).
  assert (Hk : 0 <= k < s) by (subst k; apply Z.mod_pos_bound; lia).
  assert (Hvk : v = vertex self i k) by (unfold vertex; subst i k; lia).
  assert (Hi : 1 <= i <= Cone.rings self).
  { unfold apex in Hv, Hva. rewrite <- Es in Hv, Hva.
    assert (0 <= (v - 2) / s) by (apply Z.div_pos; lia).
    assert ((v - 2) / s < Cone.rings self)
      by (apply Z.div_lt_upper_bound; nia).
    lia. }
  assert (Hin : In v (ring_vertices self i)).
  { apply In_ring_vertices. exists k. subst s. split; assumption. }
  destruct (Z.eq_dec i 1) as [Hi1 | Hi1].
  - rewrite Hi1 in Hin. destruct (fan_uses 1 _ _ Hin) as [c Hc].
    exists 1, v, c. split; [|tauto].
    apply (Hgroup 0); [lia | exact Hc].
  - replace i with (i - 1 + 1) in Hin by lia.
    assert (Hlen : List.length (ring_vertices self (i - 1)) =
                   List.length (ring_vertices self (i - 1 + 1)))
      by now rewrite !length_ring_vertices.
    destruct (quads_uses _ _ v Hlen Hin) as (a & b & Hq).
    exists a, b, v. split; [|tauto].
    apply (Hgroup (i - 1)); [lia|]. unfold face_group.
    destruct (Z.eqb_spec (i - 1) 0); [lia|].
    apply in_app_iff. left. exact Hq.
Qed.
End Coverage.

(** In the mesh of Cone(Point(0, 0, 0), 100, 4, 2, 60) each of the ten
    points is a vertex of some face. *)
Lemma every_point_in_a_face_scenario :
  exists fs, Cone.faces (exact_cone 4 2) = Ok fs /\
    forall v, 1 <= v <= 10 ->
      exists a b c, In (a, b, c) fs /\ (v = a \/ v = b \/ v = c).
Proof.
  pose proof (exact_cone_faces 4 2 ltac:(lia) ltac:(lia)) as Hf.
  eexists. split; [exact Hf|].
  intros v Hv.
  apply (every_point_in_a_face (exact_cone 4 2) _
           (exact_cone_valid 4 2 ltac:(lia) ltac:(lia)) Hf);
    [exact Hv|]. right. simpl. lia.
Defined.
